(** * Prism: the Readwise sync engine, its API client and the batch archive

    A shallow embedding of [src/lib/readwise.ts] (the rate-limited API
    client), [src/app/actions/sync.ts] (the sync state machine and the
    document transformer) and the batch archive of
    [src/app/actions/triage.ts].

    Server actions are asynchronous and effectful: they read the clock, sleep,
    talk to the upstream API and read and write the database.  They are
    embedded as functions of a small state-and-exception monad [M] over a
    [World] that holds the clock, the scripted upstream, the live client
    object, the three Prisma tables and a trace of the requests sent and of
    the timers awaited. *)

From Stdlib Require Import ZArith String Ascii List Lia QArith.
From stdpp Require Import gmap strings list pretty.

Local Open Scope Z_scope.
Local Open Scope string_scope.

(** ** The JavaScript runtime, as far as the sources use it *)

Module Js.

(** A thrown value: an [Error] object with its [message], or any other
    value.  The handlers of the sources test [error instanceof Error]. *)
Inductive Exn : Type :=
  | ErrorObj (message : string)
  | OtherThrown.

(** [error instanceof Error ? error.message : "Unknown error"] *)
Definition errorMessage (error : Exn) : string :=
  match error with
  | ErrorObj message => message
  | OtherThrown => "Unknown error"
  end.

(** A [number], as far as the sources compute with numbers: [NaN], an
    integer that is a double, or an infinity.  (The zero of either sign is
    the one [Finite 0]: the sources only hand these numbers to
    [setTimeout], which does not tell the two apart.) *)
Inductive Num : Type :=
  | NaN
  | Finite (value : Z)
  | Infinity (negative : bool).

(** The Number value for a mathematical integer: the nearest double, ties to
    the even significand, and an infinity from 2^1024 on.  Integers of
    magnitude below 2^53 are doubles. *)
Definition toNumber (z : Z) : Num :=
  let a := Z.abs z in
  if (a <? 2 ^ 53)%Z then Finite z
  else
    let shift := Z.log2 a - 52 in
    let q := Z.shiftr a shift in
    let r := a - Z.shiftl q shift in
    let half := Z.shiftl 1 (shift - 1) in
    let q' := if (half <? r)%Z || ((r =? half)%Z && Z.odd q) then q + 1 else q in
    let m := Z.shiftl q' shift in
    if (2 ^ 1024 <=? m)%Z then Infinity (z <? 0)%Z else Finite (Z.sgn z * m).

(** Truthiness of a [string | null | undefined]: only a non-empty string is
    truthy. *)
Definition truthy (v : option string) : bool :=
  match v with
  | Some (String _ _) => true
  | _ => false
  end.

(** [s.substring(0, n)] *)
Definition substring0 (n : nat) (s : string) : string := substring 0 n s.

(** White space skipped by [parseInt]: the code units of StrWhiteSpaceChar
    below 256 (a header value is a byte string, one code unit per byte). *)
Definition isWhiteSpace (c : ascii) : bool :=
  let n := nat_of_ascii c in
  ((n =? 9) || (n =? 10) || (n =? 11) || (n =? 12) || (n =? 13) || (n =? 32)
   || (n =? 160))%nat.

Fixpoint trimStart (s : string) : string :=
  match s with
  | String c rest => if isWhiteSpace c then trimStart rest else s
  | EmptyString => s
  end.

Definition digitValue (c : ascii) : option Z :=
  let n := Z.of_nat (nat_of_ascii c) in
  if ((48 <=? n) && (n <=? 57))%Z then Some (n - 48)
  else if ((97 <=? n) && (n <=? 122))%Z then Some (n - 87)
  else if ((65 <=? n) && (n <=? 90))%Z then Some (n - 55)
  else None.

(** The longest prefix of digits of the radix, [acc] being the integer read
    so far ([None]: no digit yet). *)
Fixpoint parseDigits (radix : Z) (s : string) (acc : option Z) : option Z :=
  match s with
  | String c rest =>
      match digitValue c with
      | Some d =>
          if (d <? radix)%Z
          then parseDigits radix rest (Some (default 0 acc * radix + d))
          else acc
      | None => acc
      end
  | EmptyString => acc
  end.

(** [parseInt(s)] with no radix argument: [NaN] when no digit is read,
    otherwise the Number value for the signed integer the digits denote.
    (Past the 20th significant digit of a decimal numeral the language lets
    an implementation read zeros; the value here is that of the digits as
    written.  Either way it is beyond any delay a timer accepts.) *)
Definition parseInt (s : string) : Num :=
  let s1 := trimStart s in
  let '(sign, s2) :=
    match s1 with
    | String "-" rest => (-1, rest)
    | String "+" rest => (1, rest)
    | _ => (1, s1)
    end in
  let '(radix, s3) :=
    match s2 with
    | String "0" (String "x" rest) => (16, rest)
    | String "0" (String "X" rest) => (16, rest)
    | _ => (10, s2)
    end in
  match parseDigits radix s3 None with
  | Some mathInt => toNumber (sign * mathInt)
  | None => NaN
  end.

(** [a * b] for an integer literal [b] that is a double: the product is
    rounded again; [NaN] is absorbing. *)
Definition mul (a : Num) (b : Z) : Num :=
  match a with
  | NaN => NaN
  | Finite x => toNumber (x * b)
  | Infinity negative =>
      if (b =? 0)%Z then NaN else Infinity (xorb negative (b <? 0)%Z)
  end.

(** The delay [setTimeout] really uses (Node.js): a delay that is not a
    number from 1 to 2^31-1 is replaced by 1. *)
Definition timeoutDelay (ms : Num) : Z :=
  match ms with
  | Finite d => if ((1 <=? d) && (d <=? 2147483647))%Z then d else 1
  | _ => 1
  end.

(** Decimal rendering of a number, padded with zeros to [width] digits. *)
Fixpoint zeros (n : nat) : string :=
  match n with
  | O => ""
  | S n => String "0" (zeros n)
  end.

Definition pad (width : nat) (n : Z) : string :=
  let s := pretty (Z.to_N n) in
  zeros (width - String.length s) +:+ s.

(** The civil date of a day number counted from 1970-01-01. *)
Definition civilFromDays (days : Z) : Z * Z * Z :=
  let z := days + 719468 in
  let era := z / 146097 in
  let doe := z - era * 146097 in
  let yoe := (doe - doe / 1460 + doe / 36524 - doe / 146096) / 365 in
  let doy := doe - (365 * yoe + yoe / 4 - yoe / 100) in
  let mp := (5 * doy + 2) / 153 in
  let d := doy - (153 * mp + 2) / 5 + 1 in
  let m := if (mp <? 10)%Z then mp + 3 else mp - 9 in
  let y := yoe + era * 400 + (if (m <=? 2)%Z then 1 else 0) in
  (y, m, d).

(** [new Date(t).toISOString()], [t] in milliseconds since the epoch. *)
Definition toISOString (t : Z) : string :=
  let days := t / 86400000 in
  let ms := t mod 86400000 in
  let '(y, m, d) := civilFromDays days in
  let year :=
    if ((0 <=? y) && (y <=? 9999))%Z then pad 4 y
    else (if (y <? 0)%Z then "-" else "+") +:+ pad 6 (Z.abs y) in
  year +:+ "-" +:+ pad 2 m +:+ "-" +:+ pad 2 d +:+ "T"
    +:+ pad 2 (ms / 3600000) +:+ ":" +:+ pad 2 (ms / 60000 mod 60) +:+ ":"
    +:+ pad 2 (ms / 1000 mod 60) +:+ "." +:+ pad 3 (ms mod 1000) +:+ "Z".

(** A [Date] value.  [new Date(s)] for a string [s] is kept as the string it
    was built from: the sources never look inside such a date. *)
Inductive Date : Type :=
  | DateOfMs (ms : Z)
  | DateOfString (s : string).

(** [URLSearchParams.prototype.toString]: the form-urlencoded serialisation. *)
Definition hexDigit (n : nat) : ascii :=
  ascii_of_nat (if (n <? 10)%nat then 48 + n else 55 + n).

Definition urlencodeByte (c : ascii) : string :=
  let n := nat_of_ascii c in
  if ((48 <=? n) && (n <=? 57) || (65 <=? n) && (n <=? 90)
      || (97 <=? n) && (n <=? 122)
      || (n =? 42) || (n =? 45) || (n =? 46) || (n =? 95))%nat
  then String c ""
  else if (n =? 32)%nat then "+"
  else String "%" (String (hexDigit (n / 16)) (String (hexDigit (n mod 16)) "")).

Fixpoint urlencode (s : string) : string :=
  match s with
  | String c rest => urlencodeByte c +:+ urlencode rest
  | EmptyString => ""
  end.

Fixpoint searchParamsToString (ps : list (string * string)) : string :=
  match ps with
  | [] => ""
  | [(k, v)] => urlencode k +:+ "=" +:+ urlencode v
  | (k, v) :: rest =>
      urlencode k +:+ "=" +:+ urlencode v +:+ "&" +:+ searchParamsToString rest
  end.

(** [searchParams.set(k, v)]: replaces the first entry of that name and drops
    the others, or appends. *)
Fixpoint searchParamsSet (k v : string) (ps : list (string * string))
  : list (string * string) :=
  match ps with
  | [] => [(k, v)]
  | (k', v') :: rest =>
      if decide (k' = k)
      then (k, v) :: filter (fun p => p.1 ≠ k) rest
      else (k', v') :: searchParamsSet k v rest
  end.

End Js.

(** ** The upstream API as the client sees it ([src/lib/readwise.ts]) *)

Definition READWISE_API_BASE : string := "https://readwise.io/api".

(** A tag object of the wire format: [{ name, type, created }]. *)
Module Tag.
Record t : Type := {
  name : string;
  type : string;
  created : Z
}.
End Tag.

(** The two wire variants of [tags], and a falsy value ([null], absent),
    which [transformDocument] also accepts.  A [Record<string, Tag>] is kept
    as its properties in the order [Object.values] lists them. *)
Inductive Tags : Type :=
  | TagsAbsent
  | TagsArray (tags : list Tag.t)
  | TagsRecord (tags : list (string * Tag.t)).

(** [interface ReadwiseDocument]: optional fields are [option]s;
    [reading_progress] is declared a [number] but read with [?? 0]. *)
Module ReadwiseDocument.
Record t : Type := {
  id : string;
  url : string;
  source_url : option string;
  title : option string;
  author : option string;
  category : string;
  location : string;
  tags : Tags;
  site_name : option string;
  word_count : option Z;
  summary : option string;
  published_date : option string;
  created_at : string;
  updated_at : string;
  first_opened_at : option string;
  last_opened_at : option string;
  last_moved_at : option string;
  reading_progress : option Q;
  parent_id : option string
}.
End ReadwiseDocument.

(** [interface ReadwiseListResponse] *)
Module ReadwiseListResponse.
Record t : Type := {
  count : Z;
  nextPageCursor : option string;
  results : list ReadwiseDocument.t
}.
End ReadwiseListResponse.

(** What [response.json()] yields: a page of the list endpoint, any other
    JSON value, or no JSON at all (then [json()] rejects). *)
Inductive Body : Type :=
  | JsonPage (page : ReadwiseListResponse.t)
  | JsonOther
  | NotJson.

(** A fetch [Response]: the parts the client reads. *)
Module Response.
Record t : Type := {
  status : Z;
  statusText : string;
  retryAfter : option string;   (* headers.get("Retry-After") *)
  body : Body
}.

(** [response.ok] *)
Definition ok (response : t) : bool :=
  (200 <=? status response)%Z && (status response <=? 299)%Z.
End Response.

(** The [RequestInit] the client passes to [fetch]. *)
Module UpdateParams.
(** The object [updateDocument] serialises into the request body. *)
Record t : Type := {
  title : option string;
  author : option string;
  summary : option string;
  publishedDate : option string;
  imageUrl : option string;
  location : option string;
  category : option string;
  tags : option (list string);
  seen : option bool
}.
End UpdateParams.

(** The [RequestInit] the client passes to [fetch]; the body is kept as the
    object given to [JSON.stringify]. *)
Module RequestInit.
Record t : Type := {
  method : string;
  body : option UpdateParams.t
}.
End RequestInit.

(** ** The local store (Prisma) *)

(** The row a document is stored as: the object [transformDocument] builds,
    which is both the [create] and the [update] of the upsert. *)
Module Document.
Record t : Type := {
  readwiseId : string;
  url : string;
  sourceUrl : option string;
  title : option string;
  author : option string;
  summary : option string;
  category : string;
  location : string;
  tags : list string;
  siteName : option string;
  wordCount : option Z;
  publishedDate : option Js.Date;
  firstOpenedAt : option Js.Date;
  lastOpenedAt : option Js.Date;
  lastMovedAt : option Js.Date;
  readingProgress : Q;
  parentId : option string;
  createdAt : Js.Date;
  updatedAt : Js.Date
}.
End Document.

(** The values [sync.ts] writes to [SyncState.status]. *)
Inductive Status : Type := idle | syncing | error.

Global Instance Status_eq_dec : EqDecision Status.
Proof. solve_decision. Defined.

(** Modelled from the spec: the Prisma schema is not among the sources.  The
    singleton row of [SyncState] has the fields that section 3 of the
    specification lists and that [sync.ts] reads and writes; the columns a
    [create] does not mention are [null]. *)
Module SyncState.
Record t : Type := {
  status : Status;
  lastCursor : option string;
  lastSyncAt : option Z;        (* a Date, in milliseconds *)
  totalSynced : Z;
  errorMsg : option string
}.
End SyncState.

(** The singleton row of [Settings], as far as the sync reads it. *)
Module Settings.
Record t : Type := {
  apiToken : option string
}.
End Settings.

(** [interface SyncProgress] *)
Inductive ProgressStatus : Type :=
  | p_idle | p_syncing | p_completed | p_error.

Module SyncProgress.
Record t : Type := {
  status : ProgressStatus;
  totalSynced : Z;
  currentBatch : Z;
  hasMore : bool;
  error : option string
}.
End SyncProgress.

(** [interface ArchiveResult] *)
Module ArchiveResult.
Record t : Type := {
  success : Z;
  failed : Z;
  errors : list string
}.
End ArchiveResult.

(** ** The world the actions run in *)

(** [class ReadwiseClient]: its private fields.  [minRequestInterval] is never
    assigned after its initialiser and is the constant below. *)
Module ReadwiseClient.
Record t : Type := {
  token : string;
  lastRequestTime : Z
}.
End ReadwiseClient.

Definition minRequestInterval : Z := 3000.

(** What the upstream does with one request: the time it takes and the
    response, or the rejection of [fetch] (a network failure). *)
Module Attempt.
Record t : Type := {
  latency : nat;
  reply : Js.Exn + Response.t
}.
End Attempt.

(** The three [setTimeout] sites of [rateLimitedFetch]. *)
Inductive SleepSite : Type := RateLimit | Throttle429 | Backoff500.

(** What an observer of the process sees: a request leaving at a time, and a
    timer of a requested delay being awaited. *)
Inductive Event : Type :=
  | Send (time : Z) (url : string) (options : RequestInit.t)
  | Sleep (site : SleepSite) (ms : Js.Num).

Module World.
Record t : Type := {
  clock : Z;                                   (* Date.now() *)
  timerLag : list Z;          (* how late (early, if negative) each timer fires *)
  upstream : list Attempt.t;                   (* the replies still to come *)
  client : ReadwiseClient.t;                   (* the client object in use *)
  settings : option Settings.t;
  syncState : option SyncState.t;
  documents : gmap string Document.t;          (* keyed by readwiseId *)
  upsertFault : Document.t -> option Js.Exn;   (* upserts the store rejects *)
  trace : list Event                           (* newest first *)
}.

Definition set_clock (v : Z) (w : t) : t :=
  {| clock := v; timerLag := timerLag w; upstream := upstream w;
     client := client w; settings := settings w; syncState := syncState w;
     documents := documents w; upsertFault := upsertFault w;
     trace := trace w |}.

Definition set_timerLag (v : list Z) (w : t) : t :=
  {| clock := clock w; timerLag := v; upstream := upstream w;
     client := client w; settings := settings w; syncState := syncState w;
     documents := documents w; upsertFault := upsertFault w;
     trace := trace w |}.

Definition set_upstream (v : list Attempt.t) (w : t) : t :=
  {| clock := clock w; timerLag := timerLag w; upstream := v;
     client := client w; settings := settings w; syncState := syncState w;
     documents := documents w; upsertFault := upsertFault w;
     trace := trace w |}.

Definition set_client (v : ReadwiseClient.t) (w : t) : t :=
  {| clock := clock w; timerLag := timerLag w; upstream := upstream w;
     client := v; settings := settings w; syncState := syncState w;
     documents := documents w; upsertFault := upsertFault w;
     trace := trace w |}.

Definition set_settings (v : option Settings.t) (w : t) : t :=
  {| clock := clock w; timerLag := timerLag w; upstream := upstream w;
     client := client w; settings := v; syncState := syncState w;
     documents := documents w; upsertFault := upsertFault w;
     trace := trace w |}.

Definition set_syncState (v : option SyncState.t) (w : t) : t :=
  {| clock := clock w; timerLag := timerLag w; upstream := upstream w;
     client := client w; settings := settings w; syncState := v;
     documents := documents w; upsertFault := upsertFault w;
     trace := trace w |}.

Definition set_documents (v : gmap string Document.t) (w : t) : t :=
  {| clock := clock w; timerLag := timerLag w; upstream := upstream w;
     client := client w; settings := settings w; syncState := syncState w;
     documents := v; upsertFault := upsertFault w;
     trace := trace w |}.

Definition log (e : Event) (w : t) : t :=
  {| clock := clock w; timerLag := timerLag w; upstream := upstream w;
     client := client w; settings := settings w; syncState := syncState w;
     documents := documents w; upsertFault := upsertFault w;
     trace := e :: trace w |}.
End World.

(** ** The monad of the actions *)

(** How an awaited computation ends: with a value, with a thrown value, or
    not at all, when the upstream has no reply left for a pending request. *)
Inductive Res (A : Type) : Type :=
  | Ret (a : A)
  | Throw (e : Js.Exn)
  | Pending.
Arguments Ret {A} a.
Arguments Throw {A} e.
Arguments Pending {A}.

Definition M (A : Type) : Type := World.t -> Res A * World.t.

Definition ret {A} (a : A) : M A := fun w => (Ret a, w).

Definition throw {A} (e : Js.Exn) : M A := fun w => (Throw e, w).

Definition bind {A B} (m : M A) (k : A -> M B) : M B :=
  fun w =>
    match m w with
    | (Ret a, w') => k a w'
    | (Throw e, w') => (Throw e, w')
    | (Pending, w') => (Pending, w')
    end.

(** [try { m } catch (error) { handler }] *)
Definition try_catch {A} (m : M A) (handler : Js.Exn -> M A) : M A :=
  fun w =>
    match m w with
    | (Throw e, w') => handler e w'
    | r => r
    end.

Definition gets {A} (f : World.t -> A) : M A := fun w => (Ret (f w), w).

Definition modify (f : World.t -> World.t) : M unit := fun w => (Ret tt, f w).

Declare Scope action_scope.
Delimit Scope action_scope with action.
Notation "'await' x <- m ; k" := (bind m (fun x => k))
  (at level 10, x name, m at level 100, k at level 200) : action_scope.
Notation "'await_' m ; k" := (bind m (fun _ => k))
  (at level 10, m at level 100, k at level 200) : action_scope.
Local Open Scope action_scope.

(** [for (const x of xs) { await body(x) }] *)
Fixpoint for_of {A} (xs : list A) (body : A -> M unit) : M unit :=
  match xs with
  | [] => ret tt
  | x :: rest => await_ body x ; for_of rest body
  end.

(** ** Clock, timers and network *)

(** [Date.now()], and the time value of [new Date()] *)
Definition Date_now : M Z := gets World.clock.

(** [await new Promise((resolve) => setTimeout(resolve, ms))]: when the
    timer has fired, [Date.now()] has moved by the delay the runtime uses and
    by the lag of this timer.  The lag is negative when the timer fires
    early as [Date.now()] counts, which the runtime's own clock allows by up
    to a millisecond, or when the wall clock was set back meanwhile. *)
Definition sleep (site : SleepSite) (ms : Js.Num) : M unit :=
  modify (fun w =>
    World.set_clock
      (World.clock w + Js.timeoutDelay ms + hd 0 (World.timerLag w))
      (World.set_timerLag (tl (World.timerLag w)) (World.log (Sleep site ms) w))).

(** [await fetch(url, options)]: the request leaves now; the upstream's next
    reply arrives after its latency.  With no reply left the call stays
    pending. *)
Definition fetch (url : string) (options : RequestInit.t) : M Response.t :=
  fun w =>
    let w1 := World.log (Send (World.clock w) url options) w in
    match World.upstream w with
    | [] => (Pending, w1)
    | a :: rest =>
        let w2 :=
          World.set_clock (World.clock w + Z.of_nat (Attempt.latency a))
            (World.set_upstream rest w1) in
        match Attempt.reply a with
        | inl e => (Throw e, w2)
        | inr response => (Ret response, w2)
        end
    end.

(** ** The API client ([class ReadwiseClient]) *)

(** [this.lastRequestTime] *)
Definition this_lastRequestTime : M Z :=
  gets (fun w => ReadwiseClient.lastRequestTime (World.client w)).

(** [this.lastRequestTime = v] *)
Definition set_lastRequestTime (v : Z) : M unit :=
  modify (fun w =>
    World.set_client
      {| ReadwiseClient.token := ReadwiseClient.token (World.client w);
         ReadwiseClient.lastRequestTime := v |} w).

(** [rateLimitedFetch(url, options, retryCount)].  The recursion of the source
    is not bounded (a 429 is retried for ever); every call consumes one reply
    of the upstream, which [fuel] counts. *)
Fixpoint rateLimitedFetch_rec (fuel : nat) (url : string)
    (options : RequestInit.t) (retryCount : nat) : M Response.t :=
  match fuel with
  | O => fun w => (Pending, w)
  | S fuel =>
      await now <- Date_now ;
      await last <- this_lastRequestTime ;
      let timeSinceLastRequest := now - last in
      await_ (if (timeSinceLastRequest <? minRequestInterval)%Z
              then sleep RateLimit (Js.Finite (minRequestInterval - timeSinceLastRequest))
              else ret tt) ;
      await now' <- Date_now ;
      await_ set_lastRequestTime now' ;
      await response <- fetch url options ;
      if (Response.status response =? 429)%Z then
        let retryAfter := Response.retryAfter response in
        let waitTime :=
          if Js.truthy retryAfter
          then Js.mul (Js.parseInt (default "" retryAfter)) 1000
          else Js.Finite (minRequestInterval * 2) in
        await_ sleep Throttle429 waitTime ;
        rateLimitedFetch_rec fuel url options retryCount
      else if (Response.status response =? 500)%Z && (retryCount <? 3)%nat then
        let waitTime := 2 ^ Z.of_nat retryCount * 2000 in
        await_ sleep Backoff500 (Js.Finite waitTime) ;
        rateLimitedFetch_rec fuel url options (S retryCount)
      else ret response
  end.

(** [this.rateLimitedFetch(url, options)], [retryCount] at its default 0.
    One more unit of fuel than there are replies is never used up. *)
Definition rateLimitedFetch (url : string) (options : RequestInit.t)
  : M Response.t :=
  fun w => rateLimitedFetch_rec (S (length (World.upstream w))) url options 0 w.

(** [createReadwiseClient(token)]: a new client object, which becomes the
    client in use. *)
Definition createReadwiseClient (token : string) : M unit :=
  modify (World.set_client
            {| ReadwiseClient.token := token;
               ReadwiseClient.lastRequestTime := 0 |}).

Module FetchParams.
Record t : Type := {
  updatedAfter : option string;
  location : option string;
  category : option string;
  pageCursor : option string;
  withHtmlContent : option bool
}.
End FetchParams.

(** [if (v) searchParams.set(k, v)] *)
Definition setIfTruthy (k : string) (v : option string)
    (ps : list (string * string)) : list (string * string) :=
  if Js.truthy v then Js.searchParamsSet k (default "" v) ps else ps.

(** The URL [fetchDocuments] requests. *)
Definition listUrl (params : FetchParams.t) : string :=
  let searchParams := [] in
  let searchParams := setIfTruthy "updatedAfter" (FetchParams.updatedAfter params) searchParams in
  let searchParams := setIfTruthy "location" (FetchParams.location params) searchParams in
  let searchParams := setIfTruthy "category" (FetchParams.category params) searchParams in
  let searchParams := setIfTruthy "pageCursor" (FetchParams.pageCursor params) searchParams in
  let searchParams :=
    if default false (FetchParams.withHtmlContent params)
    then Js.searchParamsSet "withHtmlContent" "true" searchParams
    else searchParams in
  READWISE_API_BASE +:+ "/v3/list/?" +:+ Js.searchParamsToString searchParams.

Definition GET : RequestInit.t :=
  {| RequestInit.method := "GET"; RequestInit.body := None |}.

(** [fetchDocuments(params)].  [response.json()] is typed by a cast: a body
    that is no page fails at its first use, in the caller's [try] block; it
    fails here in the model. *)
Definition fetchDocuments (params : FetchParams.t) : M ReadwiseListResponse.t :=
  let url := listUrl params in
  await response <- rateLimitedFetch url GET ;
  if negb (Response.ok response) then
    throw (Js.ErrorObj ("Failed to fetch documents: "
                        +:+ pretty (Response.status response) +:+ " "
                        +:+ Response.statusText response))
  else
    match Response.body response with
    | JsonPage page => ret page
    | JsonOther =>
        throw (Js.ErrorObj "Cannot read properties of undefined (reading 'map')")
    | NotJson => throw (Js.ErrorObj "Unexpected end of JSON input")
    end.

(** [updateDocument(id, params)]; the result is not used by any caller. *)
Definition updateDocument (id : string) (params : UpdateParams.t) : M unit :=
  await response <-
    rateLimitedFetch (READWISE_API_BASE +:+ "/v3/update/" +:+ id +:+ "/")
      {| RequestInit.method := "PATCH"; RequestInit.body := Some params |} ;
  if negb (Response.ok response) then
    throw (Js.ErrorObj ("Failed to update document: "
                        +:+ pretty (Response.status response) +:+ " "
                        +:+ Response.statusText response))
  else
    match Response.body response with
    | NotJson => throw (Js.ErrorObj "Unexpected end of JSON input")
    | _ => ret tt
    end.

Definition archiveParams : UpdateParams.t :=
  {| UpdateParams.title := None; UpdateParams.author := None;
     UpdateParams.summary := None; UpdateParams.publishedDate := None;
     UpdateParams.imageUrl := None; UpdateParams.location := Some "archive";
     UpdateParams.category := None; UpdateParams.tags := None;
     UpdateParams.seen := None |}.

(** [archiveDocument(id)] *)
Definition archiveDocument (id : string) : M unit :=
  updateDocument id archiveParams.

Module BatchResult.
Record t : Type := {
  success : list string;
  failed : list (string * string)     (* { id, error } *)
}.
End BatchResult.

(** The loop of [batchArchive] from index [i] on, [success] and [failed]
    being the two arrays pushed to. *)
Fixpoint batchArchive_loop (ids : list string) (i total : nat)
    (onProgress : option (nat -> nat -> M unit))
    (success : list string) (failed : list (string * string))
  : M BatchResult.t :=
  match ids with
  | [] => ret {| BatchResult.success := success; BatchResult.failed := failed |}
  | id :: rest =>
      await ok <- try_catch
                    (await_ archiveDocument id ; ret (inr tt))
                    (fun error => ret (inl (Js.errorMessage error))) ;
      let success := match ok with inr _ => (success ++ [id])%list | inl _ => success end in
      let failed := match ok with inl e => (failed ++ [(id, e)])%list | inr _ => failed end in
      await_ match onProgress with
             | Some f => f (S i) total
             | None => ret tt
             end ;
      batchArchive_loop rest (S i) total onProgress success failed
  end.

(** [batchArchive(ids, onProgress)] *)
Definition batchArchive (ids : list string)
    (onProgress : option (nat -> nat -> M unit)) : M BatchResult.t :=
  batchArchive_loop ids 0 (length ids) onProgress [] [].

(** ** Prisma: the queries the actions make *)

(** The store answers the queries: a rejection is modelled where the sources
    provide for one, for the upsert of a document ([World.upsertFault]) and
    for the update of a row that does not exist.  A store that is down would
    reject every query; the properties below speak of the runs in which it
    answers, and those that say an action returns or reports say so of
    these runs. *)

(** [prisma.settings.findUnique({ where: { id: "main" } })] *)
Definition prisma_settings_findUnique : M (option Settings.t) :=
  gets World.settings.

(** [prisma.syncState.findUnique({ where: { id: "main" } })] *)
Definition prisma_syncState_findUnique : M (option SyncState.t) :=
  gets World.syncState.

(** [prisma.syncState.update({ where, data })]: rejects when there is no row. *)
Definition prisma_syncState_update (data : SyncState.t -> SyncState.t) : M unit :=
  fun w =>
    match World.syncState w with
    | Some row => (Ret tt, World.set_syncState (Some (data row)) w)
    | None => (Throw (Js.ErrorObj "Record to update not found."), w)
    end.

(** [prisma.syncState.upsert({ where, update, create })] *)
Definition prisma_syncState_upsert (update : SyncState.t -> SyncState.t)
    (create : SyncState.t) : M unit :=
  modify (fun w =>
    World.set_syncState
      (Some match World.syncState w with
            | Some row => update row
            | None => create
            end) w).

(** [prisma.document.upsert({ where: { readwiseId }, update: doc, create: doc })]:
    the row of that [readwiseId] becomes [doc], unless the store rejects it. *)
Definition prisma_document_upsert (doc : Document.t) : M unit :=
  fun w =>
    match World.upsertFault w doc with
    | Some e => (Throw e, w)
    | None =>
        (Ret tt,
         World.set_documents
           (<[Document.readwiseId doc := doc]> (World.documents w)) w)
    end.

(** [prisma.document.count()] *)
Definition prisma_document_count : M Z :=
  gets (fun w => Z.of_nat (size (World.documents w))).

(** [prisma.document.updateMany({ where: { readwiseId: { in: ids } }, data })] *)
Definition prisma_document_updateMany (ids : list string)
    (data : Document.t -> Document.t) : M unit :=
  modify (fun w =>
    World.set_documents
      ((fun row => if decide (Document.readwiseId row ∈ ids) then data row else row)
         <$> World.documents w) w).

(** [prisma.document.deleteMany()] *)
Definition prisma_document_deleteMany : M unit :=
  modify (World.set_documents ∅).

(** [revalidatePath(path)]: invalidates a cache of the framework, which the
    world does not hold. *)
Definition revalidatePath (path : string) : M unit := ret tt.

(** ** The document transformer ([transformDocument] of [sync.ts]) *)

(** [Object.values(o)] *)
Definition Object_values {A} (o : list (string * A)) : list A := map snd o.

(** [v ? new Date(v) : null] *)
Definition dateOrNull (v : option string) : option Js.Date :=
  if Js.truthy v then Some (Js.DateOfString (default "" v)) else None.

Definition transformDocument (doc : ReadwiseDocument.t) : Document.t :=
  let tags :=
    match ReadwiseDocument.tags doc with
    | TagsAbsent => []
    | TagsArray tags => map Tag.name tags
    | TagsRecord tags => map Tag.name (Object_values tags)
    end in
  {| Document.readwiseId := ReadwiseDocument.id doc;
     Document.url := ReadwiseDocument.url doc;
     Document.sourceUrl := ReadwiseDocument.source_url doc;
     Document.title := ReadwiseDocument.title doc;
     Document.author := ReadwiseDocument.author doc;
     Document.summary := ReadwiseDocument.summary doc;
     Document.category := ReadwiseDocument.category doc;
     Document.location := ReadwiseDocument.location doc;
     Document.tags := tags;
     Document.siteName := ReadwiseDocument.site_name doc;
     Document.wordCount := ReadwiseDocument.word_count doc;
     Document.publishedDate := dateOrNull (ReadwiseDocument.published_date doc);
     Document.firstOpenedAt := dateOrNull (ReadwiseDocument.first_opened_at doc);
     Document.lastOpenedAt := dateOrNull (ReadwiseDocument.last_opened_at doc);
     Document.lastMovedAt := dateOrNull (ReadwiseDocument.last_moved_at doc);
     Document.readingProgress := default 0%Q (ReadwiseDocument.reading_progress doc);
     Document.parentId := ReadwiseDocument.parent_id doc;
     Document.createdAt := Js.DateOfString (ReadwiseDocument.created_at doc);
     Document.updatedAt := Js.DateOfString (ReadwiseDocument.updated_at doc) |}.

(** ** The sync state machine ([src/app/actions/sync.ts]) *)

(** [settings?.apiToken] *)
Definition apiTokenOf (settings : option Settings.t) : option string :=
  settings ≫= Settings.apiToken.

Definition progress (status : ProgressStatus) (totalSynced currentBatch : Z)
    (hasMore : bool) (error : option string) : SyncProgress.t :=
  {| SyncProgress.status := status; SyncProgress.totalSynced := totalSynced;
     SyncProgress.currentBatch := currentBatch; SyncProgress.hasMore := hasMore;
     SyncProgress.error := error |}.

Definition startSync : M SyncProgress.t :=
  await settings <- prisma_settings_findUnique ;
  if negb (Js.truthy (apiTokenOf settings)) then
    ret (progress p_error 0 0 false
           (Some "No API token configured. Please add your Readwise API token in settings."))
  else
    await currentState <- prisma_syncState_findUnique ;
    match currentState with
    | Some {| SyncState.status := syncing; SyncState.totalSynced := total |} =>
        ret (progress p_syncing total 0 true None)
    | _ =>
        await_ prisma_syncState_upsert
          (fun row =>
             {| SyncState.status := syncing;
                SyncState.errorMsg := None;
                SyncState.lastCursor := None;
                SyncState.lastSyncAt := SyncState.lastSyncAt row;
                SyncState.totalSynced := SyncState.totalSynced row |})
          {| SyncState.status := syncing;
             SyncState.totalSynced := 0;
             SyncState.lastCursor := None;
             SyncState.lastSyncAt := None;
             SyncState.errorMsg := None |} ;
        ret (progress p_syncing 0 0 true None)
    end.

(** The [try] block of [syncNextBatch], [syncState] being the row read at the
    start of the step. *)
Definition syncNextBatch_try (apiToken : string) (syncState : SyncState.t)
  : M SyncProgress.t :=
  await_ createReadwiseClient apiToken ;
  await response <- fetchDocuments
    {| FetchParams.pageCursor := SyncState.lastCursor syncState;
       FetchParams.updatedAfter := Js.toISOString <$> SyncState.lastSyncAt syncState;
       FetchParams.location := None;
       FetchParams.category := None;
       FetchParams.withHtmlContent := None |} ;
  let documents := map transformDocument (ReadwiseListResponse.results response) in
  await_ for_of documents prisma_document_upsert ;
  let hasMore :=
    Js.truthy (ReadwiseListResponse.nextPageCursor response)
    && (0 <? length documents)%nat in
  await currentTotal <- prisma_document_count ;
  await now <- Date_now ;
  await_ prisma_syncState_update
    (fun row =>
       {| SyncState.totalSynced := currentTotal;
          SyncState.lastCursor := ReadwiseListResponse.nextPageCursor response;
          SyncState.status := if hasMore then syncing else idle;
          SyncState.lastSyncAt :=
            if hasMore then SyncState.lastSyncAt syncState else Some now;
          SyncState.errorMsg := None |}) ;
  await_ revalidatePath "/" ;
  await_ revalidatePath "/settings" ;
  ret (progress (if hasMore then p_syncing else p_completed) currentTotal
         (Z.of_nat (length documents)) hasMore None).

(** The [catch] block of [syncNextBatch]. *)
Definition syncNextBatch_catch (syncState : SyncState.t) (thrown : Js.Exn)
  : M SyncProgress.t :=
  let errorMsg := Js.errorMessage thrown in
  let shown :=
    let prefix := Js.substring0 20 <$> SyncState.lastCursor syncState in
    if Js.truthy prefix then default "" prefix else "start" in
  await_ prisma_syncState_update
    (fun row =>
       {| SyncState.status := error;
          SyncState.errorMsg := Some (errorMsg +:+ " (at cursor: " +:+ shown +:+ "...)");
          SyncState.lastCursor := SyncState.lastCursor row;
          SyncState.lastSyncAt := SyncState.lastSyncAt row;
          SyncState.totalSynced := SyncState.totalSynced row |}) ;
  ret (progress p_error (SyncState.totalSynced syncState) 0 false (Some errorMsg)).

Definition syncNextBatch : M SyncProgress.t :=
  await settings <- prisma_settings_findUnique ;
  if negb (Js.truthy (apiTokenOf settings)) then
    ret (progress p_error 0 0 false (Some "No API token configured"))
  else
    await syncState <- prisma_syncState_findUnique ;
    match syncState with
    | Some ({| SyncState.status := syncing |} as syncState) =>
        try_catch
          (syncNextBatch_try (default "" (apiTokenOf settings)) syncState)
          (syncNextBatch_catch syncState)
    | _ =>
        ret (progress p_idle
               (default 0 (SyncState.totalSynced <$> syncState)) 0 false None)
    end.

Definition clearError : M unit :=
  await_ prisma_syncState_update
    (fun row =>
       {| SyncState.status := idle;
          SyncState.errorMsg := None;
          SyncState.lastCursor := SyncState.lastCursor row;
          SyncState.lastSyncAt := SyncState.lastSyncAt row;
          SyncState.totalSynced := SyncState.totalSynced row |}) ;
  await_ revalidatePath "/" ;
  revalidatePath "/settings".

Definition skipProblematicCursor : M unit :=
  await currentTotal <- prisma_document_count ;
  await now <- Date_now ;
  await_ prisma_syncState_update
    (fun row =>
       {| SyncState.status := idle;
          SyncState.errorMsg := None;
          SyncState.lastCursor := None;
          SyncState.lastSyncAt := Some now;
          SyncState.totalSynced := currentTotal |}) ;
  await_ revalidatePath "/" ;
  revalidatePath "/settings".

Definition resetSync : M unit :=
  let cleared :=
    {| SyncState.status := idle;
       SyncState.lastCursor := None;
       SyncState.lastSyncAt := None;
       SyncState.totalSynced := 0;
       SyncState.errorMsg := None |} in
  await_ prisma_syncState_upsert (fun _ => cleared) cleared ;
  await_ prisma_document_deleteMany ;
  await_ revalidatePath "/" ;
  revalidatePath "/settings".

(** ** The batch archive ([archiveDocuments] of [src/app/actions/triage.ts]) *)

(** [getApiToken()] of [settings.ts] *)
Definition getApiToken : M (option string) :=
  await settings <- prisma_settings_findUnique ;
  ret (apiTokenOf settings).

(** [data: { location: "archive", lastMovedAt: now }] *)
Definition moveToArchive (now : Z) (row : Document.t) : Document.t :=
  {| Document.readwiseId := Document.readwiseId row;
     Document.url := Document.url row;
     Document.sourceUrl := Document.sourceUrl row;
     Document.title := Document.title row;
     Document.author := Document.author row;
     Document.summary := Document.summary row;
     Document.category := Document.category row;
     Document.location := "archive";
     Document.tags := Document.tags row;
     Document.siteName := Document.siteName row;
     Document.wordCount := Document.wordCount row;
     Document.publishedDate := Document.publishedDate row;
     Document.firstOpenedAt := Document.firstOpenedAt row;
     Document.lastOpenedAt := Document.lastOpenedAt row;
     Document.lastMovedAt := Some (Js.DateOfMs now);
     Document.readingProgress := Document.readingProgress row;
     Document.parentId := Document.parentId row;
     Document.createdAt := Document.createdAt row;
     Document.updatedAt := Document.updatedAt row |}.

Definition archiveDocuments (readwiseIds : list string) : M ArchiveResult.t :=
  await token <- getApiToken ;
  if negb (Js.truthy token) then
    ret {| ArchiveResult.success := 0;
           ArchiveResult.failed := Z.of_nat (length readwiseIds);
           ArchiveResult.errors := ["No API token configured"] |}
  else
    await_ createReadwiseClient (default "" token) ;
    await result <- batchArchive readwiseIds None ;
    await_ (if (0 <? length (BatchResult.success result))%nat then
              await now <- Date_now ;
              prisma_document_updateMany (BatchResult.success result)
                (moveToArchive now)
            else ret tt) ;
    await_ revalidatePath "/triage" ;
    await_ revalidatePath "/" ;
    ret {| ArchiveResult.success := Z.of_nat (length (BatchResult.success result));
           ArchiveResult.failed := Z.of_nat (length (BatchResult.failed result));
           ArchiveResult.errors :=
             map (fun f => f.1 +:+ ": " +:+ f.2) (BatchResult.failed result) |}.

(** ** Vocabulary of the properties *)

(** The times at which requests left, newest first. *)
Fixpoint sendTimes (tr : list Event) : list Z :=
  match tr with
  | [] => []
  | Send time _ _ :: rest => time :: sendTimes rest
  | Sleep _ _ :: rest => sendTimes rest
  end.

(** The requests sent, with their options, newest first. *)
Fixpoint sentRequests (tr : list Event) : list (string * RequestInit.t) :=
  match tr with
  | [] => []
  | Send _ url options :: rest => (url, options) :: sentRequests rest
  | Sleep _ _ :: rest => sentRequests rest
  end.

(** The delays asked of the timers of one site, newest first. *)
Fixpoint sleepsAt (site : SleepSite) (tr : list Event) : list Js.Num :=
  match tr with
  | [] => []
  | Sleep site' ms :: rest =>
      match site, site' with
      | RateLimit, RateLimit | Throttle429, Throttle429
      | Backoff500, Backoff500 => ms :: sleepsAt site rest
      | _, _ => sleepsAt site rest
      end
  | Send _ _ _ :: rest => sleepsAt site rest
  end.

(** Times listed newest first that are at least [gap] apart. *)
Fixpoint spaced (gap : Z) (times : list Z) : Prop :=
  match times with
  | later :: (earlier :: _) as rest => earlier + gap <= later /\ spaced gap rest
  | _ => True
  end.

(** No timer still to fire does so more than [early] ms early, as
    [Date.now()] counts. *)
Definition timersEarlyBy (early : Z) (w : World.t) : Prop :=
  Forall (fun lag => - early <= lag) (World.timerLag w).

(** How far [Date.now()] can be behind [lastRequestTime] when a call starts:
    the one timer awaited since the last request ran for at least 1 ms. *)
Definition backstep (early : Z) : Z := Z.max 0 (early - 1).

(** What holds of a client whose timers fire at most [early] ms early, with
    [Date.now()] at most [back] ms behind its last request: the requests so
    far are an interval less [early] apart, the newest of them is not later
    than [lastRequestTime], and every wait of the rate limit was for a
    remainder of the interval. *)
Definition pacedBy (early back : Z) (w : World.t) : Prop :=
  timersEarlyBy early w
  /\ ReadwiseClient.lastRequestTime (World.client w) <= World.clock w + back
  /\ spaced (minRequestInterval - early) (sendTimes (World.trace w))
  /\ (forall t, head (sendTimes (World.trace w)) = Some t ->
        t <= ReadwiseClient.lastRequestTime (World.client w))
  /\ Forall (fun ms => exists d, ms = Js.Finite d
                                 /\ 0 < d <= minRequestInterval + backstep early)
        (sleepsAt RateLimit (World.trace w)).

(** What holds of a client between two calls. *)
Definition clientInv (early : Z) (w : World.t) : Prop :=
  pacedBy early (backstep early) w.

(** The status of a reply, when the request was answered. *)
Definition replyStatus (a : Attempt.t) : option Z :=
  match Attempt.reply a with
  | inr response => Some (Response.status response)
  | inl _ => None
  end.


(** The store after the upserts of [docs], in order. *)
Definition upsertAll (docs : list Document.t) (store : gmap string Document.t)
  : gmap string Document.t :=
  foldl (fun m doc => <[Document.readwiseId doc := doc]> m) store docs.

(** [s] occurs in [t]. *)
Definition occursIn (s t : string) : Prop :=
  exists before after, t = before +:+ s +:+ after.

(** The database is the same in two worlds. *)
Definition sameStore (w w' : World.t) : Prop :=
  World.settings w' = World.settings w
  /\ World.syncState w' = World.syncState w
  /\ World.documents w' = World.documents w
  /\ World.upsertFault w' = World.upsertFault w.

(** A token is configured: [settings?.apiToken] is a non-empty string. *)
Definition tokenConfigured (w : World.t) (token : string) : Prop :=
  apiTokenOf (World.settings w) = Some token /\ token <> "".

(** The parameters [syncNextBatch] gives to [fetchDocuments] in the state
    [syncState]. *)
Definition stepParams (syncState : SyncState.t) : FetchParams.t :=
  {| FetchParams.pageCursor := SyncState.lastCursor syncState;
     FetchParams.updatedAfter := Js.toISOString <$> SyncState.lastSyncAt syncState;
     FetchParams.location := None;
     FetchParams.category := None;
     FetchParams.withHtmlContent := None |}.

(** The world in which the step's fetch starts: a new client is in use. *)
Definition withNewClient (token : string) (w : World.t) : World.t :=
  World.set_client
    {| ReadwiseClient.token := token; ReadwiseClient.lastRequestTime := 0 |} w.

(** An action that leaves the database as it found it. *)
Definition netOnly {A} (m : M A) : Prop := forall w, sameStore w (m w).2.

(** The world in which a request leaves: after the wait of the rate limit
    and the update of [lastRequestTime]. *)
Definition afterPacing (w : World.t) : World.t :=
  let timeSinceLastRequest :=
    World.clock w - ReadwiseClient.lastRequestTime (World.client w) in
  let w1 :=
    if (timeSinceLastRequest <? minRequestInterval)%Z
    then (sleep RateLimit (Js.Finite (minRequestInterval - timeSinceLastRequest)) w).2
    else w in
  (set_lastRequestTime (World.clock w1) w1).2.

(** [hasMore] of a step that fetched [page]. *)
Definition pageHasMore (page : ReadwiseListResponse.t) : bool :=
  Js.truthy (ReadwiseListResponse.nextPageCursor page)
  && (0 <? length (ReadwiseListResponse.results page))%nat.

(** The row a step writes that started in [st] and applied [page]. *)
Definition appliedRow (st : SyncState.t) (page : ReadwiseListResponse.t)
    (total now : Z) : SyncState.t :=
  {| SyncState.totalSynced := total;
     SyncState.lastCursor := ReadwiseListResponse.nextPageCursor page;
     SyncState.status := if pageHasMore page then syncing else idle;
     SyncState.lastSyncAt :=
       if pageHasMore page then SyncState.lastSyncAt st else Some now;
     SyncState.errorMsg := None |}.

(** The row a step writes that started in [st] and caught [e], and what it
    returns. *)
Definition failedRow (st : SyncState.t) (e : Js.Exn) : SyncState.t :=
  {| SyncState.status := error;
     SyncState.errorMsg :=
       Some (Js.errorMessage e +:+ " (at cursor: "
             +:+ (if Js.truthy (Js.substring0 20 <$> SyncState.lastCursor st)
                  then default "" (Js.substring0 20 <$> SyncState.lastCursor st)
                  else "start") +:+ "...)");
     SyncState.lastCursor := SyncState.lastCursor st;
     SyncState.lastSyncAt := SyncState.lastSyncAt st;
     SyncState.totalSynced := SyncState.totalSynced st |}.

Definition failedProgress (st : SyncState.t) (e : Js.Exn) : SyncProgress.t :=
  progress p_error (SyncState.totalSynced st) 0 false (Some (Js.errorMessage e)).

(** The query of a list request: [updatedAfter] first, then [pageCursor],
    each only when it is a non-empty string. *)
Definition listQuery (updatedAfter pageCursor : option string)
  : list (string * string) :=
  ((if Js.truthy updatedAfter then [("updatedAfter", default "" updatedAfter)] else [])
   ++ (if Js.truthy pageCursor then [("pageCursor", default "" pageCursor)] else []))%list.

(** The request [archiveDocument(id)] makes. *)
Definition archiveRequest (id : string) : string * RequestInit.t :=
  (READWISE_API_BASE +:+ "/v3/update/" +:+ id +:+ "/",
   {| RequestInit.method := "PATCH"; RequestInit.body := Some archiveParams |}).





(** ** Sample data *)

Module Sample.

Definition doc (id : string) : ReadwiseDocument.t :=
  {| ReadwiseDocument.id := id;
     ReadwiseDocument.url := "https://example.org/" +:+ id;
     ReadwiseDocument.source_url := None;
     ReadwiseDocument.title := Some "A title";
     ReadwiseDocument.author := None;
     ReadwiseDocument.category := "article";
     ReadwiseDocument.location := "later";
     ReadwiseDocument.tags := TagsAbsent;
     ReadwiseDocument.site_name := None;
     ReadwiseDocument.word_count := Some 1200;
     ReadwiseDocument.summary := None;
     ReadwiseDocument.published_date := None;
     ReadwiseDocument.created_at := "2024-01-01T10:00:00Z";
     ReadwiseDocument.updated_at := "2024-01-02T10:00:00Z";
     ReadwiseDocument.first_opened_at := None;
     ReadwiseDocument.last_opened_at := None;
     ReadwiseDocument.last_moved_at := None;
     ReadwiseDocument.reading_progress := None;
     ReadwiseDocument.parent_id := None |}.

Definition tag (name : string) : Tag.t :=
  {| Tag.name := name; Tag.type := "manual"; Tag.created := 1700000000 |}.

(** A document that was opened once and carries [tags]. *)
Definition tagged (tags : Tags) : ReadwiseDocument.t :=
  {| ReadwiseDocument.id := "d1";
     ReadwiseDocument.url := "https://example.org/d1";
     ReadwiseDocument.source_url := None;
     ReadwiseDocument.title := None;
     ReadwiseDocument.author := None;
     ReadwiseDocument.category := "article";
     ReadwiseDocument.location := "new";
     ReadwiseDocument.tags := tags;
     ReadwiseDocument.site_name := None;
     ReadwiseDocument.word_count := None;
     ReadwiseDocument.summary := None;
     ReadwiseDocument.published_date := None;
     ReadwiseDocument.created_at := "2024-01-01T10:00:00Z";
     ReadwiseDocument.updated_at := "2024-01-02T10:00:00Z";
     ReadwiseDocument.first_opened_at := Some "2024-01-03T10:00:00Z";
     ReadwiseDocument.last_opened_at := None;
     ReadwiseDocument.last_moved_at := None;
     ReadwiseDocument.reading_progress := None;
     ReadwiseDocument.parent_id := None |}.

Definition respond (status : Z) (statusText : string)
    (retryAfter : option string) (body : Body) : Attempt.t :=
  {| Attempt.latency := 40%nat;
     Attempt.reply :=
       inr {| Response.status := status; Response.statusText := statusText;
              Response.retryAfter := retryAfter; Response.body := body |} |}.

Definition pageOf (cursor : option string) (docs : list ReadwiseDocument.t)
  : ReadwiseListResponse.t :=
  {| ReadwiseListResponse.count := Z.of_nat (length docs);
     ReadwiseListResponse.nextPageCursor := cursor;
     ReadwiseListResponse.results := docs |}.

Definition page (cursor : option string) (docs : list ReadwiseDocument.t)
  : Attempt.t :=
  respond 200 "OK" None (JsonPage (pageOf cursor docs)).

Definition state (status : Status) (cursor : option string)
    (lastSyncAt : option Z) (msg : option string) : SyncState.t :=
  {| SyncState.status := status;
     SyncState.lastCursor := cursor;
     SyncState.lastSyncAt := lastSyncAt;
     SyncState.totalSynced := 7;
     SyncState.errorMsg := msg |}.

(** A world with the token ["tok"], the sync row [st], an empty document
    table that rejects the documents [rejected], and [replies] to come. *)
Definition world (st : option SyncState.t) (replies : list Attempt.t)
    (rejected : list string) : World.t :=
  {| World.clock := 1700000100000;
     World.timerLag := [];
     World.upstream := replies;
     World.client :=
       {| ReadwiseClient.token := ""; ReadwiseClient.lastRequestTime := 0 |};
     World.settings := Some {| Settings.apiToken := Some "tok" |};
     World.syncState := st;
     World.documents := ∅;
     World.upsertFault := fun row =>
       if decide (Document.readwiseId row ∈ rejected)
       then Some (Js.ErrorObj "Invalid value for argument `createdAt`")
       else None;
     World.trace := [] |}.

(** The world [w] with the documents [ids] stored. *)
Definition withDocuments (ids : list string) (w : World.t) : World.t :=
  World.set_documents (upsertAll (map transformDocument (map doc ids)) ∅) w.


End Sample.

(** ** The statements of the specification that the code does not meet *)

(** Terminal detection as the specification words it: a step that applies a
    page ends idle, with [lastSyncAt] at the current time, when the page has
    a null cursor or no results, and stays syncing with [lastSyncAt]
    unchanged otherwise. *)
Definition terminalDetection_asStated : Prop :=
  forall w token st page w1,
    tokenConfigured w token ->
    World.syncState w = Some st -> SyncState.status st = syncing ->
    fetchDocuments (stepParams st) (withNewClient token w) = (Ret page, w1) ->
    (forall doc, doc ∈ ReadwiseListResponse.results page ->
       World.upsertFault w (transformDocument doc) = None) ->
    exists p w' st',
      syncNextBatch w = (Ret p, w') /\ World.syncState w' = Some st'
      /\ (ReadwiseListResponse.nextPageCursor page = None
           \/ ReadwiseListResponse.results page = [] ->
           SyncState.status st' = idle
           /\ SyncState.lastSyncAt st' = Some (World.clock w'))
      /\ (~ (ReadwiseListResponse.nextPageCursor page = None
              \/ ReadwiseListResponse.results page = []) ->
           SyncState.status st' = syncing
           /\ SyncState.lastSyncAt st' = SyncState.lastSyncAt st).

(** Retry in place as the specification words it: [clearError] takes a row
    in [error] to [syncing], clearing the message and keeping the cursor. *)
Definition retryInPlace_asStated : Prop :=
  forall w st,
    World.syncState w = Some st -> SyncState.status st = error ->
    exists w' st',
      clearError w = (Ret tt, w') /\ World.syncState w' = Some st'
      /\ SyncState.errorMsg st' = None
      /\ SyncState.lastCursor st' = SyncState.lastCursor st
      /\ SyncState.status st' = syncing.



(** The retry of a 429 as the specification words it: when the response
    carries a [Retry-After] header, the client waits the duration the header
    supplies, a number of milliseconds that is not negative, and makes the
    same call again. *)
Definition retryPolicy_asStated : Prop :=
  forall url options fuel retryCount w a rest response header,
    World.upstream w = a :: rest -> Attempt.reply a = inr response ->
    Response.status response = 429 ->
    Response.retryAfter response = Some header ->
    exists duration w3,
      0 <= duration
      /\ rateLimitedFetch_rec (S fuel) url options retryCount w
         = rateLimitedFetch_rec fuel url options retryCount w3
      /\ World.trace w3
         = Sleep Throttle429 (Js.Finite duration)
             :: Send (World.clock (afterPacing w)) url options
             :: World.trace (afterPacing w).

(** The scope of the lower bound as the specification words it: a step
    without a cursor requests with [updatedAfter] and no cursor; a step with
    a cursor requests with the cursor and without [updatedAfter]. *)
Definition lowerBoundScope_asStated : Prop :=
  forall w token st,
    tokenConfigured w token ->
    World.syncState w = Some st -> SyncState.status st = syncing ->
    World.trace w = [] ->
    forall url options,
      (url, options) ∈ sentRequests (World.trace (syncNextBatch w).2) ->
      match SyncState.lastCursor st with
      | None =>
          url = READWISE_API_BASE +:+ "/v3/list/?"
                +:+ Js.searchParamsToString
                      (listQuery (Js.toISOString <$> SyncState.lastSyncAt st) None)
      | Some cursor =>
          url = READWISE_API_BASE +:+ "/v3/list/?"
                +:+ Js.searchParamsToString (listQuery None (Some cursor))
      end.


(** * More of the code *)

(** ** More of the API client ([src/lib/readwise.ts]) *)

(** [validateToken()] *)
Definition validateToken : M bool :=
  try_catch
    (await response <- rateLimitedFetch (READWISE_API_BASE +:+ "/v2/auth/") GET ;
     ret (Response.status response =? 204)%Z)
    (fun _ => ret false).

Definition DELETE : RequestInit.t :=
  {| RequestInit.method := "DELETE"; RequestInit.body := None |}.

(** [deleteDocument(id)] *)
Definition deleteDocument (id : string) : M unit :=
  await response <-
    rateLimitedFetch (READWISE_API_BASE +:+ "/v3/delete/" +:+ id +:+ "/") DELETE ;
  if negb (Response.ok response) && negb (Response.status response =? 204)%Z then
    throw (Js.ErrorObj ("Failed to delete document: "
                        +:+ pretty (Response.status response) +:+ " "
                        +:+ Response.statusText response))
  else ret tt.

(** ** The token in the settings ([src/app/actions/settings.ts]) *)

(** [prisma.settings.upsert({ where, update, create })] *)
Definition prisma_settings_upsert (update : Settings.t -> Settings.t)
    (create : Settings.t) : M unit :=
  modify (fun w =>
    World.set_settings
      (Some match World.settings w with
            | Some row => update row
            | None => create
            end) w).

(** [prisma.settings.update({ where, data })]: rejects when there is no row. *)
Definition prisma_settings_update (data : Settings.t -> Settings.t) : M unit :=
  fun w =>
    match World.settings w with
    | Some row => (Ret tt, World.set_settings (Some (data row)) w)
    | None => (Throw (Js.ErrorObj "Record to update not found."), w)
    end.

(** The [{ success, error? }] objects the settings actions return. *)
Module ActionResult.
Record t : Type := {
  success : bool;
  error : option string
}.
End ActionResult.

Definition saveApiToken (token : string) : M ActionResult.t :=
  await_ createReadwiseClient token ;
  await isValid <- validateToken ;
  if negb isValid then
    ret {| ActionResult.success := false;
           ActionResult.error := Some "Invalid API token" |}
  else
    await_ prisma_settings_upsert
      (fun row => {| Settings.apiToken := Some token |})
      {| Settings.apiToken := Some token |} ;
    await_ revalidatePath "/settings" ;
    await_ revalidatePath "/" ;
    ret {| ActionResult.success := true; ActionResult.error := None |}.

Definition hasApiToken : M bool :=
  await settings <- prisma_settings_findUnique ;
  ret (Js.truthy (apiTokenOf settings)).

Definition deleteApiToken : M ActionResult.t :=
  await_ prisma_settings_update (fun row => {| Settings.apiToken := None |}) ;
  await_ revalidatePath "/settings" ;
  await_ revalidatePath "/" ;
  ret {| ActionResult.success := true; ActionResult.error := None |}.

(** [getSyncState()] of [sync.ts] *)
Definition getSyncState : M (option SyncState.t) := prisma_syncState_findUnique.

(** ** The scheduled sync (the cron route, [src/unnamed/part_008]) *)

(** The request, as far as the route reads it:
    [request.headers.get("authorization")]. *)
Module NextRequest.
Record t : Type := {
  authorization : option string
}.
End NextRequest.

(** The JSON bodies the route answers with. *)
Inductive CronBody : Type :=
  | CronError (error : string)
  | CronMessage (message : string)
  | CronSuccess (message : string) (total : Z).

(** [NextResponse.json(body, { status })] *)
Module NextResponse.
Record t : Type := {
  status : Z;
  body : CronBody
}.
End NextResponse.

(** The [create] object of the route's upsert: the same row as
    [transformDocument] builds. *)
Definition cronCreate (doc : ReadwiseDocument.t) : Document.t :=
  let tags :=
    match ReadwiseDocument.tags doc with
    | TagsAbsent => []
    | TagsArray tags => map Tag.name tags
    | TagsRecord tags => map Tag.name (Object_values tags)
    end in
  {| Document.readwiseId := ReadwiseDocument.id doc;
     Document.url := ReadwiseDocument.url doc;
     Document.sourceUrl := ReadwiseDocument.source_url doc;
     Document.title := ReadwiseDocument.title doc;
     Document.author := ReadwiseDocument.author doc;
     Document.summary := ReadwiseDocument.summary doc;
     Document.category := ReadwiseDocument.category doc;
     Document.location := ReadwiseDocument.location doc;
     Document.tags := tags;
     Document.siteName := ReadwiseDocument.site_name doc;
     Document.wordCount := ReadwiseDocument.word_count doc;
     Document.publishedDate := dateOrNull (ReadwiseDocument.published_date doc);
     Document.firstOpenedAt := dateOrNull (ReadwiseDocument.first_opened_at doc);
     Document.lastOpenedAt := dateOrNull (ReadwiseDocument.last_opened_at doc);
     Document.lastMovedAt := dateOrNull (ReadwiseDocument.last_moved_at doc);
     Document.readingProgress := default 0%Q (ReadwiseDocument.reading_progress doc);
     Document.parentId := ReadwiseDocument.parent_id doc;
     Document.createdAt := Js.DateOfString (ReadwiseDocument.created_at doc);
     Document.updatedAt := Js.DateOfString (ReadwiseDocument.updated_at doc) |}.

(** The [update] object of the route's upsert applied to the stored [row]: it
    names every column but [readwiseId] and [createdAt], which keep the
    values of the row. *)
Definition cronUpdate (doc : ReadwiseDocument.t) (row : Document.t) : Document.t :=
  let tags :=
    match ReadwiseDocument.tags doc with
    | TagsAbsent => []
    | TagsArray tags => map Tag.name tags
    | TagsRecord tags => map Tag.name (Object_values tags)
    end in
  {| Document.readwiseId := Document.readwiseId row;
     Document.url := ReadwiseDocument.url doc;
     Document.sourceUrl := ReadwiseDocument.source_url doc;
     Document.title := ReadwiseDocument.title doc;
     Document.author := ReadwiseDocument.author doc;
     Document.summary := ReadwiseDocument.summary doc;
     Document.category := ReadwiseDocument.category doc;
     Document.location := ReadwiseDocument.location doc;
     Document.tags := tags;
     Document.siteName := ReadwiseDocument.site_name doc;
     Document.wordCount := ReadwiseDocument.word_count doc;
     Document.publishedDate := dateOrNull (ReadwiseDocument.published_date doc);
     Document.firstOpenedAt := dateOrNull (ReadwiseDocument.first_opened_at doc);
     Document.lastOpenedAt := dateOrNull (ReadwiseDocument.last_opened_at doc);
     Document.lastMovedAt := dateOrNull (ReadwiseDocument.last_moved_at doc);
     Document.readingProgress := default 0%Q (ReadwiseDocument.reading_progress doc);
     Document.parentId := ReadwiseDocument.parent_id doc;
     Document.createdAt := Document.createdAt row;
     Document.updatedAt := Js.DateOfString (ReadwiseDocument.updated_at doc) |}.

(** [prisma.document.upsert({ where: { readwiseId }, update, create })] with
    an [update] that differs from the [create]: the row stored under
    [readwiseId] is updated, or the new row is created, unless the store
    rejects the data. *)
Definition prisma_document_upsert_where (readwiseId : string)
    (update : Document.t -> Document.t) (create : Document.t) : M unit :=
  fun w =>
    match World.upsertFault w create with
    | Some e => (Throw e, w)
    | None =>
        (Ret tt,
         World.set_documents
           (<[readwiseId := match World.documents w !! readwiseId with
                            | Some row => update row
                            | None => create
                            end]> (World.documents w)) w)
    end.

(** The [do ... while (cursor)] loop of the route.  Every turn consumes a
    reply of the upstream, which [fuel] counts. *)
Fixpoint cron_loop (fuel : nat) (updatedAfter : option string)
    (cursor : option string) (totalSynced : Z) : M Z :=
  match fuel with
  | O => fun w => (Pending, w)
  | S fuel =>
      await response <- fetchDocuments
        {| FetchParams.pageCursor := cursor;
           FetchParams.updatedAfter := updatedAfter;
           FetchParams.location := None;
           FetchParams.category := None;
           FetchParams.withHtmlContent := None |} ;
      await_ for_of (ReadwiseListResponse.results response)
        (fun doc =>
           prisma_document_upsert_where (ReadwiseDocument.id doc)
             (cronUpdate doc) (cronCreate doc)) ;
      let totalSynced :=
        totalSynced + Z.of_nat (length (ReadwiseListResponse.results response)) in
      let cursor := ReadwiseListResponse.nextPageCursor response in
      if Js.truthy cursor
      then cron_loop fuel updatedAfter cursor totalSynced
      else ret totalSynced
  end.

(** The route handler [GET(request)], [CRON_SECRET] being
    [process.env.CRON_SECRET].  A row the upsert creates has the total 0. *)
Definition cron_GET (CRON_SECRET : option string) (request : NextRequest.t)
  : M NextResponse.t :=
  let authHeader := NextRequest.authorization request in
  if Js.truthy CRON_SECRET
     && negb (bool_decide (authHeader = Some ("Bearer " +:+ default "" CRON_SECRET)))
  then ret {| NextResponse.status := 401;
              NextResponse.body := CronError "Unauthorized" |}
  else
    try_catch
      (await settings <- prisma_settings_findUnique ;
       if negb (Js.truthy (apiTokenOf settings)) then
         ret {| NextResponse.status := 400;
                NextResponse.body := CronError "No API token configured" |}
       else
         await syncState <- prisma_syncState_findUnique ;
         match syncState with
         | Some {| SyncState.status := syncing |} =>
             ret {| NextResponse.status := 200;
                    NextResponse.body := CronMessage "Sync already in progress" |}
         | _ =>
             await_ createReadwiseClient (default "" (apiTokenOf settings)) ;
             await_ prisma_syncState_upsert
               (fun row =>
                  {| SyncState.status := syncing;
                     SyncState.errorMsg := None;
                     SyncState.lastCursor := SyncState.lastCursor row;
                     SyncState.lastSyncAt := SyncState.lastSyncAt row;
                     SyncState.totalSynced := SyncState.totalSynced row |})
               {| SyncState.status := syncing;
                  SyncState.totalSynced := 0;
                  SyncState.lastCursor := None;
                  SyncState.lastSyncAt := None;
                  SyncState.errorMsg := None |} ;
             try_catch
               (await totalSynced <-
                  (fun w =>
                     cron_loop (S (length (World.upstream w)))
                       (Js.toISOString <$> (syncState ≫= SyncState.lastSyncAt))
                       None 0 w) ;
                await currentTotal <- prisma_document_count ;
                await now <- Date_now ;
                await_ prisma_syncState_update
                  (fun row =>
                     {| SyncState.status := idle;
                        SyncState.lastSyncAt := Some now;
                        SyncState.totalSynced := currentTotal;
                        SyncState.lastCursor := None;
                        SyncState.errorMsg := None |}) ;
                ret {| NextResponse.status := 200;
                       NextResponse.body :=
                         CronSuccess ("Synced " +:+ pretty totalSynced +:+ " documents")
                           currentTotal |})
               (fun thrown =>
                  let errorMsg := Js.errorMessage thrown in
                  await_ prisma_syncState_update
                    (fun row =>
                       {| SyncState.status := error;
                          SyncState.errorMsg := Some errorMsg;
                          SyncState.lastCursor := SyncState.lastCursor row;
                          SyncState.lastSyncAt := SyncState.lastSyncAt row;
                          SyncState.totalSynced := SyncState.totalSynced row |}) ;
                  throw thrown)
         end)
      (fun thrown =>
         ret {| NextResponse.status := 500;
                NextResponse.body :=
                  CronError (match thrown with
                             | Js.ErrorObj message => message
                             | Js.OtherThrown => "Sync failed"
                             end) |}).

(** [POST(request)] *)
Definition cron_POST (CRON_SECRET : option string) (request : NextRequest.t)
  : M NextResponse.t :=
  cron_GET CRON_SECRET request.

(** ** Archiving a source ([archiveDocumentsFromSource] of [triage.ts]) *)

(** [prisma.document.findMany({ where })], with no [orderBy]: the rows come in
    the order of the table. *)
Definition prisma_document_findMany (where_ : Document.t -> bool)
  : M (list Document.t) :=
  gets (fun w => filter (fun row => where_ row = true)
                   (snd <$> map_to_list (World.documents w))).

(** [where: { siteName, location: { in: ["new", "later", "shortlist"] } }] *)
Definition fromSource (siteName : string) (row : Document.t) : bool :=
  bool_decide (Document.siteName row = Some siteName)
  && bool_decide (Document.location row ∈ ["new"; "later"; "shortlist"]).

Definition archiveDocumentsFromSource (siteName : string) : M ArchiveResult.t :=
  await documents <- prisma_document_findMany (fromSource siteName) ;
  if (length documents =? 0)%nat then
    ret {| ArchiveResult.success := 0; ArchiveResult.failed := 0;
           ArchiveResult.errors := [] |}
  else
    let readwiseIds := map Document.readwiseId documents in
    archiveDocuments readwiseIds.

(** ** Vocabulary of the further properties *)

(** A step would run in [w]: a token is configured and the row is syncing. *)
Definition running (w : World.t) : Prop :=
  exists token st,
    tokenConfigured w token
    /\ World.syncState w = Some st /\ SyncState.status st = syncing.

(** Every row is stored under its own [readwiseId]. *)
Definition storeKeyed (store : gmap string Document.t) : Prop :=
  forall key row, store !! key = Some row -> Document.readwiseId row = key.

(** The URL of the list endpoint with a lower bound and a cursor. *)
Definition listUrlOf (updatedAfter pageCursor : option string) : string :=
  READWISE_API_BASE +:+ "/v3/list/?"
  +:+ Js.searchParamsToString (listQuery updatedAfter pageCursor).

(** The table after the route's upserts of [docs], in order. *)
Definition cronUpsertAll (docs : list ReadwiseDocument.t)
    (store : gmap string Document.t) : gmap string Document.t :=
  foldl (fun m doc =>
           <[ReadwiseDocument.id doc :=
               match m !! ReadwiseDocument.id doc with
               | Some row => cronUpdate doc row
               | None => cronCreate doc
               end]> m) store docs.

(** The number of 429s among the replies to come. *)
Definition count429 (replies : list Attempt.t) : nat :=
  length (filter (fun a => replyStatus a = Some 429) replies).

(** The body of the route's loop over a page. *)
Definition cronUpsert (doc : ReadwiseDocument.t) : M unit :=
  prisma_document_upsert_where (ReadwiseDocument.id doc)
    (cronUpdate doc) (cronCreate doc).

(** The request passes the route's check of the secret. *)
Definition authorized (CRON_SECRET : option string) (request : NextRequest.t)
  : bool :=
  negb (Js.truthy CRON_SECRET
        && negb (bool_decide (NextRequest.authorization request
                              = Some ("Bearer " +:+ default "" CRON_SECRET)))).

(** The sync row after the route's upsert. *)
Definition cronSyncing (syncState : option SyncState.t) : SyncState.t :=
  match syncState with
  | Some row =>
      {| SyncState.status := syncing;
         SyncState.errorMsg := None;
         SyncState.lastCursor := SyncState.lastCursor row;
         SyncState.lastSyncAt := SyncState.lastSyncAt row;
         SyncState.totalSynced := SyncState.totalSynced row |}
  | None =>
      {| SyncState.status := syncing;
         SyncState.totalSynced := 0;
         SyncState.lastCursor := None;
         SyncState.lastSyncAt := None;
         SyncState.errorMsg := None |}
  end.

(** The world in which the route's loop starts, and the lower bound of its
    requests. *)
Definition cronStart (token : string) (w : World.t) : World.t :=
  World.set_syncState (Some (cronSyncing (World.syncState w)))
    (withNewClient token w).

Definition cronSince (w : World.t) : option string :=
  Js.toISOString <$> (World.syncState w ≫= SyncState.lastSyncAt).

(** A list request with the lower bound [updatedAfter]. *)
Definition listRequestSince (updatedAfter : option string)
    (req : string * RequestInit.t) : Prop :=
  exists cursor, req = (listUrlOf updatedAfter cursor, GET).

(** A request that archives one of [ids] upstream. *)
Definition archiveRequestOf (ids : list string) (req : string * RequestInit.t)
  : Prop :=
  exists id, id ∈ ids /\ req = archiveRequest id.

(** The IDs [archiveDocumentsFromSource] collects. *)
Definition sourceIds (siteName : string) (w : World.t) : list string :=
  map Document.readwiseId
    (filter (fun row => fromSource siteName row = true)
       (snd <$> map_to_list (World.documents w))).

(** A document of the site [siteName], in the location "later". *)
Definition fromSite (siteName id : string) : ReadwiseDocument.t :=
  {| ReadwiseDocument.id := id;
     ReadwiseDocument.url := "https://example.org/" +:+ id;
     ReadwiseDocument.source_url := None;
     ReadwiseDocument.title := None;
     ReadwiseDocument.author := None;
     ReadwiseDocument.category := "article";
     ReadwiseDocument.location := "later";
     ReadwiseDocument.tags := TagsAbsent;
     ReadwiseDocument.site_name := Some siteName;
     ReadwiseDocument.word_count := None;
     ReadwiseDocument.summary := None;
     ReadwiseDocument.published_date := None;
     ReadwiseDocument.created_at := "2024-01-01T10:00:00Z";
     ReadwiseDocument.updated_at := "2024-01-02T10:00:00Z";
     ReadwiseDocument.first_opened_at := None;
     ReadwiseDocument.last_opened_at := None;
     ReadwiseDocument.last_moved_at := None;
     ReadwiseDocument.reading_progress := None;
     ReadwiseDocument.parent_id := None |}.

(** * Properties *)

(** ** The runtime functions on examples *)

Example toISOString_epoch : Js.toISOString 0 = "1970-01-01T00:00:00.000Z".
Proof. vm_compute. reflexivity. Qed.

Example toISOString_2023 :
  Js.toISOString 1700000000123 = "2023-11-14T22:13:20.123Z".
Proof. vm_compute. reflexivity. Qed.

Example parseInt_examples :
  Js.parseInt "120" = Js.Finite 120 /\ Js.parseInt " 7s" = Js.Finite 7
  /\ Js.parseInt "Wed, 21 Oct 2015 07:28:00 GMT" = Js.NaN
  /\ Js.parseInt "0x1f" = Js.Finite 31
  /\ Js.parseInt "-3" = Js.Finite (-3) /\ Js.parseInt "" = Js.NaN
  /\ Js.parseInt "1.5" = Js.Finite 1.
Proof. vm_compute. repeat split; reflexivity. Qed.

(** Beyond 2^53 numbers are rounded, and from 2^1024 on they are infinite. *)
Example parseInt_rounds :
  Js.parseInt "9007199254740993" = Js.Finite 9007199254740992
  /\ Js.parseInt "9007199254740995" = Js.Finite 9007199254740996
  /\ Js.mul (Js.parseInt "9007199254740994") 1000 = Js.Finite 9007199254740994048
  /\ Js.parseInt ("1" +:+ Js.zeros 400) = Js.Infinity false
  /\ Js.mul (Js.parseInt ("-1" +:+ Js.zeros 400)) 1000 = Js.Infinity true.
Proof. vm_compute. repeat split; reflexivity. Qed.

(** What [setTimeout] makes of a delay. *)
Example timeoutDelay_examples :
  Js.timeoutDelay (Js.Finite 2000) = 2000 /\ Js.timeoutDelay Js.NaN = 1
  /\ Js.timeoutDelay (Js.Finite 0) = 1 /\ Js.timeoutDelay (Js.Finite (-5000)) = 1
  /\ Js.timeoutDelay (Js.Finite 2147483647) = 2147483647
  /\ Js.timeoutDelay (Js.Finite 2147484000) = 1
  /\ Js.timeoutDelay (Js.Infinity false) = 1.
Proof. vm_compute. repeat split; reflexivity. Qed.

Example urlencode_iso :
  Js.searchParamsToString
    [("updatedAfter", "2023-11-14T22:13:20.123Z"); ("pageCursor", "a b/c")]
  = "updatedAfter=2023-11-14T22%3A13%3A20.123Z&pageCursor=a+b%2Fc".
Proof. vm_compute. reflexivity. Qed.

(** ** Reasoning about actions *)

Lemma sameStore_refl w : sameStore w w.
Proof. by repeat split. Qed.

Lemma sameStore_trans w1 w2 w3 :
  sameStore w1 w2 -> sameStore w2 w3 -> sameStore w1 w3.
Proof.
  intros (?&?&?&?) (?&?&?&?). repeat split; congruence.
Qed.

Lemma netOnly_ret {A} (a : A) : netOnly (ret a).
Proof. intros w. apply sameStore_refl. Qed.

Lemma netOnly_throw {A} e : netOnly (@throw A e).
Proof. intros w. apply sameStore_refl. Qed.

Lemma netOnly_gets {A} (f : World.t -> A) : netOnly (gets f).
Proof. intros w. apply sameStore_refl. Qed.

Lemma netOnly_bind {A B} (m : M A) (k : A -> M B) :
  netOnly m -> (forall a, netOnly (k a)) -> netOnly (bind m k).
Proof.
  intros Hm Hk w. unfold bind. specialize (Hm w).
  destruct (m w) as [[a|e|] w1]; simpl in *; try done.
  eapply sameStore_trans; [exact Hm | apply Hk].
Qed.

Lemma netOnly_try_catch {A} (m : M A) (h : Js.Exn -> M A) :
  netOnly m -> (forall e, netOnly (h e)) -> netOnly (try_catch m h).
Proof.
  intros Hm Hh w. unfold try_catch. specialize (Hm w).
  destruct (m w) as [[a|e|] w1]; simpl in *; try done.
  eapply sameStore_trans; [exact Hm | apply Hh].
Qed.

Lemma netOnly_sleep site ms : netOnly (sleep site ms).
Proof. intros w. by repeat split. Qed.

Lemma netOnly_set_lastRequestTime v : netOnly (set_lastRequestTime v).
Proof. intros w. by repeat split. Qed.

Lemma netOnly_createReadwiseClient token : netOnly (createReadwiseClient token).
Proof. intros w. by repeat split. Qed.

Lemma netOnly_fetch url options : netOnly (fetch url options).
Proof.
  intros w. unfold fetch.
  destruct (World.upstream w) as [|a rest]; [by repeat split|].
  destruct (Attempt.reply a); by repeat split.
Qed.

Create HintDb net discriminated.
#[local] Hint Resolve netOnly_ret netOnly_throw netOnly_gets netOnly_sleep
  netOnly_set_lastRequestTime netOnly_fetch netOnly_createReadwiseClient : net.

Ltac net_step :=
  first [ apply netOnly_bind; [|intros ?]
        | apply netOnly_try_catch; [|intros ?]
        | progress auto with net
        | match goal with |- netOnly (if ?b then _ else _) => destruct b end
        | match goal with |- netOnly (match ?x with _ => _ end) => destruct x end ].

Lemma netOnly_rateLimitedFetch_rec fuel url options retryCount :
  netOnly (rateLimitedFetch_rec fuel url options retryCount).
Proof.
  revert retryCount. induction fuel as [|fuel IH]; intros retryCount.
  - intros w. apply sameStore_refl.
  - cbn [rateLimitedFetch_rec]. unfold Date_now, this_lastRequestTime.
    repeat net_step; apply IH.
Qed.

Lemma netOnly_rateLimitedFetch url options : netOnly (rateLimitedFetch url options).
Proof. intros w. apply netOnly_rateLimitedFetch_rec. Qed.

#[local] Hint Resolve netOnly_rateLimitedFetch : net.

Lemma netOnly_fetchDocuments params : netOnly (fetchDocuments params).
Proof. unfold fetchDocuments. repeat net_step. Qed.

Lemma netOnly_updateDocument id params : netOnly (updateDocument id params).
Proof. unfold updateDocument. repeat net_step. Qed.

#[local] Hint Resolve netOnly_fetchDocuments netOnly_updateDocument : net.

Lemma netOnly_batchArchive_loop ids i total success failed :
  netOnly (batchArchive_loop ids i total None success failed).
Proof.
  revert i success failed.
  induction ids as [|id rest IH]; intros i success failed; cbn [batchArchive_loop].
  - auto with net.
  - unfold archiveDocument. repeat net_step; apply IH.
Qed.

(** ** The upserts of a page *)

Lemma for_of_upsert_ok docs w :
  (forall doc, doc ∈ docs -> World.upsertFault w doc = None) ->
  for_of docs prisma_document_upsert w
  = (Ret tt, World.set_documents (upsertAll docs (World.documents w)) w).
Proof.
  revert w. induction docs as [|doc rest IH]; intros w Hok.
  - by destruct w.
  - cbn [for_of]. unfold bind at 1, prisma_document_upsert at 1.
    rewrite Hok by set_solver.
    rewrite IH by (intros d Hd; apply Hok; set_solver).
    reflexivity.
Qed.

Lemma for_of_upsert_throws pre doc post e w :
  (forall d, d ∈ pre -> World.upsertFault w d = None) ->
  World.upsertFault w doc = Some e ->
  for_of (pre ++ doc :: post) prisma_document_upsert w
  = (Throw e, World.set_documents (upsertAll pre (World.documents w)) w).
Proof.
  revert w. induction pre as [|d pre IH]; intros w Hok He.
  - cbn. unfold bind, prisma_document_upsert. rewrite He. by destruct w.
  - cbn [app for_of]. unfold bind at 1, prisma_document_upsert at 1.
    rewrite Hok by set_solver.
    rewrite IH; [reflexivity| |exact He].
    intros d' Hd'. apply Hok. set_solver.
Qed.

(** The first document of a page that the store rejects, if there is one. *)
Lemma first_fault (fault : Document.t -> option Js.Exn) docs :
  (forall doc, doc ∈ docs -> fault doc = None)
  \/ exists pre doc post e,
       docs = (pre ++ doc :: post)%list
       /\ (forall d, d ∈ pre -> fault d = None) /\ fault doc = Some e.
Proof.
  induction docs as [|doc rest IH].
  - left. set_solver.
  - destruct (fault doc) as [e|] eqn:Hdoc.
    + right. exists [], doc, rest, e. split; [done|]. split; [set_solver|done].
    + destruct IH as [IH|(pre & d & post & e & -> & Hpre & Hd)].
      * left. intros d Hd. set_unfold. destruct Hd as [->|Hd]; auto.
      * right. exists (doc :: pre), d, post, e. split; [done|].
        split; [|done]. intros d' Hd'. set_unfold. destruct Hd' as [->|Hd']; auto.
Qed.

(** ** One step of the sync, case by case *)

Lemma syncNextBatch_no_token w :
  Js.truthy (apiTokenOf (World.settings w)) = false ->
  syncNextBatch w
  = (Ret (progress p_error 0 0 false (Some "No API token configured")), w).
Proof.
  intros H. unfold syncNextBatch, bind, prisma_settings_findUnique, gets.
  by rewrite H.
Qed.

Lemma syncNextBatch_not_syncing w :
  Js.truthy (apiTokenOf (World.settings w)) = true ->
  (forall st, World.syncState w = Some st -> SyncState.status st <> syncing) ->
  syncNextBatch w
  = (Ret (progress p_idle
            (default 0 (SyncState.totalSynced <$> World.syncState w)) 0 false None),
     w).
Proof.
  intros H Hst.
  unfold syncNextBatch, bind, prisma_settings_findUnique,
    prisma_syncState_findUnique, gets.
  rewrite H. cbn [negb].
  destruct (World.syncState w) as [[[] ? ? ? ?]|] eqn:Hw; try reflexivity.
  by destruct (Hst _ eq_refl).
Qed.

Section Step.
Variables (w : World.t) (token : string) (st : SyncState.t).
Hypothesis Htoken : tokenConfigured w token.
Hypothesis Hstate : World.syncState w = Some st.
Hypothesis Hsyncing : SyncState.status st = syncing.

Lemma syncNextBatch_running :
  syncNextBatch w
  = try_catch (syncNextBatch_try token st) (syncNextBatch_catch st) w.
Proof.
  destruct Htoken as [Htok Hne].
  unfold syncNextBatch, bind at 1, prisma_settings_findUnique, gets at 1.
  rewrite Htok. destruct token as [|c rest]; [done|]. cbn [Js.truthy negb].
  unfold bind at 1, prisma_syncState_findUnique, gets at 1.
  rewrite Hstate. destruct st as [status ? ? ? ?]. simpl in Hsyncing.
  subst status. reflexivity.
Qed.

Lemma syncNextBatch_catch_run e w1 :
  World.syncState w1 = Some st ->
  syncNextBatch_catch st e w1
  = (Ret (failedProgress st e), World.set_syncState (Some (failedRow st e)) w1).
Proof.
  intros H1. unfold syncNextBatch_catch, bind, prisma_syncState_update.
  rewrite H1. reflexivity.
Qed.

Lemma step_pending w1 :
  fetchDocuments (stepParams st) (withNewClient token w) = (Pending, w1) ->
  syncNextBatch w = (Pending, w1).
Proof.
  intros Hf. rewrite syncNextBatch_running.
  unfold try_catch, syncNextBatch_try, bind at 1, createReadwiseClient, modify.
  unfold bind at 1.
  change (fetchDocuments _ _) with
    (fetchDocuments (stepParams st) (withNewClient token w)).
  by rewrite Hf.
Qed.

Lemma step_fetch_throws e w1 :
  fetchDocuments (stepParams st) (withNewClient token w) = (Throw e, w1) ->
  syncNextBatch w
  = (Ret (failedProgress st e), World.set_syncState (Some (failedRow st e)) w1).
Proof.
  intros Hf. rewrite syncNextBatch_running.
  pose proof (netOnly_fetchDocuments (stepParams st) (withNewClient token w))
    as (_ & Hs & _). rewrite Hf in Hs. simpl in Hs.
  unfold try_catch, syncNextBatch_try, bind at 1, createReadwiseClient, modify.
  unfold bind at 1.
  change (fetchDocuments _ _) with
    (fetchDocuments (stepParams st) (withNewClient token w)).
  rewrite Hf. apply syncNextBatch_catch_run. by rewrite Hs.
Qed.

Lemma step_upsert_throws page w1 pre doc post e :
  fetchDocuments (stepParams st) (withNewClient token w) = (Ret page, w1) ->
  map transformDocument (ReadwiseListResponse.results page)
    = (pre ++ doc :: post)%list ->
  (forall d, d ∈ pre -> World.upsertFault w d = None) ->
  World.upsertFault w doc = Some e ->
  syncNextBatch w
  = (Ret (failedProgress st e),
     World.set_syncState (Some (failedRow st e))
       (World.set_documents (upsertAll pre (World.documents w)) w1)).
Proof.
  intros Hf Hdocs Hpre Hdoc. rewrite syncNextBatch_running.
  pose proof (netOnly_fetchDocuments (stepParams st) (withNewClient token w))
    as (_ & Hs & Hd & Hu). rewrite Hf in Hs, Hd, Hu. simpl in Hs, Hd, Hu.
  unfold try_catch, syncNextBatch_try, bind at 1, createReadwiseClient, modify.
  unfold bind at 1.
  change (fetchDocuments _ _) with
    (fetchDocuments (stepParams st) (withNewClient token w)).
  rewrite Hf. unfold bind at 1. rewrite Hdocs.
  rewrite (for_of_upsert_throws pre doc post e w1)
    by (rewrite Hu; auto).
  rewrite Hd. apply syncNextBatch_catch_run. simpl. by rewrite Hs.
Qed.

Lemma step_applies page w1 :
  fetchDocuments (stepParams st) (withNewClient token w) = (Ret page, w1) ->
  (forall doc, doc ∈ ReadwiseListResponse.results page ->
     World.upsertFault w (transformDocument doc) = None) ->
  let docs := map transformDocument (ReadwiseListResponse.results page) in
  let store := upsertAll docs (World.documents w) in
  syncNextBatch w
  = (Ret (progress (if pageHasMore page then p_syncing else p_completed)
            (Z.of_nat (size store))
            (Z.of_nat (length (ReadwiseListResponse.results page)))
            (pageHasMore page) None),
     World.set_syncState
       (Some (appliedRow st page (Z.of_nat (size store)) (World.clock w1)))
       (World.set_documents store w1)).
Proof.
  intros Hf Hok docs store. subst store docs. rewrite syncNextBatch_running.
  pose proof (netOnly_fetchDocuments (stepParams st) (withNewClient token w))
    as (_ & Hs & Hd & Hu). rewrite Hf in Hs, Hd, Hu. simpl in Hs, Hd, Hu.
  unfold try_catch, syncNextBatch_try, bind at 1, createReadwiseClient, modify.
  unfold bind at 1.
  change (fetchDocuments _ _) with
    (fetchDocuments (stepParams st) (withNewClient token w)).
  rewrite Hf. unfold bind at 1.
  rewrite for_of_upsert_ok; cycle 1.
  { intros d Hd'. rewrite Hu.
    apply list_elem_of_fmap in Hd' as (d0 & -> & Hd0). by apply Hok. }
  rewrite Hd.
  unfold bind, prisma_document_count, Date_now, gets, prisma_syncState_update,
    revalidatePath, ret.
  cbn [World.syncState World.set_documents World.documents World.clock].
  rewrite Hs, Hstate. unfold pageHasMore, appliedRow, pageHasMore.
  rewrite length_map. reflexivity.
Qed.
End Step.

(** ** Strings *)

Lemma substring0_prefix n s : String.prefix (Js.substring0 n s) s = true.
Proof.
  unfold Js.substring0. revert s.
  induction n as [|n IH]; intros [|c s]; cbn; try done.
  destruct (Ascii.ascii_dec c c); [apply IH | done].
Qed.

Lemma substring0_length n s :
  String.length (Js.substring0 n s) = Nat.min n (String.length s).
Proof.
  unfold Js.substring0. revert s.
  induction n as [|n IH]; intros [|c s]; cbn; try done.
  by rewrite IH.
Qed.

Lemma occursIn_middle a s b : occursIn s (a +:+ s +:+ b).
Proof. by exists a, b. Qed.

Lemma append_assoc (a b c : string) : (a +:+ b) +:+ c = a +:+ (b +:+ c).
Proof.
  induction a as [|x a IH]; [done|].
  change (String x (a +:+ b) +:+ c = String x (a +:+ b +:+ c)).
  change (String x ((a +:+ b) +:+ c) = String x (a +:+ b +:+ c)).
  by rewrite IH.
Qed.

(** What the [catch] block shows of the cursor [c]: its first 20 characters. *)
Lemma failedRow_message st e c :
  SyncState.lastCursor st = Some c ->
  exists msg,
    SyncState.errorMsg (failedRow st e) = Some msg
    /\ occursIn (Js.substring0 20 c) msg.
Proof.
  intros Hc. unfold failedRow. cbn [SyncState.errorMsg]. rewrite Hc.
  eexists. split; [reflexivity|]. cbn [fmap option_fmap option_map].
  destruct (Js.substring0 20 c) as [|x rest] eqn:Hsub.
  - exists "", (Js.errorMessage e +:+ " (at cursor: start...)"). reflexivity.
  - cbn [Js.truthy default from_option id].
    rewrite <- append_assoc. apply occursIn_middle.
Qed.

(** ** The sync state machine *)

Lemma sample_token st replies rejected :
  tokenConfigured (Sample.world st replies rejected) "tok".
Proof. split; [reflexivity | discriminate]. Qed.

Lemma sample_token_withDocuments ids w token :
  tokenConfigured w token -> tokenConfigured (Sample.withDocuments ids w) token.
Proof. intros H. exact H. Qed.

(** C1, as amended.  A step that fetches a page and upserts its documents
    ends idle, with [lastSyncAt] set to the current time, when the page's
    [nextPageCursor] is null or the empty string or the page has no results;
    otherwise the row stays syncing and [lastSyncAt] keeps its value. *)
Theorem terminal_detection w token st page w1 :
  tokenConfigured w token ->
  World.syncState w = Some st -> SyncState.status st = syncing ->
  fetchDocuments (stepParams st) (withNewClient token w) = (Ret page, w1) ->
  (forall doc, doc ∈ ReadwiseListResponse.results page ->
     World.upsertFault w (transformDocument doc) = None) ->
  exists p w' st',
    syncNextBatch w = (Ret p, w') /\ World.syncState w' = Some st'
    /\ (ReadwiseListResponse.nextPageCursor page = None
        \/ ReadwiseListResponse.nextPageCursor page = Some ""
        \/ ReadwiseListResponse.results page = [] ->
        SyncState.status st' = idle
        /\ SyncState.lastSyncAt st' = Some (World.clock w')
        /\ SyncProgress.status p = p_completed
        /\ SyncProgress.hasMore p = false)
    /\ (~ (ReadwiseListResponse.nextPageCursor page = None
           \/ ReadwiseListResponse.nextPageCursor page = Some ""
           \/ ReadwiseListResponse.results page = []) ->
        SyncState.status st' = syncing
        /\ SyncState.lastSyncAt st' = SyncState.lastSyncAt st
        /\ SyncProgress.status p = p_syncing
        /\ SyncProgress.hasMore p = true).
Proof.
  intros Htoken Hstate Hsyncing Hfetch Hok.
  rewrite (step_applies w token st Htoken Hstate Hsyncing page w1 Hfetch Hok).
  eexists _, _, _. split; [reflexivity|]. split; [reflexivity|].
  cbn [appliedRow SyncState.status SyncState.lastSyncAt progress
       SyncProgress.status SyncProgress.hasMore World.clock
       World.set_syncState World.set_documents].
  unfold pageHasMore.
  destruct (ReadwiseListResponse.nextPageCursor page) as [[|c cursor]|];
    destruct (ReadwiseListResponse.results page) as [|doc docs];
    cbn [Js.truthy andb length Nat.ltb Nat.leb]; split; intros H; try done;
    try (exfalso; apply H; auto; fail).
  all: destruct H as [H|[H|H]]; discriminate H.
Qed.

Lemma terminal_detection_witness :
  exists p w' st',
    syncNextBatch
      (Sample.world (Some (Sample.state syncing (Some "page-2") None None))
         [Sample.page (Some "page-3") []] []) = (Ret p, w')
    /\ World.syncState w' = Some st'
    /\ SyncState.status st' = idle
    /\ SyncState.lastSyncAt st' = Some (World.clock w').
Proof.
  edestruct (terminal_detection
    (Sample.world (Some (Sample.state syncing (Some "page-2") None None))
       [Sample.page (Some "page-3") []] [])
    "tok" (Sample.state syncing (Some "page-2") None None)
    (Sample.pageOf (Some "page-3") []))
    as (p & w' & st' & Hrun & Hrow & Hterminal & _).
  - split; [reflexivity | discriminate].
  - reflexivity.
  - reflexivity.
  - vm_compute. reflexivity.
  - intros doc Hdoc. inversion Hdoc.
  - exists p, w', st'. split; [exact Hrun|]. split; [exact Hrow|].
    destruct Hterminal as (Hidle & Hat & _); [right; right; reflexivity|].
    split; assumption.
Defined.

(** C1, the counterexample: a page of one document whose cursor is the empty
    string, which is not null, ends the sync. *)
Lemma terminal_detection_counterexample : ~ terminalDetection_asStated.
Proof.
  intros Hclaim.
  edestruct (Hclaim
    (Sample.world (Some (Sample.state syncing None None None))
       [Sample.page (Some "") [Sample.doc "d1"]] [])
    "tok" (Sample.state syncing None None None)
    (Sample.pageOf (Some "") [Sample.doc "d1"]))
    as (p & w' & st' & Hrun & Hrow & _ & Hstays).
  - split; [reflexivity | discriminate].
  - reflexivity.
  - reflexivity.
  - vm_compute. reflexivity.
  - intros doc Hdoc. vm_compute. reflexivity.
  - destruct Hstays as [Hstatus _].
    { intros [H|H]; discriminate H. }
    vm_compute in Hrun. injection Hrun as _ <-.
    vm_compute in Hrow. injection Hrow as <-. discriminate Hstatus.
Qed.

(** C2.  A step that starts syncing and whose fetch raises, or whose upsert
    of a fetched document raises, returns an error progress and leaves the
    row in [error], with the cursor it started with and a message that
    contains the first 20 characters of that cursor. *)
Theorem error_atomicity w token st :
  tokenConfigured w token ->
  World.syncState w = Some st -> SyncState.status st = syncing ->
  (exists e w1,
     fetchDocuments (stepParams st) (withNewClient token w) = (Throw e, w1))
  \/ (exists page w1 doc,
        fetchDocuments (stepParams st) (withNewClient token w) = (Ret page, w1)
        /\ doc ∈ ReadwiseListResponse.results page
        /\ World.upsertFault w (transformDocument doc) <> None) ->
  exists p w' st' msg,
    syncNextBatch w = (Ret p, w')
    /\ SyncProgress.status p = p_error
    /\ World.syncState w' = Some st'
    /\ SyncState.status st' = error
    /\ SyncState.lastCursor st' = SyncState.lastCursor st
    /\ SyncState.errorMsg st' = Some msg
    /\ forall cursor, SyncState.lastCursor st = Some cursor ->
         occursIn (Js.substring0 20 cursor) msg
         /\ String.prefix (Js.substring0 20 cursor) cursor = true
         /\ String.length (Js.substring0 20 cursor)
            = Nat.min 20 (String.length cursor).
Proof.
  intros Htoken Hstate Hsyncing Hraises.
  assert (exists e w', syncNextBatch w
            = (Ret (failedProgress st e),
               World.set_syncState (Some (failedRow st e)) w'))
    as (e & w' & Hrun).
  { destruct Hraises as [(e & w1 & Hfetch)|(page & w1 & doc & Hfetch & Hin & Hfault)].
    - exists e, w1. by apply step_fetch_throws with token.
    - destruct (first_fault (World.upsertFault w)
                  (map transformDocument (ReadwiseListResponse.results page)))
        as [Hok|(pre & d & post & e & Hdocs & Hpre & Hd)].
      + exfalso. apply Hfault, Hok, list_elem_of_fmap. eauto.
      + exists e. eexists. by eapply step_upsert_throws. }
  destruct (SyncState.lastCursor st) as [cursor|] eqn:Hcursor.
  - destruct (failedRow_message st e cursor Hcursor) as (msg & Hmsg & Hocc).
    exists (failedProgress st e), (World.set_syncState (Some (failedRow st e)) w'),
      (failedRow st e), msg.
    do 6 (split; [done|]).
    intros c [= <-]. split; [exact Hocc|].
    split; [apply substring0_prefix | apply substring0_length].
  - eexists (failedProgress st e), _, (failedRow st e), _.
    do 4 (split; [done|]).
    split; [cbn [failedRow SyncState.lastCursor]; by rewrite Hcursor|].
    split; [reflexivity | intros c Hc; discriminate Hc].
Qed.

Lemma error_atomicity_witness :
  exists p w' st' msg,
    syncNextBatch
      (Sample.world
         (Some (Sample.state syncing (Some "cursor-of-page-0007-and-more") None None))
         [Sample.page (Some "next") [Sample.doc "d1"; Sample.doc "d2"]] ["d2"])
    = (Ret p, w')
    /\ SyncProgress.status p = p_error
    /\ World.syncState w' = Some st'
    /\ SyncState.status st' = error
    /\ SyncState.lastCursor st' = Some "cursor-of-page-0007-and-more"
    /\ SyncState.errorMsg st' = Some msg
    /\ occursIn "cursor-of-page-0007-" msg.
Proof.
  edestruct (error_atomicity
    (Sample.world
       (Some (Sample.state syncing (Some "cursor-of-page-0007-and-more") None None))
       [Sample.page (Some "next") [Sample.doc "d1"; Sample.doc "d2"]] ["d2"])
    "tok" (Sample.state syncing (Some "cursor-of-page-0007-and-more") None None))
    as (p & w' & st' & msg & Hrun & Hp & Hrow & Hstatus & Hcursor & Hmsg & Hshown).
  - split; [reflexivity | discriminate].
  - reflexivity.
  - reflexivity.
  - right. eexists (Sample.pageOf (Some "next") [Sample.doc "d1"; Sample.doc "d2"]), _,
      (Sample.doc "d2").
    split; [vm_compute; reflexivity|]. split; [|vm_compute; discriminate].
    apply list_elem_of_In. right. left. reflexivity.
  - exists p, w', st', msg. repeat split; try assumption.
    apply (Hshown "cursor-of-page-0007-and-more"). reflexivity.
Defined.

(** C9.  After a step that returns a progress other than an error or idle,
    the persisted [totalSynced] and the one returned are the number of rows
    of the document table at that moment, whatever the row held before. *)
Theorem total_reconciliation w p w' :
  syncNextBatch w = (Ret p, w') ->
  SyncProgress.status p = p_syncing \/ SyncProgress.status p = p_completed ->
  exists st',
    World.syncState w' = Some st'
    /\ SyncState.totalSynced st' = Z.of_nat (size (World.documents w'))
    /\ SyncProgress.totalSynced p = Z.of_nat (size (World.documents w')).
Proof.
  intros Hrun Hp.
  destruct (Js.truthy (apiTokenOf (World.settings w))) eqn:Htruthy; cycle 1.
  { rewrite syncNextBatch_no_token in Hrun by done.
    injection Hrun as <- <-. by destruct Hp. }
  destruct (apiTokenOf (World.settings w)) as [[|c token]|] eqn:Htok; try done.
  assert (tokenConfigured w (String c token)) as Htoken by by split.
  destruct (World.syncState w) as [st|] eqn:Hstate; cycle 1.
  { rewrite syncNextBatch_not_syncing in Hrun by (by rewrite ?Htok, ?Hstate).
    injection Hrun as <- <-. by destruct Hp. }
  destruct (decide (SyncState.status st = syncing)) as [Hsyncing|Hother]; cycle 1.
  { rewrite syncNextBatch_not_syncing in Hrun; cycle 1.
    - by rewrite Htok.
    - rewrite Hstate. by intros ? [= <-].
    - injection Hrun as <- <-. by destruct Hp. }
  destruct (fetchDocuments (stepParams st) (withNewClient (String c token) w))
    as [[page|e|] w1] eqn:Hfetch.
  - destruct (first_fault (World.upsertFault w)
                (map transformDocument (ReadwiseListResponse.results page)))
      as [Hok|(pre & d & post & e & Hdocs & Hpre & Hd)].
    + rewrite (step_applies w _ st Htoken Hstate Hsyncing page w1 Hfetch) in Hrun.
      * injection Hrun as <- <-. eexists. split; [reflexivity|]. by split.
      * intros doc Hdoc. apply Hok, list_elem_of_fmap. eauto.
    + rewrite (step_upsert_throws w _ st Htoken Hstate Hsyncing page w1 pre d post e)
        in Hrun by done.
      injection Hrun as <- <-. by destruct Hp.
  - rewrite (step_fetch_throws w _ st Htoken Hstate Hsyncing e w1 Hfetch) in Hrun.
    injection Hrun as <- <-. by destruct Hp.
  - rewrite (step_pending w _ st Htoken Hstate Hsyncing w1 Hfetch) in Hrun.
    discriminate Hrun.
Qed.

Lemma total_reconciliation_witness :
  exists st',
    World.syncState
      (syncNextBatch
         (Sample.world (Some (Sample.state syncing None None None))
            [Sample.page (Some "next") [Sample.doc "d1"; Sample.doc "d2"; Sample.doc "d1"]]
            [])).2 = Some st'
    /\ SyncState.totalSynced st' = 2.
Proof.
  edestruct (total_reconciliation
    (Sample.world (Some (Sample.state syncing None None None))
       [Sample.page (Some "next") [Sample.doc "d1"; Sample.doc "d2"; Sample.doc "d1"]]
       []))
    as (st' & Hrow & Htotal & _).
  - vm_compute. reflexivity.
  - left. reflexivity.
  - exists st'. split; [exact Hrow|]. rewrite Htotal. vm_compute. reflexivity.
Defined.

(** A step that fails after one of its two upserts leaves the total as it
    was (7, with one row stored); the next step that succeeds writes the
    count of the rows, 2. *)
Example reconciliation_after_partial_failure :
  let failed :=
    (syncNextBatch
       (Sample.world (Some (Sample.state syncing None None None))
          [Sample.page (Some "next") [Sample.doc "d1"; Sample.doc "d2"]] ["d2"])).2 in
  let retried :=
    (syncNextBatch
       (World.set_upstream [Sample.page None [Sample.doc "d1"; Sample.doc "d3"]]
          (startSync (clearError failed).2).2)).2 in
  (SyncState.totalSynced <$> World.syncState failed) = Some 7
  /\ size (World.documents failed) = 1%nat
  /\ (SyncState.totalSynced <$> World.syncState retried) = Some 2
  /\ size (World.documents retried) = 2%nat.
Proof. vm_compute. repeat split; reflexivity. Qed.

(** What [clearError] does to a row. *)
Lemma clearError_run w st :
  World.syncState w = Some st ->
  clearError w
  = (Ret tt,
     World.set_syncState
       (Some {| SyncState.status := idle;
                SyncState.errorMsg := None;
                SyncState.lastCursor := SyncState.lastCursor st;
                SyncState.lastSyncAt := SyncState.lastSyncAt st;
                SyncState.totalSynced := SyncState.totalSynced st |}) w).
Proof.
  intros Hstate.
  unfold clearError, bind, prisma_syncState_update, revalidatePath, ret.
  by rewrite Hstate.
Qed.

(** C3, on the code: after [clearError] the row is idle, not syncing, so
    the claim fails on a row in [error] with the cursor of a page. *)
Lemma retry_in_place_counterexample : ~ retryInPlace_asStated.
Proof.
  intros Hclaim.
  destruct (Hclaim
    (Sample.world (Some (Sample.state error (Some "page-7") None (Some "boom")))
       [] [])
    (Sample.state error (Some "page-7") None (Some "boom")) eq_refl eq_refl)
    as (w' & st' & Hrun & Hrow & _ & _ & Hstatus).
  vm_compute in Hrun. injection Hrun as <-.
  vm_compute in Hrow. injection Hrow as <-. discriminate Hstatus.
Qed.

(** After [clearError] a step does nothing: the row is not syncing. *)
Lemma advance_after_clearError w st token :
  tokenConfigured w token ->
  World.syncState w = Some st ->
  let w1 := (clearError w).2 in
  syncNextBatch w1
  = (Ret (progress p_idle (SyncState.totalSynced st) 0 false None), w1).
Proof.
  intros Htoken Hstate w1. destruct Htoken as [Htok Hne].
  subst w1. rewrite (clearError_run w st Hstate). cbn [snd].
  rewrite syncNextBatch_not_syncing.
  - reflexivity.
  - cbn [World.settings World.set_syncState]. rewrite Htok. by destruct token.
  - cbn [World.syncState World.set_syncState]. by intros ? [= <-].
Qed.

(** C10.  With a token configured and a row that is not syncing, [startSync]
    leaves the row syncing with no cursor and no message; so the cursor that
    [clearError] kept for a row in [error] is gone once the sync is started
    again. *)
Theorem startSync_discards_cursor w token :
  tokenConfigured w token ->
  (forall st, World.syncState w = Some st -> SyncState.status st <> syncing) ->
  (exists w' st',
     startSync w = (Ret (progress p_syncing 0 0 true None), w')
     /\ World.syncState w' = Some st'
     /\ SyncState.status st' = syncing
     /\ SyncState.lastCursor st' = None
     /\ SyncState.errorMsg st' = None)
  /\ (forall st, World.syncState w = Some st -> SyncState.status st = error ->
        (World.syncState (clearError w).2 ≫= SyncState.lastCursor)
          = SyncState.lastCursor st
        /\ (World.syncState (startSync (clearError w).2).2 ≫= SyncState.lastCursor)
          = None).
Proof.
  intros Htoken Hstate. destruct Htoken as [Htok Hne].
  assert (Js.truthy (apiTokenOf (World.settings w)) = true) as Htruthy
    by (rewrite Htok; by destruct token).
  split.
  - unfold startSync, bind, prisma_settings_findUnique,
      prisma_syncState_findUnique, prisma_syncState_upsert, gets, modify, ret.
    rewrite Htruthy. cbn [negb].
    destruct (World.syncState w) as [[[] ? ? ? ?]|] eqn:Hw;
      try (by destruct (Hstate _ eq_refl));
      eexists _, _; (split; [reflexivity|]); (split; [reflexivity|]);
      rewrite Hw; by repeat split.
  - intros st Hst Herror.
    rewrite (clearError_run w st Hst). cbn [snd]. split; [reflexivity|].
    unfold startSync, bind, prisma_settings_findUnique,
      prisma_syncState_findUnique, prisma_syncState_upsert, gets, modify, ret.
    cbn [World.settings World.syncState World.set_syncState].
    rewrite Htruthy. reflexivity.
Qed.

Lemma startSync_discards_cursor_witness :
  (World.syncState
     (clearError
        (Sample.world (Some (Sample.state error (Some "page-7") None (Some "boom")))
           [] [])).2 ≫= SyncState.lastCursor) = Some "page-7"
  /\ (World.syncState
        (startSync
           (clearError
              (Sample.world (Some (Sample.state error (Some "page-7") None (Some "boom")))
                 [] [])).2).2 ≫= SyncState.lastCursor) = None.
Proof.
  destruct (startSync_discards_cursor
    (Sample.world (Some (Sample.state error (Some "page-7") None (Some "boom")))
       [] []) "tok") as [_ Hcursor].
  - split; [reflexivity | discriminate].
  - intros st [= <-]. discriminate.
  - exact (Hcursor _ eq_refl eq_refl).
Defined.

(** ** The rate-limited client, one request at a time *)

(** What [rateLimitedFetch] does with the response to a request. *)
Lemma rateLimitedFetch_rec_S fuel url options retryCount w :
  rateLimitedFetch_rec (S fuel) url options retryCount w
  = bind (fetch url options)
      (fun response =>
         if (Response.status response =? 429)%Z then
           await_ sleep Throttle429
                    (if Js.truthy (Response.retryAfter response)
                     then Js.mul (Js.parseInt (default "" (Response.retryAfter response))) 1000
                     else Js.Finite (minRequestInterval * 2)) ;
           rateLimitedFetch_rec fuel url options retryCount
         else if (Response.status response =? 500)%Z && (retryCount <? 3)%nat then
           await_ sleep Backoff500 (Js.Finite (2 ^ Z.of_nat retryCount * 2000)) ;
           rateLimitedFetch_rec fuel url options (S retryCount)
         else ret response)
      (afterPacing w).
Proof.
  cbn [rateLimitedFetch_rec].
  unfold bind at 1, Date_now at 1, gets at 1.
  unfold bind at 1, this_lastRequestTime at 1, gets at 1.
  unfold bind at 1, afterPacing.
  destruct (_ <? _)%Z; reflexivity.
Qed.

Lemma afterPacing_trace w :
  World.trace (afterPacing w) = World.trace w
  \/ exists ms, World.trace (afterPacing w) = Sleep RateLimit ms :: World.trace w.
Proof.
  unfold afterPacing. destruct (_ <? _)%Z; [right; by eexists | by left].
Qed.

Lemma afterPacing_upstream w : World.upstream (afterPacing w) = World.upstream w.
Proof. unfold afterPacing. by destruct (_ <? _)%Z. Qed.

Lemma afterPacing_stamped w :
  ReadwiseClient.lastRequestTime (World.client (afterPacing w)) = World.clock (afterPacing w).
Proof. unfold afterPacing. by destruct (_ <? _)%Z. Qed.

(** A timer runs for at least a millisecond, as the runtime counts. *)
Lemma timeoutDelay_pos ms : 1 <= Js.timeoutDelay ms.
Proof.
  unfold Js.timeoutDelay. destruct ms as [|d|neg]; try lia.
  destruct (_ && _)%bool eqn:H; [|lia].
  apply andb_true_iff in H as [H _]. apply Z.leb_le in H. lia.
Qed.

Lemma timeoutDelay_in_range d :
  1 <= d <= 2147483647 -> Js.timeoutDelay (Js.Finite d) = d.
Proof.
  intros [Hlo Hhi]. unfold Js.timeoutDelay.
  apply Z.leb_le in Hlo, Hhi. by rewrite Hlo, Hhi.
Qed.

Lemma timersEarlyBy_hd early w :
  0 <= early -> timersEarlyBy early w -> - early <= hd 0 (World.timerLag w).
Proof.
  unfold timersEarlyBy. intros Hearly Hlags.
  destruct (World.timerLag w) as [|lag lags]; cbn; [lia|].
  by apply Forall_cons in Hlags as [Hlag _].
Qed.

Lemma timersEarlyBy_sleep early site ms w :
  timersEarlyBy early w -> timersEarlyBy early (sleep site ms w).2.
Proof.
  unfold timersEarlyBy. cbn. intros Hlags.
  destruct (World.timerLag w) as [|lag lags]; cbn; [done|].
  by apply Forall_cons in Hlags as [_ Hlags].
Qed.

(** A timer moves [Date.now()] on by a millisecond at least, less what it
    fires early. *)
Lemma sleep_clock early site ms w :
  0 <= early -> timersEarlyBy early w ->
  World.clock w + 1 - early <= World.clock (sleep site ms w).2.
Proof.
  intros Hearly Hlags. cbn.
  pose proof (timeoutDelay_pos ms). pose proof (timersEarlyBy_hd early w Hearly Hlags).
  lia.
Qed.

Lemma afterPacing_timers early w :
  timersEarlyBy early w -> timersEarlyBy early (afterPacing w).
Proof.
  intros Hlags. unfold afterPacing. destruct (_ <? _)%Z; [|exact Hlags].
  exact (timersEarlyBy_sleep early RateLimit _ w Hlags).
Qed.

(** After the admission the interval, less what the timer fired early, has
    elapsed since the last request. *)
Lemma afterPacing_clock early back w :
  0 <= early -> 0 <= back <= minRequestInterval ->
  timersEarlyBy early w ->
  ReadwiseClient.lastRequestTime (World.client w) <= World.clock w + back ->
  ReadwiseClient.lastRequestTime (World.client w) + minRequestInterval - early
    <= World.clock (afterPacing w).
Proof.
  intros Hearly Hback Hlags Hle.
  pose proof (timersEarlyBy_hd early w Hearly Hlags) as Hlag.
  unfold afterPacing, minRequestInterval, sleep, set_lastRequestTime, modify in *.
  destruct (_ <? _)%Z eqn:Hlt;
    cbn [snd World.clock World.set_clock World.set_client World.set_timerLag
         World.log World.client World.timerLag].
  - apply Z.ltb_lt in Hlt. rewrite timeoutDelay_in_range by lia. lia.
  - apply Z.ltb_ge in Hlt. lia.
Qed.

Lemma repeat_app_cons {A} (x : A) n l :
  (repeat x n ++ x :: l = x :: repeat x n ++ l)%list.
Proof. induction n as [|n IH]; cbn; [done | by rewrite IH]. Qed.

(** The requests of one call all go to the URL of the call, and there is at
    least one. *)
Lemma rateLimitedFetch_rec_requests fuel url options retryCount w :
  exists n,
    sentRequests (World.trace (rateLimitedFetch_rec fuel url options retryCount w).2)
    = (repeat (url, options) n ++ sentRequests (World.trace w))%list
    /\ (fuel <> O -> n <> O).
Proof.
  revert retryCount w. induction fuel as [|fuel IH]; intros retryCount w.
  { exists O. by split. }
  rewrite rateLimitedFetch_rec_S.
  assert (sentRequests (World.trace (afterPacing w)) = sentRequests (World.trace w)) as Hadm.
  { destruct (afterPacing_trace w) as [->|[ms ->]]; reflexivity. }
  unfold bind at 1, fetch.
  destruct (World.upstream (afterPacing w)) as [|a rest].
  { exists 1%nat.
    cbn [snd World.trace World.log World.set_clock World.set_upstream
         sentRequests repeat app]. rewrite Hadm. by split. }
  destruct (Attempt.reply a) as [e|response].
  { exists 1%nat.
    cbn [snd World.trace World.log World.set_clock World.set_upstream
         sentRequests repeat app]. rewrite Hadm. by split. }
  match goal with |- context [World.set_clock ?c (World.set_upstream ?u ?w0)] =>
    set (w2 := World.set_clock c (World.set_upstream u w0)) end.
  assert (sentRequests (World.trace w2)
          = (url, options) :: sentRequests (World.trace w)) as H2
    by (subst w2;
        cbn [snd World.trace World.log World.set_clock World.set_upstream
             sentRequests]; by rewrite Hadm).
  destruct (_ =? 429)%Z.
  - unfold bind, sleep, modify.
    match goal with |- context [rateLimitedFetch_rec fuel url options retryCount ?w3] =>
      destruct (IH retryCount w3) as (n & Hn & _) end.
    exists (S n). rewrite Hn. cbn [World.trace World.set_clock World.set_timerLag
      World.log sentRequests]. rewrite H2. split; [|done].
    cbn. by rewrite repeat_app_cons.
  - destruct (_ && _)%bool.
    + unfold bind, sleep, modify.
      match goal with |- context [rateLimitedFetch_rec fuel url options (S retryCount) ?w3] =>
        destruct (IH (S retryCount) w3) as (n & Hn & _) end.
      exists (S n). rewrite Hn. cbn [World.trace World.set_clock World.set_timerLag
        World.log sentRequests]. rewrite H2. split; [|done].
      cbn. by rewrite repeat_app_cons.
    + exists 1%nat. cbn [ret snd]. rewrite H2. by split.
Qed.

Lemma rateLimitedFetch_requests url options w :
  exists n,
    sentRequests (World.trace (rateLimitedFetch url options w).2)
    = (repeat (url, options) (S n) ++ sentRequests (World.trace w))%list.
Proof.
  destruct (rateLimitedFetch_rec_requests (S (length (World.upstream w)))
              url options 0 w) as ([|n] & Hn & Hpos); [by destruct Hpos|].
  by exists n.
Qed.

Lemma fetchDocuments_world params w :
  (fetchDocuments params w).2 = (rateLimitedFetch (listUrl params) GET w).2.
Proof.
  unfold fetchDocuments, bind.
  destruct (rateLimitedFetch _ _ w) as [[response|e|] w1]; try reflexivity.
  destruct (negb _); [reflexivity|].
  by destruct (Response.body response).
Qed.

(** The trace of a step is that of its fetch. *)
Lemma step_trace w token st :
  tokenConfigured w token ->
  World.syncState w = Some st -> SyncState.status st = syncing ->
  World.trace (syncNextBatch w).2
  = World.trace (fetchDocuments (stepParams st) (withNewClient token w)).2.
Proof.
  intros Htoken Hstate Hsyncing.
  destruct (fetchDocuments (stepParams st) (withNewClient token w))
    as [[page|e|] w1] eqn:Hfetch.
  - destruct (first_fault (World.upsertFault w)
                (map transformDocument (ReadwiseListResponse.results page)))
      as [Hok|(pre & d & post & e & Hdocs & Hpre & Hd)].
    + rewrite (step_applies w _ st Htoken Hstate Hsyncing page w1 Hfetch);
        [reflexivity|].
      intros doc Hdoc. apply Hok, list_elem_of_fmap. eauto.
    + by rewrite (step_upsert_throws w _ st Htoken Hstate Hsyncing page w1 pre d post e).
  - by rewrite (step_fetch_throws w _ st Htoken Hstate Hsyncing e w1 Hfetch).
  - by rewrite (step_pending w _ st Htoken Hstate Hsyncing w1 Hfetch).
Qed.

Lemma append_nonempty (a : string) c b : Js.truthy (Some (a +:+ String c b)) = true.
Proof. by destruct a. Qed.

Lemma toISOString_truthy t : Js.truthy (Some (Js.toISOString t)) = true.
Proof.
  unfold Js.toISOString. destruct (Js.civilFromDays _) as [[y m] d].
  apply append_nonempty.
Qed.

Lemma listUrl_stepParams st :
  listUrl (stepParams st)
  = READWISE_API_BASE +:+ "/v3/list/?"
    +:+ Js.searchParamsToString
          (listQuery (Js.toISOString <$> SyncState.lastSyncAt st)
             (SyncState.lastCursor st)).
Proof.
  unfold listUrl, stepParams, listQuery, setIfTruthy.
  cbn [FetchParams.updatedAfter FetchParams.location FetchParams.category
       FetchParams.pageCursor FetchParams.withHtmlContent Js.truthy default
       from_option id].
  destruct (Js.truthy (Js.toISOString <$> _)), (Js.truthy (SyncState.lastCursor st));
    reflexivity.
Qed.

(** C4, as amended.  Every request of a step goes to the list endpoint with
    the persisted [lastSyncAt] as [updatedAfter] whenever there is one, on
    the first page and on every later page alike, and with the persisted
    cursor as [pageCursor] when one is held. *)
Theorem lower_bound_scope w token st :
  tokenConfigured w token ->
  World.syncState w = Some st -> SyncState.status st = syncing ->
  (exists n,
     sentRequests (World.trace (syncNextBatch w).2)
     = (repeat
          (READWISE_API_BASE +:+ "/v3/list/?"
           +:+ Js.searchParamsToString
                 (listQuery (Js.toISOString <$> SyncState.lastSyncAt st)
                    (SyncState.lastCursor st)), GET) (S n)
        ++ sentRequests (World.trace w))%list)
  /\ (forall t, SyncState.lastSyncAt st = Some t ->
        listQuery (Js.toISOString <$> SyncState.lastSyncAt st)
          (SyncState.lastCursor st)
        = ("updatedAfter", Js.toISOString t)
          :: listQuery None (SyncState.lastCursor st))
  /\ (SyncState.lastSyncAt st = None ->
        listQuery (Js.toISOString <$> SyncState.lastSyncAt st)
          (SyncState.lastCursor st)
        = listQuery None (SyncState.lastCursor st)).
Proof.
  intros Htoken Hstate Hsyncing. split; [|split].
  - rewrite (step_trace w token st Htoken Hstate Hsyncing), fetchDocuments_world.
    destruct (rateLimitedFetch_requests (listUrl (stepParams st)) GET
                (withNewClient token w)) as (n & Hn).
    exists n. rewrite Hn, listUrl_stepParams. reflexivity.
  - intros t ->. unfold listQuery. cbn [fmap option_fmap option_map].
    by rewrite toISOString_truthy.
  - by intros ->.
Qed.

Lemma lower_bound_scope_witness :
  exists n,
    sentRequests
      (World.trace
         (syncNextBatch
            (Sample.world
               (Some (Sample.state syncing (Some "page-2") (Some 1700000000123) None))
               [Sample.page (Some "page-3") [Sample.doc "d1"]] [])).2)
    = repeat
        ("https://readwise.io/api/v3/list/?updatedAfter=2023-11-14T22%3A13%3A20.123Z&pageCursor=page-2",
         GET) (S n).
Proof.
  destruct (lower_bound_scope
    (Sample.world
       (Some (Sample.state syncing (Some "page-2") (Some 1700000000123) None))
       [Sample.page (Some "page-3") [Sample.doc "d1"]] [])
    "tok" (Sample.state syncing (Some "page-2") (Some 1700000000123) None))
    as [(n & Hn) _].
  - split; [reflexivity | discriminate].
  - reflexivity.
  - reflexivity.
  - exists n. rewrite Hn. cbn [Sample.world World.trace sentRequests].
    rewrite app_nil_r. f_equal.
Defined.

(** C4, the counterexample: a step that holds the cursor ["page-2"] sends
    [updatedAfter] as well. *)
Lemma lower_bound_scope_counterexample : ~ lowerBoundScope_asStated.
Proof.
  intros Hclaim.
  pose proof (Hclaim
    (Sample.world
       (Some (Sample.state syncing (Some "page-2") (Some 1700000000123) None))
       [Sample.page (Some "page-3") [Sample.doc "d1"]] [])
    "tok" (Sample.state syncing (Some "page-2") (Some 1700000000123) None)) as H.
  assert (H1 : tokenConfigured (Sample.world
       (Some (Sample.state syncing (Some "page-2") (Some 1700000000123) None))
       [Sample.page (Some "page-3") [Sample.doc "d1"]] []) "tok") by (split; [reflexivity|discriminate]).
  specialize (H H1 eq_refl eq_refl eq_refl).
  specialize (H "https://readwise.io/api/v3/list/?updatedAfter=2023-11-14T22%3A13%3A20.123Z&pageCursor=page-2"
    GET).
  assert (Hin : ("https://readwise.io/api/v3/list/?updatedAfter=2023-11-14T22%3A13%3A20.123Z&pageCursor=page-2", GET) ∈ sentRequests
         (World.trace
            (syncNextBatch
               (Sample.world
                  (Some
                     (Sample.state syncing (Some "page-2")
                        (Some 1700000000123) None))
                  [Sample.page (Some "page-3") [Sample.doc "d1"]] [])).2)) by (vm_compute; left).
  specialize (H Hin).
  vm_compute in H.
  apply (f_equal String.length) in H.
  vm_compute in H. discriminate H.
Qed.

(** ** The document transformer *)

(** C7.  [transformDocument] is a function of the upstream document alone.
    An array of tag objects and a record of the same tag objects give the
    same list of tag names; each of the four optional timestamps that is
    absent becomes null, and one that is present becomes the date of that
    string; an absent [reading_progress] becomes 0 and a present one is
    kept. *)
Theorem transformer_normalization (doc : ReadwiseDocument.t) :
  (forall tags, ReadwiseDocument.tags doc = TagsArray tags ->
     Document.tags (transformDocument doc) = map Tag.name tags)
  /\ (forall tags, ReadwiseDocument.tags doc = TagsRecord tags ->
        Document.tags (transformDocument doc) = map Tag.name (map snd tags))
  /\ (ReadwiseDocument.published_date doc = None ->
        Document.publishedDate (transformDocument doc) = None)
  /\ (ReadwiseDocument.first_opened_at doc = None ->
        Document.firstOpenedAt (transformDocument doc) = None)
  /\ (ReadwiseDocument.last_opened_at doc = None ->
        Document.lastOpenedAt (transformDocument doc) = None)
  /\ (ReadwiseDocument.last_moved_at doc = None ->
        Document.lastMovedAt (transformDocument doc) = None)
  /\ (forall s, s <> "" ->
        (ReadwiseDocument.published_date doc = Some s ->
           Document.publishedDate (transformDocument doc) = Some (Js.DateOfString s))
        /\ (ReadwiseDocument.first_opened_at doc = Some s ->
              Document.firstOpenedAt (transformDocument doc) = Some (Js.DateOfString s))
        /\ (ReadwiseDocument.last_opened_at doc = Some s ->
              Document.lastOpenedAt (transformDocument doc) = Some (Js.DateOfString s))
        /\ (ReadwiseDocument.last_moved_at doc = Some s ->
              Document.lastMovedAt (transformDocument doc) = Some (Js.DateOfString s)))
  /\ (ReadwiseDocument.reading_progress doc = None ->
        Document.readingProgress (transformDocument doc) = 0%Q)
  /\ (forall q, ReadwiseDocument.reading_progress doc = Some q ->
        Document.readingProgress (transformDocument doc) = q).
Proof.
  unfold transformDocument. cbn.
  split; [by intros tags ->|]. split; [by intros tags ->|].
  do 4 (split; [by intros ->|]).
  split.
  - intros [|c s] Hs; [done|]. repeat split; by intros ->.
  - split; [by intros ->|]. by intros q ->.
Qed.

Lemma transformer_normalization_witness :
  Document.tags
    (transformDocument
       (Sample.tagged (TagsArray [Sample.tag "rust"; Sample.tag "to read"])))
    = ["rust"; "to read"]
  /\ Document.tags
       (transformDocument
          (Sample.tagged
             (TagsRecord [("rust", Sample.tag "rust"); ("to-read", Sample.tag "to read")])))
     = ["rust"; "to read"]
  /\ Document.firstOpenedAt (transformDocument (Sample.tagged TagsAbsent))
     = Some (Js.DateOfString "2024-01-03T10:00:00Z")
  /\ Document.lastOpenedAt (transformDocument (Sample.tagged TagsAbsent)) = None
  /\ Document.readingProgress (transformDocument (Sample.tagged TagsAbsent)) = 0%Q.
Proof.
  destruct (transformer_normalization
              (Sample.tagged (TagsArray [Sample.tag "rust"; Sample.tag "to read"])))
    as (Harray & _).
  destruct (transformer_normalization
              (Sample.tagged
                 (TagsRecord [("rust", Sample.tag "rust"); ("to-read", Sample.tag "to read")])))
    as (_ & Hrecord & _).
  destruct (transformer_normalization (Sample.tagged TagsAbsent))
    as (_ & _ & _ & _ & Hlast & _ & Hdates & Hprogress & _).
  destruct (Hdates "2024-01-03T10:00:00Z") as (_ & Hfirst & _); [discriminate|].
  split; [exact (Harray _ eq_refl)|]. split; [exact (Hrecord _ eq_refl)|].
  split; [exact (Hfirst eq_refl)|]. split; [exact (Hlast eq_refl)|].
  exact (Hprogress eq_refl).
Defined.

(** ** The batch archive *)

(** A call stays pending only when the upstream has stopped answering. *)
Lemma rateLimitedFetch_rec_pending fuel url options retryCount w w' :
  (length (World.upstream w) < fuel)%nat ->
  rateLimitedFetch_rec fuel url options retryCount w = (Pending, w') ->
  World.upstream w' = [].
Proof.
  revert retryCount w. induction fuel as [|fuel IH]; intros retryCount w Hfuel; [lia|].
  rewrite rateLimitedFetch_rec_S. unfold bind at 1, fetch. cbv beta.
  rewrite afterPacing_upstream.
  destruct (World.upstream w) as [|a rest] eqn:Hup.
  { intros [= <-]. cbn [World.upstream World.log]. by rewrite afterPacing_upstream. }
  destruct (Attempt.reply a) as [e|response]; [done|].
  cbn [length] in Hfuel.
  destruct (_ =? 429)%Z.
  - unfold bind, sleep, modify. apply IH. cbn [World.upstream World.log
      World.set_clock World.set_upstream World.set_timerLag]. lia.
  - destruct (_ && _)%bool; [|done].
    unfold bind, sleep, modify. apply IH. cbn [World.upstream World.log
      World.set_clock World.set_upstream World.set_timerLag]. lia.
Qed.

Lemma rateLimitedFetch_pending url options w w' :
  rateLimitedFetch url options w = (Pending, w') -> World.upstream w' = [].
Proof. apply rateLimitedFetch_rec_pending. lia. Qed.

(** The request that archives [id] upstream. *)
Lemma archiveDocument_run id w :
  exists n,
    sentRequests (World.trace (archiveDocument id w).2)
    = (repeat (archiveRequest id) (S n) ++ sentRequests (World.trace w))%list
    /\ ((archiveDocument id w).1 = Pending ->
        World.upstream (archiveDocument id w).2 = []).
Proof.
  unfold archiveDocument, updateDocument, bind.
  destruct (rateLimitedFetch_requests
              (READWISE_API_BASE +:+ "/v3/update/" +:+ id +:+ "/")
              {| RequestInit.method := "PATCH"; RequestInit.body := Some archiveParams |}
              w) as (n & Hn).
  exists n.
  destruct (rateLimitedFetch _ _ w) as [[response|e|] w1] eqn:Hrun; cbn [snd] in Hn.
  - destruct (negb _); [by split|]. by destruct (Response.body response).
  - by split.
  - split; [exact Hn|]. intros _. by apply rateLimitedFetch_pending in Hrun.
Qed.

Lemma batchArchive_loop_spec ids : forall i total success failed w,
  match batchArchive_loop ids i total None success failed w with
  | (Ret r, w') =>
      exists s f ns,
        BatchResult.success r = (success ++ s)%list
        /\ BatchResult.failed r = (failed ++ f)%list
        /\ ids ≡ₚ (s ++ f.*1)%list
        /\ length ns = length ids
        /\ sentRequests (World.trace w')
           = (concat (rev (zip_with (fun id n => repeat (archiveRequest id) (S n)) ids ns))
              ++ sentRequests (World.trace w))%list
  | (Throw _, _) => False
  | (Pending, w') => World.upstream w' = []
  end.
Proof.
  induction ids as [|id rest IH]; intros i total success failed w.
  - cbn. exists [], [], []. by rewrite !app_nil_r.
  - cbn [batchArchive_loop]. unfold bind at 1, try_catch, bind at 1.
    destruct (archiveDocument_run id w) as (n & Hsent & Hpend).
    destruct (archiveDocument id w) as [[[]|e|] w1]; cbn [fst snd] in Hsent, Hpend.
    + unfold ret at 1, bind at 1, ret at 1.
      specialize (IH (S i) total (success ++ [id])%list failed w1).
      destruct (batchArchive_loop rest _ _ _ _ _ w1) as [[r|e|] w2]; try done.
      destruct IH as (s & f & ns & Hs & Hf & Hperm & Hlen & Htr).
      exists (id :: s), f, (n :: ns). rewrite Hs, Hf, <- app_assoc.
      split; [done|]. split; [done|]. split; [by rewrite Hperm|].
      split; [cbn; by rewrite Hlen|].
      rewrite Htr, Hsent. cbn [zip_with rev]. rewrite concat_app. cbn [concat].
      by rewrite app_nil_r, <- app_assoc.
    + unfold ret at 1, bind at 1, ret at 1.
      specialize (IH (S i) total success (failed ++ [(id, Js.errorMessage e)])%list w1).
      destruct (batchArchive_loop rest _ _ _ _ _ w1) as [[r|e'|] w2]; try done.
      destruct IH as (s & f & ns & Hs & Hf & Hperm & Hlen & Htr).
      exists s, ((id, Js.errorMessage e) :: f), (n :: ns). rewrite Hs, Hf, <- app_assoc.
      split; [done|]. split; [done|].
      split; [cbn [fmap list_fmap]; by rewrite <- Permutation_middle, Hperm|].
      split; [cbn; by rewrite Hlen|].
      rewrite Htr, Hsent. cbn [zip_with rev]. rewrite concat_app. cbn [concat].
      by rewrite app_nil_r, <- app_assoc.
    + by apply Hpend.
Qed.








(** ** Spacing of the requests *)

Lemma sleepsAt_RateLimit_not site ms tr :
  site <> RateLimit ->
  sleepsAt RateLimit (Sleep site ms :: tr) = sleepsAt RateLimit tr.
Proof. by destruct site. Qed.

Lemma backstep_range early :
  0 <= early <= minRequestInterval -> 0 <= backstep early <= minRequestInterval.
Proof. unfold backstep, minRequestInterval. lia. Qed.

(** Time passing, with no request sent and no wait of the rate limit, keeps
    what holds of the client, for the distance [back'] the clock is then
    behind. *)
Lemma pacedBy_later early back back' w w' :
  pacedBy early back w ->
  timersEarlyBy early w' ->
  World.client w' = World.client w ->
  ReadwiseClient.lastRequestTime (World.client w) <= World.clock w' + back' ->
  sendTimes (World.trace w') = sendTimes (World.trace w) ->
  sleepsAt RateLimit (World.trace w') = sleepsAt RateLimit (World.trace w) ->
  pacedBy early back' w'.
Proof.
  intros (_ & _ & Hspaced & Hhead & Hwaits) Hlags Hclient Hclock Hsends Hsleeps.
  unfold pacedBy. rewrite Hclient, Hsends, Hsleeps. by repeat split.
Qed.

(** The request leaves an interval, less what the timer fired early, after
    the one before, at the time [lastRequestTime] was just set to. *)
Lemma clientInv_send early w url options :
  0 <= early <= minRequestInterval ->
  clientInv early w ->
  let w1 := World.log (Send (World.clock (afterPacing w)) url options) (afterPacing w) in
  pacedBy early 0 w1
  /\ head (sendTimes (World.trace w1))
     = Some (ReadwiseClient.lastRequestTime (World.client w1)).
Proof.
  intros Hearly (Hlags & Hlast & Hspaced & Hhead & Hwaits) w1.
  pose proof (backstep_range early Hearly) as Hback.
  pose proof (afterPacing_clock early (backstep early) w
                (proj1 Hearly) Hback Hlags Hlast) as Hclock.
  pose proof (afterPacing_stamped w) as Hstamp.
  assert (sendTimes (World.trace (afterPacing w)) = sendTimes (World.trace w)) as Hsends.
  { destruct (afterPacing_trace w) as [->|[ms ->]]; reflexivity. }
  assert (Forall (fun ms => exists d, ms = Js.Finite d
                                      /\ 0 < d <= minRequestInterval + backstep early)
            (sleepsAt RateLimit (World.trace (afterPacing w)))) as Hwaits'.
  { unfold afterPacing. destruct (_ <? _)%Z eqn:Hlt; [|exact Hwaits].
    apply Z.ltb_lt in Hlt. cbn. constructor; [|exact Hwaits].
    eexists. split; [reflexivity|]. lia. }
  subst w1. unfold pacedBy.
  cbn [World.trace World.log World.client World.clock sendTimes sleepsAt head].
  rewrite Hsends, Hstamp. split; [|done].
  split; [exact (afterPacing_timers early w Hlags)|].
  split; [lia|]. split; [|split; [by intros t [= <-]|exact Hwaits']].
  destruct (sendTimes (World.trace w)) as [|t rest] eqn:Hts; [done|].
  split; [|exact Hspaced]. specialize (Hhead t eq_refl). lia.
Qed.

Lemma rateLimitedFetch_rec_inv early fuel url options retryCount w r w' :
  0 <= early <= minRequestInterval ->
  clientInv early w ->
  rateLimitedFetch_rec fuel url options retryCount w = (r, w') ->
  clientInv early w'
  /\ (fuel <> O ->
      head (sendTimes (World.trace w'))
      = Some (ReadwiseClient.lastRequestTime (World.client w'))).
Proof.
  intros Hearly. pose proof (backstep_range early Hearly) as Hback.
  revert retryCount w. induction fuel as [|fuel IH]; intros retryCount w Hinv Hrun.
  { injection Hrun as <- <-. by split. }
  rewrite rateLimitedFetch_rec_S in Hrun.
  destruct (clientInv_send early w url options Hearly Hinv) as [Hinv1 Hhead1].
  cbv zeta in Hinv1, Hhead1.
  unfold bind at 1, fetch in Hrun. cbv beta in Hrun.
  destruct (World.upstream (afterPacing w)) as [|a rest].
  { injection Hrun as <- <-. split; [|done].
    apply (pacedBy_later early 0 _ _ _ Hinv1); try reflexivity; [apply Hinv1|].
    destruct Hinv1 as (_ & Hle & _).
    cbn [World.clock World.client World.log] in Hle |- *. lia. }
  match type of Hrun with context [World.set_clock ?c (World.set_upstream ?u ?w0)] =>
    set (w2 := World.set_clock c (World.set_upstream u w0)) in Hrun end.
  assert (pacedBy early 0 w2) as Hinv2.
  { apply (pacedBy_later early 0 _ _ _ Hinv1); try reflexivity; [apply Hinv1|].
    destruct Hinv1 as (_ & Hle & _). subst w2.
    cbn [World.clock World.client World.log World.set_clock World.set_upstream]
      in Hle |- *. lia. }
  assert (clientInv early w2) as Hinv2'.
  { apply (pacedBy_later early 0 _ _ _ Hinv2); try reflexivity; [apply Hinv2|].
    destruct Hinv2 as (_ & Hle & _). lia. }
  assert (head (sendTimes (World.trace w2))
          = Some (ReadwiseClient.lastRequestTime (World.client w2))) as Hhead2
    by exact Hhead1.
  assert (forall site ms, site <> RateLimit ->
            clientInv early (sleep site ms w2).2
            /\ head (sendTimes (World.trace (sleep site ms w2).2))
               = Some (ReadwiseClient.lastRequestTime (World.client (sleep site ms w2).2)))
    as Hsleep.
  { intros site ms Hsite. split; [|exact Hhead2].
    destruct Hinv2 as (Hlags2 & Hle2 & Hrest2).
    apply (pacedBy_later early 0 _ w2); try reflexivity.
    - by split.
    - by apply timersEarlyBy_sleep.
    - pose proof (sleep_clock early site ms w2 (proj1 Hearly) Hlags2).
      unfold backstep. lia.
    - by apply sleepsAt_RateLimit_not. }
  destruct (Attempt.reply a) as [e|response].
  { injection Hrun as <- <-. by split. }
  destruct (_ =? 429)%Z.
  - unfold bind at 1 in Hrun.
    destruct (Hsleep Throttle429
                (if Js.truthy (Response.retryAfter response)
                 then Js.mul (Js.parseInt (default "" (Response.retryAfter response))) 1000
                 else Js.Finite (minRequestInterval * 2))) as [Hinv3 Hhead3]; [done|].
    destruct (sleep Throttle429 _ w2) as [[[]|e|] w3] eqn:Hs; try done.
    cbn [snd] in Hinv3, Hhead3.
    destruct (IH retryCount w3 Hinv3 Hrun) as [Hinv4 Hhead4].
    split; [exact Hinv4|]. intros _.
    destruct fuel; [injection Hrun as <- <-; exact Hhead3 | by apply Hhead4].
  - destruct (_ && _)%bool.
    + unfold bind at 1 in Hrun.
      destruct (Hsleep Backoff500 (Js.Finite (2 ^ Z.of_nat retryCount * 2000)))
        as [Hinv3 Hhead3]; [done|].
      destruct (sleep Backoff500 _ w2) as [[[]|e|] w3] eqn:Hs; try done.
      cbn [snd] in Hinv3, Hhead3.
      destruct (IH (S retryCount) w3 Hinv3 Hrun) as [Hinv4 Hhead4].
      split; [exact Hinv4|]. intros _.
      destruct fuel; [injection Hrun as <- <-; exact Hhead3 | by apply Hhead4].
    + injection Hrun as <- <-. by split.
Qed.


(** A client that was just made, in a process that has sent nothing yet. *)
Lemma clientInv_new early token w :
  0 <= early -> timersEarlyBy early w ->
  World.trace w = [] -> 0 <= World.clock w ->
  clientInv early (withNewClient token w).
Proof.
  intros Hearly Hlags Htrace Hclock. unfold clientInv, pacedBy.
  cbn [withNewClient World.client World.clock World.trace World.set_client
       ReadwiseClient.lastRequestTime].
  rewrite Htrace. split; [exact Hlags|]. split; [unfold backstep; lia|].
  by repeat split.
Qed.




(** ** Numbers in a header *)

Lemma toNumber_small z : Z.abs z < 2 ^ 53 -> Js.toNumber z = Js.Finite z.
Proof. intros Hz. unfold Js.toNumber. apply Z.ltb_lt in Hz. by rewrite Hz. Qed.

(** A number of magnitude 2^53 or more stays one when it is rounded. *)
Lemma toNumber_large z :
  2 ^ 53 <= Z.abs z ->
  match Js.toNumber z with
  | Js.Finite x => 2 ^ 53 <= Z.abs x /\ Z.sgn x = Z.sgn z
  | Js.Infinity negative => negative = (z <? 0)%Z
  | Js.NaN => False
  end.
Proof.
  intros Hz. unfold Js.toNumber.
  destruct (Z.abs z <? 2 ^ 53)%Z eqn:Hsmall; [apply Z.ltb_lt in Hsmall; lia|].
  set (a := Z.abs z) in *. set (shift := Z.log2 a - 52).
  set (q := Z.shiftr a shift).
  match goal with |- context [if ?b then q + 1 else q] => set (up := b) end.
  assert (0 < a) as Ha by lia.
  destruct (Z.log2_spec a Ha) as [Hlo Hhi].
  assert (53 <= Z.log2 a) as Hlog.
  { apply Z.log2_le_pow2; [lia|]. exact Hz. }
  assert (0 <= shift) as Hshift by (unfold shift; lia).
  assert (2 ^ Z.log2 a = 2 ^ 52 * 2 ^ shift) as Hpow.
  { unfold shift. rewrite <- Z.pow_add_r by lia. f_equal. lia. }
  assert (0 < 2 ^ shift) as Hpos by (apply Z.pow_pos_nonneg; lia).
  assert (2 ^ 52 <= q) as Hq.
  { unfold q. rewrite Z.shiftr_div_pow2 by lia.
    apply Z.div_le_lower_bound; [lia|]. rewrite Z.mul_comm, <- Hpow. exact Hlo. }
  assert (2 ^ 53 <= Z.shiftl (if up then q + 1 else q) shift) as Hm.
  { rewrite Z.shiftl_mul_pow2 by lia.
    assert (2 <= 2 ^ shift) as H2.
    { change 2 with (2 ^ 1) at 1. apply Z.pow_le_mono_r; unfold shift; lia. }
    assert (2 ^ 52 <= (if up then q + 1 else q)) as Hq' by (destruct up; lia).
    change (2 ^ 53) with (2 ^ 52 * 2). 
    apply Z.mul_le_mono_nonneg; lia. }
  destruct (2 ^ 1024 <=? _)%Z; [reflexivity|].
  split.
  - rewrite Z.abs_mul. rewrite (Z.abs_eq (Z.shiftl _ _)) by lia.
    assert (Z.abs (Z.sgn z) = 1) as -> by lia. lia.
  - rewrite Z.sgn_mul. rewrite (Z.sgn_pos (Z.shiftl _ _)) by lia. lia.
Qed.

Lemma timeoutDelay_large x : 2 ^ 53 <= Z.abs x -> Js.timeoutDelay (Js.Finite x) = 1.
Proof.
  intros Hx. unfold Js.timeoutDelay.
  destruct (_ && _)%bool eqn:H; [|done].
  apply andb_true_iff in H as [H1 H2]. apply Z.leb_le in H1, H2.
  change (2 ^ 53) with 9007199254740992 in Hx. lia.
Qed.

Lemma digitValue_pretty_N_char x :
  (x < 10)%N -> Js.digitValue (pretty_N_char x) = Some (Z.of_N x).
Proof.
  intros Hx.
  assert (x = 0 \/ x = 1 \/ x = 2 \/ x = 3 \/ x = 4 \/ x = 5 \/ x = 6 \/ x = 7
          \/ x = 8 \/ x = 9)%N as H by lia.
  repeat (destruct H as [->|H]; [reflexivity|]). by subst.
Qed.

(** Reading back the digits that [pretty] writes. *)
Lemma parseDigits_pretty_N_go x : forall s,
  (0 < x)%N ->
  exists k,
    0 <= k
    /\ forall acc,
         Js.parseDigits 10 (pretty_N_go x s) acc
         = Js.parseDigits 10 s (Some (default 0 acc * 10 ^ k + Z.of_N x)).
Proof.
  induction (N.lt_wf_0 x) as [x _ IH]. intros s Hx.
  rewrite pretty_N_go_step by done.
  assert (forall acc,
            Js.parseDigits 10 (String (pretty_N_char (x `mod` 10)) s) acc
            = Js.parseDigits 10 s (Some (default 0 acc * 10 + Z.of_N (x `mod` 10))))
    as Hdigit.
  { intros acc. cbn [Js.parseDigits].
    rewrite digitValue_pretty_N_char by (apply N.mod_lt; lia).
    assert (Z.of_N (x `mod` 10) < 10) as Hlt.
    { pose proof (N.mod_lt x 10). lia. }
    apply Z.ltb_lt in Hlt. by rewrite Hlt. }
  destruct (decide (x `div` 10 = 0)%N) as [Hq|Hq].
  - exists 1. split; [lia|]. intros acc. rewrite Hq, pretty_N_go_0, Hdigit.
    do 2 f_equal. rewrite N.mod_small by (apply N.div_small_iff in Hq; lia). lia.
  - assert (x `div` 10 < x)%N as Hless by (apply N.div_lt; lia).
    assert (0 < x `div` 10)%N as Hqpos by by apply N.neq_0_lt_0.
    destruct (IH (x `div` 10)%N Hless (String (pretty_N_char (x `mod` 10)) s) Hqpos)
      as (k & Hk & Hread).
    exists (k + 1). split; [lia|]. intros acc. rewrite Hread, Hdigit.
    do 2 f_equal. cbn [default from_option id].
    rewrite Z.pow_add_r by lia.
    rewrite (N.div_mod x 10) at 3 by lia. lia.
Qed.

(** The numeral of a positive number starts with a digit from 1 to 9. *)
Lemma pretty_N_go_head x : forall s,
  (0 < x)%N ->
  exists d rest,
    (1 <= d < 10)%N /\ pretty_N_go x s = String (pretty_N_char d) rest.
Proof.
  induction (N.lt_wf_0 x) as [x _ IH]. intros s Hx.
  rewrite pretty_N_go_step by done.
  destruct (decide (x `div` 10 = 0)%N) as [Hq|Hq].
  - rewrite Hq, pretty_N_go_0. exists (x `mod` 10)%N, s. split; [|done].
    rewrite N.mod_small by (apply N.div_small_iff in Hq; lia).
    apply N.div_small_iff in Hq; lia.
  - apply IH; [apply N.div_lt; lia|by apply N.neq_0_lt_0].
Qed.

Lemma parseInt_digit_first d rest :
  (1 <= d < 10)%N ->
  Js.parseInt (String (pretty_N_char d) rest)
  = match Js.parseDigits 10 (String (pretty_N_char d) rest) None with
    | Some mathInt => Js.toNumber (1 * mathInt)
    | None => Js.NaN
    end
  /\ Js.parseInt (String "-" (String (pretty_N_char d) rest))
     = match Js.parseDigits 10 (String (pretty_N_char d) rest) None with
       | Some mathInt => Js.toNumber (-1 * mathInt)
       | None => Js.NaN
       end.
Proof.
  intros Hd.
  assert (d = 1 \/ d = 2 \/ d = 3 \/ d = 4 \/ d = 5 \/ d = 6 \/ d = 7
          \/ d = 8 \/ d = 9)%N as H by lia.
  repeat (destruct H as [->|H]; [split; reflexivity|]). subst. split; reflexivity.
Qed.

(** [parseInt] reads a decimal numeral as the Number value for the integer
    it denotes. *)
Lemma parseInt_pretty (z : Z) : Js.parseInt (pretty z) = Js.toNumber z.
Proof.
  assert (forall p : positive,
            exists d rest,
              (1 <= d < 10)%N
              /\ pretty p = String (pretty_N_char d) rest
              /\ Js.parseDigits 10 (String (pretty_N_char d) rest) None
                 = Some (Z.pos p)) as Hpos.
  { intros p. unfold pretty, pretty_positive, pretty, pretty_N.
    rewrite decide_False by done.
    destruct (pretty_N_go_head (N.pos p) "") as (d & rest & Hd & Hhead); [lia|].
    destruct (parseDigits_pretty_N_go (N.pos p) "") as (k & Hk & Hread); [lia|].
    exists d, rest. split; [done|]. split; [done|].
    rewrite <- Hhead, Hread. cbn [Js.parseDigits default from_option id].
    f_equal; lia. }
  destruct z as [|p|p].
  - reflexivity.
  - destruct (Hpos p) as (d & rest & Hd & Hp & Hread).
    change (pretty (Z.pos p)) with (pretty p). rewrite Hp.
    rewrite (proj1 (parseInt_digit_first d rest Hd)), Hread. f_equal; lia.
  - destruct (Hpos p) as (d & rest & Hd & Hp & Hread).
    change (pretty (Z.neg p)) with ("-" +:+ pretty p). rewrite Hp.
    change ("-" +:+ String (pretty_N_char d) rest)
      with (String "-" (String (pretty_N_char d) rest)).
    rewrite (proj2 (parseInt_digit_first d rest Hd)), Hread. f_equal; lia.
Qed.

(** The timer a [Retry-After] of [seconds] seconds gets: that many seconds
    when they are between 1 and 2147483, and a millisecond otherwise. *)
Lemma throttle_delay_of_seconds (seconds : Z) :
  Js.timeoutDelay (Js.mul (Js.parseInt (pretty seconds)) 1000)
  = if (1 <=? seconds)%Z && (seconds <=? 2147483)%Z then seconds * 1000 else 1.
Proof.
  rewrite parseInt_pretty.
  assert (forall x, 2 ^ 53 <= Z.abs x -> Js.timeoutDelay (Js.toNumber x) = 1)
    as Hbig.
  { intros x Hx. pose proof (toNumber_large x Hx) as Hlarge.
    destruct (Js.toNumber x) as [|y|neg]; try done.
    destruct Hlarge as [Hy _]. by apply timeoutDelay_large. }
  destruct (decide (Z.abs seconds < 2 ^ 53)) as [Hsmall|Hlarge].
  - rewrite toNumber_small by done. cbn [Js.mul].
    destruct (decide (Z.abs (seconds * 1000) < 2 ^ 53)) as [Hms|Hms].
    + rewrite toNumber_small by done. unfold Js.timeoutDelay.
      destruct (_ && _)%bool eqn:H1, ((1 <=? seconds)%Z && _)%bool eqn:H2;
        try done; exfalso;
        rewrite ?andb_true_iff, ?andb_false_iff, ?Z.leb_le, ?Z.leb_gt in H1, H2; lia.
    + rewrite Hbig by lia.
      destruct (_ && _)%bool eqn:H2; [|done]. exfalso.
      rewrite andb_true_iff, !Z.leb_le in H2.
      change (2 ^ 53) with 9007199254740992 in Hms. lia.
  - assert ((1 <=? seconds)%Z && (seconds <=? 2147483)%Z = false) as ->.
    { apply andb_false_iff. rewrite !Z.leb_gt.
      change (2 ^ 53) with 9007199254740992 in Hlarge. lia. }
    pose proof (toNumber_large seconds ltac:(lia)) as Hseconds.
    destruct (Js.toNumber seconds) as [|x|neg]; cbn [Js.mul]; try done.
    destruct Hseconds as [Hx _]. apply Hbig. lia.
Qed.

(** A header that starts with no white space, sign or digit holds no number:
    an HTTP date is one. *)
Lemma parseInt_no_number c rest :
  Js.isWhiteSpace c = false -> c <> "+"%char -> c <> "-"%char ->
  (forall d, Js.digitValue c = Some d -> 10 <= d) ->
  Js.parseInt (String c rest) = Js.NaN.
Proof.
  intros Hws Hplus Hminus Hdigit. unfold Js.parseInt.
  cbn [Js.trimStart]. rewrite Hws.
  destruct (decide (c = "0"%char)) as [->|Hzero].
  { specialize (Hdigit 0 eq_refl). lia. }
  assert (Js.parseDigits 10 (String c rest) None = None) as Hnone.
  { cbn [Js.parseDigits]. destruct (Js.digitValue c) as [d|] eqn:Hd; [|done].
    specialize (Hdigit d eq_refl). apply Z.ltb_ge in Hdigit. by rewrite Hdigit. }
  destruct c as [[] [] [] [] [] [] [] []]; try done; by rewrite Hnone.
Qed.

(** ** The retry policy *)

Section OneReply.
Variables (fuel : nat) (url : string) (options : RequestInit.t)
          (retryCount : nat) (w : World.t).
Variables (a : Attempt.t) (rest : list Attempt.t) (response : Response.t).
Hypothesis Hupstream : World.upstream w = a :: rest.
Hypothesis Hreply : Attempt.reply a = inr response.

Lemma reply_429 :
  Response.status response = 429 ->
  exists wait w3,
    rateLimitedFetch_rec (S fuel) url options retryCount w
    = rateLimitedFetch_rec fuel url options retryCount w3
    /\ World.upstream w3 = rest
    /\ World.trace w3
       = Sleep Throttle429 wait
           :: Send (World.clock (afterPacing w)) url options :: World.trace (afterPacing w)
    /\ World.clock w3
       = World.clock (afterPacing w) + Z.of_nat (Attempt.latency a)
         + Js.timeoutDelay wait + hd 0 (World.timerLag (afterPacing w))
    /\ wait = match Response.retryAfter response with
              | Some (String c s) => Js.mul (Js.parseInt (String c s)) 1000
              | _ => Js.Finite (2 * minRequestInterval)
              end.
Proof using Hupstream Hreply.
  intros Hstatus. rewrite rateLimitedFetch_rec_S.
  unfold bind at 1, fetch. cbv beta.
  rewrite afterPacing_upstream, Hupstream, Hreply, Hstatus. cbn [Z.eqb Pos.eqb].
  unfold bind, sleep, modify. eexists _, _. split; [reflexivity|].
  split; [reflexivity|]. split; [reflexivity|]. split; [reflexivity|].
  by destruct (Response.retryAfter response) as [[|c s]|].
Qed.

Lemma reply_500 :
  Response.status response = 500 -> (retryCount < 3)%nat ->
  exists w3,
    rateLimitedFetch_rec (S fuel) url options retryCount w
    = rateLimitedFetch_rec fuel url options (S retryCount) w3
    /\ World.upstream w3 = rest
    /\ World.trace w3
       = Sleep Backoff500 (Js.Finite (2 ^ Z.of_nat retryCount * 2000))
           :: Send (World.clock (afterPacing w)) url options :: World.trace (afterPacing w).
Proof using Hupstream Hreply.
  intros Hstatus Hcount. rewrite rateLimitedFetch_rec_S.
  unfold bind at 1, fetch. cbv beta.
  rewrite afterPacing_upstream, Hupstream, Hreply, Hstatus. cbn [Z.eqb Pos.eqb].
  apply Nat.ltb_lt in Hcount. rewrite Hcount. cbn [andb].
  unfold bind, sleep, modify. eexists. by repeat split.
Qed.

Lemma reply_final :
  Response.status response <> 429 ->
  Response.status response <> 500 \/ (3 <= retryCount)%nat ->
  rateLimitedFetch_rec (S fuel) url options retryCount w
  = (Ret response,
     World.set_clock (World.clock (afterPacing w) + Z.of_nat (Attempt.latency a))
       (World.set_upstream rest
          (World.log (Send (World.clock (afterPacing w)) url options) (afterPacing w)))).
Proof using Hupstream Hreply.
  intros H429 H500. rewrite rateLimitedFetch_rec_S.
  unfold bind at 1, fetch. cbv beta.
  rewrite afterPacing_upstream, Hupstream, Hreply.
  apply Z.eqb_neq in H429. rewrite H429.
  destruct H500 as [H500|H500].
  - apply Z.eqb_neq in H500. by rewrite H500.
  - apply Nat.ltb_ge in H500. by rewrite H500, andb_false_r.
Qed.
End OneReply.

Lemma afterPacing_sentRequests w :
  sentRequests (World.trace (afterPacing w)) = sentRequests (World.trace w).
Proof. destruct (afterPacing_trace w) as [->|[ms ->]]; reflexivity. Qed.

Lemma afterPacing_sleepsAt site w :
  site <> RateLimit ->
  sleepsAt site (World.trace (afterPacing w)) = sleepsAt site (World.trace w).
Proof.
  intros Hsite. destruct (afterPacing_trace w) as [->|[ms ->]]; [done|].
  by destruct site.
Qed.

Lemma replyStatus_inv a status :
  replyStatus a = Some status ->
  exists response, Attempt.reply a = inr response /\ Response.status response = status.
Proof.
  unfold replyStatus. destruct (Attempt.reply a) as [e|response]; [done|].
  intros [= <-]. by exists response.
Qed.

(** A 429 is retried as many times as the upstream sends one. *)
Lemma throttled_any_number url options throttles :
  forall fuel retryCount w final response rest,
    Forall (fun a => replyStatus a = Some 429) throttles ->
    World.upstream w = (throttles ++ final :: rest)%list ->
    Attempt.reply final = inr response ->
    Response.status response <> 429 ->
    Response.status response <> 500 \/ (3 <= retryCount)%nat ->
    (length throttles < fuel)%nat ->
    exists w',
      rateLimitedFetch_rec fuel url options retryCount w = (Ret response, w')
      /\ World.upstream w' = rest
      /\ sentRequests (World.trace w')
         = (repeat (url, options) (S (length throttles))
            ++ sentRequests (World.trace w))%list
      /\ length (sleepsAt Throttle429 (World.trace w'))
         = (length throttles + length (sleepsAt Throttle429 (World.trace w)))%nat
      /\ sleepsAt Backoff500 (World.trace w') = sleepsAt Backoff500 (World.trace w).
Proof.
  induction throttles as [|a throttles IH];
    intros fuel retryCount w final response rest Hall Hup Hreply H429 H500 Hfuel;
    (destruct fuel as [|fuel]; [cbn in Hfuel; lia|]).
  - rewrite (reply_final fuel url options retryCount w final rest response Hup Hreply
               H429 H500).
    eexists. split; [reflexivity|]. split; [reflexivity|].
    cbn [World.trace World.set_clock World.set_upstream World.log sentRequests
         sleepsAt repeat app length].
    by rewrite afterPacing_sentRequests, !afterPacing_sleepsAt.
  - apply Forall_cons in Hall as [Ha Hall].
    apply replyStatus_inv in Ha as (r429 & Hr & Hs).
    destruct (reply_429 fuel url options retryCount w a
                (throttles ++ final :: rest)%list r429 Hup Hr Hs)
      as (wait & w3 & Hrun & Hup3 & Htrace3 & _ & _).
    destruct (IH fuel retryCount w3 final response rest Hall Hup3 Hreply H429 H500)
      as (w' & Hrun' & Hup' & Hsent & Hthrottle & Hbackoff);
      [cbn in Hfuel; lia|].
    exists w'. rewrite Hrun, Hrun', Hsent, Hthrottle, Hbackoff, Htrace3.
    split; [done|]. split; [done|].
    cbn [sentRequests sleepsAt length].
    rewrite afterPacing_sentRequests, !afterPacing_sleepsAt by done.
    split; [by rewrite repeat_app_cons|]. split; [lia|done].
Qed.

(** A 500 is retried after 2 s, 4 s and 8 s, counting from [retryCount];
    what comes after the third retry is returned whatever it is. *)
Lemma server_errors_backoff url options errors :
  forall fuel retryCount w final response rest,
    Forall (fun a => replyStatus a = Some 500) errors ->
    (retryCount + length errors <= 3)%nat ->
    World.upstream w = (errors ++ final :: rest)%list ->
    Attempt.reply final = inr response ->
    Response.status response <> 429 ->
    Response.status response <> 500 \/ (retryCount + length errors = 3)%nat ->
    (length errors < fuel)%nat ->
    exists w',
      rateLimitedFetch_rec fuel url options retryCount w = (Ret response, w')
      /\ World.upstream w' = rest
      /\ sentRequests (World.trace w')
         = (repeat (url, options) (S (length errors))
            ++ sentRequests (World.trace w))%list
      /\ sleepsAt Backoff500 (World.trace w')
         = (rev (map (fun i => Js.Finite (2 ^ Z.of_nat i * 2000))
                   (seq retryCount (length errors)))
            ++ sleepsAt Backoff500 (World.trace w))%list
      /\ sleepsAt Throttle429 (World.trace w') = sleepsAt Throttle429 (World.trace w).
Proof.
  induction errors as [|a errors IH];
    intros fuel retryCount w final response rest Hall Hcount Hup Hreply H429 H500 Hfuel;
    (destruct fuel as [|fuel]; [cbn in Hfuel; lia|]).
  - rewrite (reply_final fuel url options retryCount w final rest response Hup Hreply
               H429); cycle 1.
    { destruct H500 as [H|H]; [by left | right; cbn in H; lia]. }
    eexists. split; [reflexivity|]. split; [reflexivity|].
    cbn [World.trace World.set_clock World.set_upstream World.log sentRequests
         sleepsAt repeat app length seq map rev].
    by rewrite afterPacing_sentRequests, !afterPacing_sleepsAt.
  - apply Forall_cons in Hall as [Ha Hall].
    apply replyStatus_inv in Ha as (r500 & Hr & Hs).
    cbn [length] in Hcount, H500, Hfuel.
    destruct (reply_500 fuel url options retryCount w a
                (errors ++ final :: rest)%list r500 Hup Hr Hs)
      as (w3 & Hrun & Hup3 & Htrace3); [lia|].
    destruct (IH fuel (S retryCount) w3 final response rest Hall) as
      (w' & Hrun' & Hup' & Hsent & Hbackoff & Hthrottle); try done; try lia.
    exists w'. rewrite Hrun, Hrun', Hsent, Hthrottle, Hbackoff, Htrace3.
    split; [done|]. split; [done|].
    cbn [sentRequests sleepsAt length seq map rev].
    rewrite afterPacing_sentRequests, !afterPacing_sleepsAt by done.
    split; [by rewrite repeat_app_cons|]. split; [|done].
    by rewrite <- app_assoc.
Qed.

(** One call backs off for a 500 at most three times, whatever the upstream
    replies. *)
Lemma backoff_bounded url options fuel :
  forall retryCount w,
    (length (sleepsAt Backoff500
               (World.trace (rateLimitedFetch_rec fuel url options retryCount w).2))
     + Nat.min retryCount 3
     <= length (sleepsAt Backoff500 (World.trace w)) + 3)%nat.
Proof.
  induction fuel as [|fuel IH]; intros retryCount w; [cbn; lia|].
  rewrite rateLimitedFetch_rec_S. unfold bind at 1, fetch. cbv beta.
  pose proof (afterPacing_sleepsAt Backoff500 w) as Hadm.
  destruct (World.upstream (afterPacing w)) as [|a rest].
  { cbn [snd World.trace World.log sleepsAt]. rewrite Hadm by done. lia. }
  destruct (Attempt.reply a) as [e|response].
  { cbn [snd World.trace World.log World.set_clock World.set_upstream sleepsAt].
    rewrite Hadm by done. lia. }
  destruct (_ =? 429)%Z.
  - unfold bind, sleep, modify.
    match goal with |- context [rateLimitedFetch_rec fuel url options retryCount ?w3] =>
      specialize (IH retryCount w3) end.
    cbn [World.trace World.log World.set_clock World.set_upstream
         World.set_timerLag sleepsAt] in IH.
    rewrite Hadm in IH by done. exact IH.
  - destruct (_ =? 500)%Z; cbn [andb]; cycle 1.
    { cbn [ret snd World.trace World.log World.set_clock World.set_upstream sleepsAt].
      rewrite Hadm by done. lia. }
    destruct (retryCount <? 3)%nat eqn:Hlt.
    + apply Nat.ltb_lt in Hlt. unfold bind, sleep, modify.
      match goal with |- context [rateLimitedFetch_rec fuel url options (S retryCount) ?w3] =>
        specialize (IH (S retryCount) w3) end.
      cbn [World.trace World.log World.set_clock World.set_upstream
           World.set_timerLag sleepsAt length] in IH.
      rewrite Hadm in IH by done. lia.
    + cbn [ret snd World.trace World.log World.set_clock World.set_upstream sleepsAt].
      rewrite Hadm by done. lia.
Qed.

Lemma pretty_Z_nonempty (z : Z) : exists c s, pretty z = String c s.
Proof.
  destruct z as [|p|p]; [by eexists _, _| |by eexists _, _].
  change (pretty (Z.pos p)) with (pretty_N (N.pos p)). unfold pretty_N.
  rewrite decide_False by done.
  destruct (pretty_N_go_head (N.pos p) "") as (d & rest & _ & ->); [lia|].
  by eexists _, _.
Qed.

(** C6, as amended.  A 429 is answered by one timer and by the same call
    again, with the same retry count: any number of 429s is retried.  The
    timer is asked for [parseInt(Retry-After) * 1000] ms when the header is
    a non-empty string, and for twice the interval when it is absent or
    empty.  So for a header that is the numeral of a number of seconds the
    timer runs that long when the seconds are between 1 and 2147483 and for
    1 ms otherwise; and for a header that holds no number, as an HTTP date,
    the delay asked is [NaN] and the timer runs for 1 ms.  A 500 is retried
    after 2 s, 4 s and 8 s, and the reply to the third retry is returned to
    the caller even when it is a 500: no call backs off for a 500 more than
    three times.  Any other status is returned after the one request, with
    no wait for a retry. *)
Theorem retry_policy url options w :
  (forall fuel retryCount a rest response,
     World.upstream w = a :: rest -> Attempt.reply a = inr response ->
     Response.status response = 429 ->
     exists wait w3,
       rateLimitedFetch_rec (S fuel) url options retryCount w
       = rateLimitedFetch_rec fuel url options retryCount w3
       /\ World.upstream w3 = rest
       /\ World.trace w3
          = Sleep Throttle429 wait
              :: Send (World.clock (afterPacing w)) url options :: World.trace (afterPacing w)
       /\ World.clock w3
          = World.clock (afterPacing w) + Z.of_nat (Attempt.latency a)
            + Js.timeoutDelay wait + hd 0 (World.timerLag (afterPacing w))
       /\ (Response.retryAfter response = None
           \/ Response.retryAfter response = Some "" ->
           wait = Js.Finite (2 * minRequestInterval)
           /\ Js.timeoutDelay wait = 2 * minRequestInterval)
       /\ (forall s, Response.retryAfter response = Some s -> s <> "" ->
             wait = Js.mul (Js.parseInt s) 1000)
       /\ (forall seconds : Z,
             Response.retryAfter response = Some (pretty seconds) ->
             wait = Js.mul (Js.toNumber seconds) 1000
             /\ (Z.abs (seconds * 1000) < 2 ^ 53 -> wait = Js.Finite (seconds * 1000))
             /\ Js.timeoutDelay wait
                = if (1 <=? seconds)%Z && (seconds <=? 2147483)%Z
                  then seconds * 1000 else 1)
       /\ (forall c s,
             Response.retryAfter response = Some (String c s) ->
             Js.isWhiteSpace c = false -> c <> "+"%char -> c <> "-"%char ->
             (forall d, Js.digitValue c = Some d -> 10 <= d) ->
             wait = Js.NaN /\ Js.timeoutDelay wait = 1))
  /\ (forall throttles final response rest,
        Forall (fun a => replyStatus a = Some 429) throttles ->
        World.upstream w = (throttles ++ final :: rest)%list ->
        Attempt.reply final = inr response ->
        Response.status response <> 429 -> Response.status response <> 500 ->
        exists w',
          rateLimitedFetch url options w = (Ret response, w')
          /\ World.upstream w' = rest
          /\ sentRequests (World.trace w')
             = (repeat (url, options) (S (length throttles))
                ++ sentRequests (World.trace w))%list
          /\ length (sleepsAt Throttle429 (World.trace w'))
             = (length throttles + length (sleepsAt Throttle429 (World.trace w)))%nat)
  /\ (forall errors final response rest,
        Forall (fun a => replyStatus a = Some 500) errors ->
        (length errors <= 3)%nat ->
        World.upstream w = (errors ++ final :: rest)%list ->
        Attempt.reply final = inr response ->
        Response.status response <> 429 ->
        Response.status response <> 500 \/ length errors = 3%nat ->
        exists w',
          rateLimitedFetch url options w = (Ret response, w')
          /\ World.upstream w' = rest
          /\ sentRequests (World.trace w')
             = (repeat (url, options) (S (length errors))
                ++ sentRequests (World.trace w))%list
          /\ sleepsAt Backoff500 (World.trace w')
             = (rev (take (length errors)
                       [Js.Finite 2000; Js.Finite 4000; Js.Finite 8000])
                ++ sleepsAt Backoff500 (World.trace w))%list
          /\ sleepsAt Throttle429 (World.trace w')
             = sleepsAt Throttle429 (World.trace w))
  /\ (length (sleepsAt Backoff500 (World.trace (rateLimitedFetch url options w).2))
      <= length (sleepsAt Backoff500 (World.trace w)) + 3)%nat.
Proof.
  split; [|split; [|split]].
  - intros fuel retryCount a rest response Hup Hreply Hstatus.
    destruct (reply_429 fuel url options retryCount w a rest response Hup Hreply Hstatus)
      as (wait & w3 & Hrun & Hup3 & Htrace & Hclock & Hwait).
    exists wait, w3. do 4 (split; [done|]).
    assert (forall s, Response.retryAfter response = Some s -> s <> "" ->
              wait = Js.mul (Js.parseInt s) 1000) as Hheader.
    { intros s Hs Hne. rewrite Hs in Hwait. by destruct s. }
    split; [|split; [exact Hheader|split]].
    + intros [Hnone|Hempty]; [rewrite Hnone in Hwait|rewrite Hempty in Hwait];
        by rewrite Hwait.
    + intros seconds Hs.
      destruct (pretty_Z_nonempty seconds) as (c & s & Hpretty).
      rewrite (Hheader _ Hs) by by rewrite Hpretty.
      split; [by rewrite parseInt_pretty|]. split.
      * intros Hms. rewrite parseInt_pretty, toNumber_small by lia.
        cbn [Js.mul]. by apply toNumber_small.
      * apply throttle_delay_of_seconds.
    + intros c s Hs Hws Hplus Hminus Hdigit.
      rewrite (Hheader _ Hs) by done.
      by rewrite (parseInt_no_number c s Hws Hplus Hminus Hdigit).
  - intros throttles final response rest Hall Hup Hreply H429 H500.
    destruct (throttled_any_number url options throttles
                (S (length (World.upstream w))) 0 w final response rest)
      as (w' & Hrun & Hup' & Hsent & Hthrottle & _); try done.
    + by left.
    + rewrite Hup, length_app. cbn. lia.
    + by exists w'.
  - intros errors final response rest Hall Hlen Hup Hreply H429 H500.
    destruct (server_errors_backoff url options errors
                (S (length (World.upstream w))) 0 w final response rest)
      as (w' & Hrun & Hup' & Hsent & Hbackoff & Hthrottle); try done.
    + rewrite Hup, length_app. cbn. lia.
    + exists w'. do 3 (split; [done|]). split; [|done].
      rewrite Hbackoff. do 2 f_equal.
      destruct errors as [|? [|? [|? [|? ?]]]]; cbn in Hlen |- *; try done; lia.
  - pose proof (backoff_bounded url options (S (length (World.upstream w))) 0 w) as H.
    unfold rateLimitedFetch. cbn [Nat.min] in H. lia.
Qed.

(** A 429 with [Retry-After: 120] is followed by a timer of two minutes and
    the same call again; four 500s in a row are retried after 2 s, 4 s and
    8 s and the fourth is returned. *)
Lemma retry_policy_witness :
  (exists wait w3,
     rateLimitedFetch_rec 2 (READWISE_API_BASE +:+ "/v3/list/?") GET 0
       (Sample.world None
          [Sample.respond 429 "Too Many Requests" (Some "120") NotJson;
           Sample.respond 200 "OK" None JsonOther] [])
     = rateLimitedFetch_rec 1 (READWISE_API_BASE +:+ "/v3/list/?") GET 0 w3
     /\ World.upstream w3 = [Sample.respond 200 "OK" None JsonOther]
     /\ wait = Js.Finite 120000
     /\ Js.timeoutDelay wait = 120000
     /\ World.clock w3 = 1700000100000 + 40 + 120000)
  /\ exists w',
       rateLimitedFetch (READWISE_API_BASE +:+ "/v3/list/?") GET
         (Sample.world None
            [Sample.respond 500 "Internal Server Error" None NotJson;
             Sample.respond 500 "Internal Server Error" None NotJson;
             Sample.respond 500 "Internal Server Error" None NotJson;
             Sample.respond 500 "Internal Server Error" None NotJson;
             Sample.respond 200 "OK" None JsonOther] [])
       = (Ret {| Response.status := 500; Response.statusText := "Internal Server Error";
                 Response.retryAfter := None; Response.body := NotJson |}, w')
       /\ World.upstream w' = [Sample.respond 200 "OK" None JsonOther]
       /\ sleepsAt Backoff500 (World.trace w')
          = [Js.Finite 8000; Js.Finite 4000; Js.Finite 2000].
Proof.
  split.
  - destruct (retry_policy (READWISE_API_BASE +:+ "/v3/list/?") GET
      (Sample.world None
         [Sample.respond 429 "Too Many Requests" (Some "120") NotJson;
          Sample.respond 200 "OK" None JsonOther] [])) as (H429 & _).
    destruct (H429 1%nat 0%nat
      (Sample.respond 429 "Too Many Requests" (Some "120") NotJson)
      [Sample.respond 200 "OK" None JsonOther]
      {| Response.status := 429; Response.statusText := "Too Many Requests";
         Response.retryAfter := Some "120"; Response.body := NotJson |}
      eq_refl eq_refl eq_refl)
      as (wait & w3 & Hrun & Hup & _ & Hclock & _ & _ & Hseconds & _).
    destruct (Hseconds 120 eq_refl) as (_ & Hwait & Hdelay).
    exists wait, w3. split; [exact Hrun|]. split; [exact Hup|].
    split; [apply Hwait; by vm_compute|]. split; [exact Hdelay|].
    rewrite Hclock, Hdelay. reflexivity.
  - destruct (retry_policy (READWISE_API_BASE +:+ "/v3/list/?") GET
      (Sample.world None
         [Sample.respond 500 "Internal Server Error" None NotJson;
          Sample.respond 500 "Internal Server Error" None NotJson;
          Sample.respond 500 "Internal Server Error" None NotJson;
          Sample.respond 500 "Internal Server Error" None NotJson;
          Sample.respond 200 "OK" None JsonOther] [])) as (_ & _ & H500 & _).
    destruct (H500
      [Sample.respond 500 "Internal Server Error" None NotJson;
       Sample.respond 500 "Internal Server Error" None NotJson;
       Sample.respond 500 "Internal Server Error" None NotJson]
      (Sample.respond 500 "Internal Server Error" None NotJson)
      {| Response.status := 500; Response.statusText := "Internal Server Error";
         Response.retryAfter := None; Response.body := NotJson |}
      [Sample.respond 200 "OK" None JsonOther])
      as (w' & Hrun & Hup & _ & Hbackoff & _).
    + repeat constructor.
    + cbn. lia.
    + reflexivity.
    + reflexivity.
    + cbn. lia.
    + right. reflexivity.
    + exists w'. split; [exact Hrun|]. split; [exact Hup|]. exact Hbackoff.
Defined.

(** C6, the counterexample: a 429 whose [Retry-After] is an HTTP date is
    answered by a timer whose delay is [NaN], no duration at all. *)
Lemma retry_policy_counterexample : ~ retryPolicy_asStated.
Proof.
  intros Hclaim.
  destruct (Hclaim (READWISE_API_BASE +:+ "/v3/list/?") GET 0%nat 0%nat
    (Sample.world None
       [Sample.respond 429 "Too Many Requests"
          (Some "Wed, 21 Oct 2015 07:28:00 GMT") NotJson] [])
    (Sample.respond 429 "Too Many Requests"
       (Some "Wed, 21 Oct 2015 07:28:00 GMT") NotJson)
    []
    {| Response.status := 429; Response.statusText := "Too Many Requests";
       Response.retryAfter := Some "Wed, 21 Oct 2015 07:28:00 GMT";
       Response.body := NotJson |}
    "Wed, 21 Oct 2015 07:28:00 GMT" eq_refl eq_refl eq_refl eq_refl)
    as (duration & w3 & _ & Hrun & Htrace).
  vm_compute in Hrun. injection Hrun as <-. vm_compute in Htrace.
  discriminate Htrace.
Qed.

(** A 429 storm: with a [Retry-After] of 2 seconds the client waits 2000 ms;
    with none or an empty one it waits 6000 ms; with an HTTP date, with 0
    and with 25 days it asks for a delay that [setTimeout] takes for 1 ms;
    and it asks again every time. *)
Example throttle_waits :
  let w' :=
    (rateLimitedFetch (READWISE_API_BASE +:+ "/v3/list/?") GET
       (Sample.world None
          [Sample.respond 429 "Too Many Requests" (Some "2") NotJson;
           Sample.respond 429 "Too Many Requests" None NotJson;
           Sample.respond 429 "Too Many Requests" (Some "") NotJson;
           Sample.respond 429 "Too Many Requests"
             (Some "Wed, 21 Oct 2015 07:28:00 GMT") NotJson;
           Sample.respond 429 "Too Many Requests" (Some "0") NotJson;
           Sample.respond 429 "Too Many Requests" (Some "2160000") NotJson;
           Sample.respond 200 "OK" None JsonOther] [])).2 in
  sleepsAt Throttle429 (World.trace w')
  = [Js.Finite 2160000000; Js.Finite 0; Js.NaN; Js.Finite 6000; Js.Finite 6000;
     Js.Finite 2000]
  /\ map Js.timeoutDelay (sleepsAt Throttle429 (World.trace w'))
     = [1; 1; 1; 6000; 6000; 2000]
  /\ length (sentRequests (World.trace w')) = 7%nat.
Proof. vm_compute. repeat split; reflexivity. Qed.

(** ** The actions return *)

(** A step never raises, and it returns unless the upstream stops
    answering. *)
Lemma syncNextBatch_returns w :
  match syncNextBatch w with
  | (Ret _, _) => True
  | (Throw _, _) => False
  | (Pending, w') => World.upstream w' = []
  end.
Proof.
  destruct (Js.truthy (apiTokenOf (World.settings w))) eqn:Htruthy; cycle 1.
  { by rewrite syncNextBatch_no_token. }
  destruct (apiTokenOf (World.settings w)) as [[|c token]|] eqn:Htok; try done.
  assert (tokenConfigured w (String c token)) as Htoken by by split.
  destruct (World.syncState w) as [st|] eqn:Hstate; cycle 1.
  { by rewrite syncNextBatch_not_syncing by (by rewrite ?Htok, ?Hstate). }
  destruct (decide (SyncState.status st = syncing)) as [Hsyncing|Hother]; cycle 1.
  { rewrite syncNextBatch_not_syncing; [done|by rewrite Htok|].
    rewrite Hstate. by intros ? [= <-]. }
  destruct (fetchDocuments (stepParams st) (withNewClient (String c token) w))
    as [[page|e|] w1] eqn:Hfetch.
  - destruct (first_fault (World.upsertFault w)
                (map transformDocument (ReadwiseListResponse.results page)))
      as [Hok|(pre & d & post & e & Hdocs & Hpre & Hd)].
    + rewrite (step_applies w _ st Htoken Hstate Hsyncing page w1 Hfetch); [done|].
      intros doc Hdoc. apply Hok, list_elem_of_fmap. eauto.
    + by rewrite (step_upsert_throws w _ st Htoken Hstate Hsyncing page w1 pre d post e).
  - by rewrite (step_fetch_throws w _ st Htoken Hstate Hsyncing e w1 Hfetch).
  - rewrite (step_pending w _ st Htoken Hstate Hsyncing w1 Hfetch).
    pose proof (fetchDocuments_world (stepParams st) (withNewClient (String c token) w))
      as Hworld.
    rewrite Hfetch in Hworld. cbn [snd] in Hworld. rewrite Hworld.
    unfold fetchDocuments, bind in Hfetch.
    destruct (rateLimitedFetch _ _ _) as [[response|e|] w2] eqn:Hrun.
    + destruct (negb _); [done|]. by destruct (Response.body response).
    + done.
    + by apply rateLimitedFetch_pending in Hrun.
Qed.

(** * Further properties *)

(** ** Steps of the sync *)

(** The requests of a step that runs. *)
Lemma step_requests w token st :
  tokenConfigured w token ->
  World.syncState w = Some st -> SyncState.status st = syncing ->
  exists n,
    sentRequests (World.trace (syncNextBatch w).2)
    = (repeat (listUrlOf (Js.toISOString <$> SyncState.lastSyncAt st)
                 (SyncState.lastCursor st), GET) (S n)
       ++ sentRequests (World.trace w))%list.
Proof.
  intros Htoken Hstate Hsyncing.
  rewrite (step_trace w token st Htoken Hstate Hsyncing), fetchDocuments_world.
  destruct (rateLimitedFetch_requests (listUrl (stepParams st)) GET
              (withNewClient token w)) as (n & Hn).
  exists n. rewrite Hn, listUrl_stepParams. reflexivity.
Qed.

Lemma running_dec w : running w \/ ~ running w.
Proof.
  destruct (apiTokenOf (World.settings w)) as [[|c token]|] eqn:Htok;
    try (right; intros (t & st & [Ht Hne] & _); congruence).
  destruct (World.syncState w) as [st|] eqn:Hst;
    [|right; intros (t & st & _ & Hs & _); congruence].
  destruct (decide (SyncState.status st = syncing)) as [Hs|Hs].
  - left. exists (String c token), st. by repeat split.
  - right. intros (t & st' & _ & Hst' & Hs'). congruence.
Qed.

Lemma not_running_step w :
  ~ running w ->
  exists p,
    syncNextBatch w = (Ret p, w)
    /\ SyncProgress.hasMore p = false
    /\ (SyncProgress.status p = p_error \/ SyncProgress.status p = p_idle).
Proof.
  intros Hnot.
  destruct (Js.truthy (apiTokenOf (World.settings w))) eqn:Htruthy; cycle 1.
  { rewrite syncNextBatch_no_token by done. eexists. split; [done|]. split; [done|].
    by left. }
  rewrite syncNextBatch_not_syncing; [| done |].
  - eexists. split; [done|]. split; [done|]. by right.
  - intros st Hst Hs. apply Hnot.
    destruct (apiTokenOf (World.settings w)) as [[|c token]|] eqn:Htok; try done.
    exists (String c token), st. by repeat split.
Qed.

(** X1.  A step sends a request exactly when a token is configured and the
    row is syncing: then all its requests go to the list endpoint with the
    persisted lower bound and cursor; otherwise it returns an error or idle
    progress with [hasMore] false and leaves the world as it found it. *)
Theorem step_runs_only_when_syncing w :
  (running w ->
   exists st n,
     World.syncState w = Some st
     /\ sentRequests (World.trace (syncNextBatch w).2)
        = (repeat (listUrlOf (Js.toISOString <$> SyncState.lastSyncAt st)
                     (SyncState.lastCursor st), GET) (S n)
           ++ sentRequests (World.trace w))%list)
  /\ (~ running w ->
      exists p,
        syncNextBatch w = (Ret p, w)
        /\ SyncProgress.hasMore p = false
        /\ (SyncProgress.status p = p_error \/ SyncProgress.status p = p_idle)).
Proof.
  split; [|apply not_running_step].
  intros (token & st & Htoken & Hstate & Hsyncing).
  destruct (step_requests w token st Htoken Hstate Hsyncing) as (n & Hn).
  by exists st, n.
Qed.

Lemma step_runs_only_when_syncing_witness :
  exists p,
    syncNextBatch
      (Sample.world (Some (Sample.state idle (Some "page-2") None None))
         [Sample.page None [Sample.doc "d1"]] [])
    = (Ret p,
       Sample.world (Some (Sample.state idle (Some "page-2") None None))
         [Sample.page None [Sample.doc "d1"]] [])
    /\ SyncProgress.hasMore p = false.
Proof.
  destruct (step_runs_only_when_syncing
    (Sample.world (Some (Sample.state idle (Some "page-2") None None))
       [Sample.page None [Sample.doc "d1"]] [])) as [_ Hidle].
  destruct Hidle as (p & Hrun & Hmore & _).
  - intros (token & st & _ & Hst & Hs). injection Hst as <-. discriminate Hs.
  - by exists p.
Defined.

(** X2.  [startSync] sends no request and touches neither the documents nor
    the settings, and a row that exists keeps its [lastSyncAt] and its
    [totalSynced], whatever the status it was in. *)
Theorem startSync_keeps_history w :
  World.trace (startSync w).2 = World.trace w
  /\ World.documents (startSync w).2 = World.documents w
  /\ World.settings (startSync w).2 = World.settings w
  /\ forall st, World.syncState w = Some st ->
       exists st',
         World.syncState (startSync w).2 = Some st'
         /\ SyncState.lastSyncAt st' = SyncState.lastSyncAt st
         /\ SyncState.totalSynced st' = SyncState.totalSynced st.
Proof.
  unfold startSync, bind, prisma_settings_findUnique,
    prisma_syncState_findUnique, prisma_syncState_upsert, gets, modify, ret.
  destruct (negb _).
  { do 3 (split; [reflexivity|]). intros st Hst. by exists st. }
  destruct (World.syncState w) as [[[] ? ? ? ?]|] eqn:Hw;
    cbn [fst snd World.trace World.documents World.settings World.syncState
         World.set_syncState];
    do 3 (split; [reflexivity|]); intros st Hst; try done;
    injection Hst as <-; rewrite ?Hw; by eexists.
Qed.

(** ** Skipping and resetting *)

Lemma skipProblematicCursor_run w st :
  World.syncState w = Some st ->
  skipProblematicCursor w
  = (Ret tt,
     World.set_syncState
       (Some {| SyncState.status := idle;
                SyncState.errorMsg := None;
                SyncState.lastCursor := None;
                SyncState.lastSyncAt := Some (World.clock w);
                SyncState.totalSynced := Z.of_nat (size (World.documents w)) |}) w).
Proof.
  intros Hstate.
  unfold skipProblematicCursor, bind, prisma_document_count, Date_now, gets,
    prisma_syncState_update, revalidatePath, ret.
  by rewrite Hstate.
Qed.

(** [startSync] on a row that is not syncing. *)
Lemma startSync_run w token st :
  tokenConfigured w token ->
  World.syncState w = Some st -> SyncState.status st <> syncing ->
  startSync w
  = (Ret (progress p_syncing 0 0 true None),
     World.set_syncState
       (Some {| SyncState.status := syncing;
                SyncState.errorMsg := None;
                SyncState.lastCursor := None;
                SyncState.lastSyncAt := SyncState.lastSyncAt st;
                SyncState.totalSynced := SyncState.totalSynced st |}) w).
Proof.
  intros Htoken Hstate Hnot. destruct Htoken as [Htok Hne].
  unfold startSync, bind, prisma_settings_findUnique,
    prisma_syncState_findUnique, prisma_syncState_upsert, gets, modify, ret.
  rewrite Htok. destruct token as [|c token]; [done|]. cbn [Js.truthy negb].
  rewrite Hstate. destruct st as [[] ? ? ? ?]; try done; by rewrite Hstate.
Qed.

(** C3, where the code departs from it.  [clearError] is written to resume
    a failed sync: its comments keep the cursor "to resume from where it
    failed", and the interface offers it as "Retry from Same Point".  On a
    row in [error] it clears the message and keeps the cursor, the timestamp
    and the total, but it leaves the row [idle] where the claim and those
    comments need [syncing]: the step that follows sends nothing and returns
    idle, and [startSync], the one action that takes an idle row to
    [syncing], discards the cursor, so that every request of the step after
    it asks for the first page again. *)
Theorem retry_in_place w token st :
  tokenConfigured w token ->
  World.syncState w = Some st -> SyncState.status st = error ->
  let cleared := (clearError w).2 in
  let restarted := (startSync cleared).2 in
  clearError w = (Ret tt, cleared)
  /\ World.syncState cleared
     = Some {| SyncState.status := idle;
               SyncState.errorMsg := None;
               SyncState.lastCursor := SyncState.lastCursor st;
               SyncState.lastSyncAt := SyncState.lastSyncAt st;
               SyncState.totalSynced := SyncState.totalSynced st |}
  /\ syncNextBatch cleared
     = (Ret (progress p_idle (SyncState.totalSynced st) 0 false None), cleared)
  /\ World.syncState restarted
     = Some {| SyncState.status := syncing;
               SyncState.errorMsg := None;
               SyncState.lastCursor := None;
               SyncState.lastSyncAt := SyncState.lastSyncAt st;
               SyncState.totalSynced := SyncState.totalSynced st |}
  /\ exists n,
       sentRequests (World.trace (syncNextBatch restarted).2)
       = (repeat (listUrlOf (Js.toISOString <$> SyncState.lastSyncAt st) None, GET)
            (S n)
          ++ sentRequests (World.trace w))%list.
Proof.
  intros Htoken Hstate Herror cleared restarted.
  pose proof (advance_after_clearError w st token Htoken Hstate) as Hstep.
  cbv zeta in Hstep. fold cleared in Hstep.
  subst restarted cleared. rewrite (clearError_run w st Hstate) in *.
  cbn [snd] in *.
  match goal with |- context [Some ?r] =>
    match r with
    | {| SyncState.status := idle; SyncState.errorMsg := _;
         SyncState.lastCursor := _; SyncState.lastSyncAt := _;
         SyncState.totalSynced := _ |} => set (row := r) in *
    end
  end.
  assert (tokenConfigured (World.set_syncState (Some row) w) token) as Htoken1
    by exact Htoken.
  rewrite (startSync_run _ token row Htoken1 eq_refl) by done.
  cbn [snd]. do 3 (split; [done|]). split; [reflexivity|].
  match goal with |- context [syncNextBatch ?w0] => set (w2 := w0) end.
  assert (tokenConfigured w2 token) as Htoken2 by exact Htoken.
  destruct (step_requests w2 token _ Htoken2 eq_refl eq_refl) as (n & Hn).
  exists n. rewrite Hn. reflexivity.
Qed.

(** A sync that failed at the page of cursor [page-7]: after [clearError]
    and the restart that the idle row needs, the first page is asked for. *)
Lemma retry_in_place_witness :
  let w := Sample.world (Some (Sample.state error (Some "page-7") None (Some "boom")))
             [Sample.page None [Sample.doc "d1"]] [] in
  let cleared := (clearError w).2 in
  let restarted := (startSync cleared).2 in
  (SyncState.status <$> World.syncState cleared) = Some idle
  /\ (World.syncState cleared ≫= SyncState.lastCursor) = Some "page-7"
  /\ sentRequests (World.trace (syncNextBatch cleared).2) = []
  /\ (World.syncState restarted ≫= SyncState.lastCursor) = None
  /\ exists n,
       sentRequests (World.trace (syncNextBatch restarted).2)
       = repeat (READWISE_API_BASE +:+ "/v3/list/?", GET) (S n).
Proof.
  cbv zeta.
  destruct (retry_in_place
    (Sample.world (Some (Sample.state error (Some "page-7") None (Some "boom")))
       [Sample.page None [Sample.doc "d1"]] [])
    "tok" (Sample.state error (Some "page-7") None (Some "boom"))
    (sample_token _ _ _) eq_refl eq_refl)
    as (_ & Hcleared & Hstep & Hrestarted & n & Hrequests).
  rewrite Hcleared, Hstep, Hrestarted. cbn [snd].
  do 4 (split; [reflexivity|]).
  exists n. rewrite Hrequests. rewrite app_nil_r. reflexivity.
Defined.

Lemma listUrlOf_lower_bound t :
  listUrlOf (Some (Js.toISOString t)) None
  = READWISE_API_BASE +:+ "/v3/list/?updatedAfter="
    +:+ Js.urlencode (Js.toISOString t).
Proof.
  unfold listUrlOf, listQuery. rewrite toISOString_truthy. reflexivity.
Qed.

(** X3.  [skipProblematicCursor] leaves the row idle with no cursor, no
    message, the number of stored documents as total and the time of the
    skip as [lastSyncAt], and it leaves the documents alone; every request
    of the first step of the sync started next carries that time as
    [updatedAfter] and no cursor. *)
Theorem skip_then_sync w token st :
  tokenConfigured w token ->
  World.syncState w = Some st ->
  let skipped := (skipProblematicCursor w).2 in
  World.syncState skipped
  = Some {| SyncState.status := idle;
            SyncState.errorMsg := None;
            SyncState.lastCursor := None;
            SyncState.lastSyncAt := Some (World.clock w);
            SyncState.totalSynced := Z.of_nat (size (World.documents w)) |}
  /\ World.documents skipped = World.documents w
  /\ exists n,
       sentRequests (World.trace (syncNextBatch (startSync skipped).2).2)
       = (repeat (READWISE_API_BASE +:+ "/v3/list/?updatedAfter="
                  +:+ Js.urlencode (Js.toISOString (World.clock w)), GET) (S n)
          ++ sentRequests (World.trace w))%list.
Proof.
  intros Htoken Hstate skipped. subst skipped.
  rewrite (skipProblematicCursor_run w st Hstate). cbn [snd].
  split; [reflexivity|]. split; [reflexivity|].
  match goal with |- context [World.set_syncState (Some ?r) w] => set (row := r) end.
  rewrite (startSync_run (World.set_syncState (Some row) w) token row Htoken eq_refl)
    by discriminate.
  cbn [snd].
  match goal with |- context [syncNextBatch (World.set_syncState (Some ?r) ?w0)] =>
    destruct (step_requests (World.set_syncState (Some r) w0) token r Htoken
                eq_refl eq_refl) as (n & Hn) end.
  exists n. rewrite Hn. cbn [SyncState.lastSyncAt SyncState.lastCursor fmap
    option_fmap option_map row]. by rewrite listUrlOf_lower_bound.
Qed.

Lemma skip_then_sync_witness :
  exists n,
    sentRequests
      (World.trace
         (syncNextBatch
            (startSync
               (skipProblematicCursor
                  (Sample.world
                     (Some (Sample.state error (Some "page-7") None (Some "boom")))
                     [Sample.page None []] [])).2).2).2)
    = repeat
        ("https://readwise.io/api/v3/list/?updatedAfter=2023-11-14T22%3A15%3A00.000Z",
         GET) (S n).
Proof.
  destruct (skip_then_sync
    (Sample.world (Some (Sample.state error (Some "page-7") None (Some "boom")))
       [Sample.page None []] [])
    "tok" (Sample.state error (Some "page-7") None (Some "boom"))
    (sample_token _ _ _) eq_refl) as (_ & _ & n & Hn).
  exists n. rewrite Hn. cbn [Sample.world World.trace sentRequests].
  rewrite app_nil_r. f_equal.
Defined.

Lemma resetSync_run w :
  resetSync w
  = (Ret tt,
     World.set_documents ∅
       (World.set_syncState
          (Some {| SyncState.status := idle;
                   SyncState.lastCursor := None;
                   SyncState.lastSyncAt := None;
                   SyncState.totalSynced := 0;
                   SyncState.errorMsg := None |}) w)).
Proof.
  unfold resetSync, bind, prisma_syncState_upsert, prisma_document_deleteMany,
    modify, revalidatePath, ret.
  by destruct (World.syncState w).
Qed.

(** X4.  [resetSync] succeeds whether or not there is a row: the row is
    idle with no cursor, no [lastSyncAt], no message and the total 0, and no
    document is left.  Resetting twice is resetting once, and every request
    of the first step of the sync started next has an empty query: no lower
    bound and no cursor. *)
Theorem reset_then_sync w token :
  tokenConfigured w token ->
  let cleared := (resetSync w).2 in
  World.syncState cleared
  = Some {| SyncState.status := idle;
            SyncState.lastCursor := None;
            SyncState.lastSyncAt := None;
            SyncState.totalSynced := 0;
            SyncState.errorMsg := None |}
  /\ World.documents cleared = ∅
  /\ resetSync cleared = (Ret tt, cleared)
  /\ exists n,
       sentRequests (World.trace (syncNextBatch (startSync cleared).2).2)
       = (repeat (READWISE_API_BASE +:+ "/v3/list/?", GET) (S n)
          ++ sentRequests (World.trace w))%list.
Proof.
  intros Htoken cleared. subst cleared. rewrite (resetSync_run w). cbn [snd].
  split; [reflexivity|]. split; [reflexivity|].
  split; [by rewrite resetSync_run|].
  match goal with |- context [World.set_syncState (Some ?r) w] => set (row := r) end.
  rewrite (startSync_run (World.set_documents ∅ (World.set_syncState (Some row) w))
             token row Htoken eq_refl) by discriminate.
  cbn [snd].
  match goal with |- context [syncNextBatch (World.set_syncState (Some ?r) ?w0)] =>
    destruct (step_requests (World.set_syncState (Some r) w0) token r Htoken
                eq_refl eq_refl) as (n & Hn) end.
  exists n. rewrite Hn. reflexivity.
Qed.

Lemma reset_then_sync_witness :
  World.documents
    (resetSync
       (Sample.withDocuments ["a"; "b"]
          (Sample.world (Some (Sample.state error (Some "page-7") (Some 5) None))
             [] []))).2 = ∅
  /\ (SyncState.lastSyncAt
        <$> World.syncState
              (resetSync
                 (Sample.withDocuments ["a"; "b"]
                    (Sample.world
                       (Some (Sample.state error (Some "page-7") (Some 5) None))
                       [] []))).2) = Some None.
Proof.
  destruct (reset_then_sync
    (Sample.withDocuments ["a"; "b"]
       (Sample.world (Some (Sample.state error (Some "page-7") (Some 5) None))
          [] []))
    "tok" (sample_token_withDocuments _ _ _ (sample_token _ _ _)))
    as (Hrow & Hdocs & _).
  split; [exact Hdocs|]. by rewrite Hrow.
Defined.

(** ** The document table under upserts *)

Lemma upsertAll_app a b (store : gmap string Document.t) :
  upsertAll (a ++ b) store = upsertAll b (upsertAll a store).
Proof. apply foldl_app. Qed.

Lemma upsertAll_snoc docs doc (store : gmap string Document.t) :
  upsertAll (docs ++ [doc]) store
  = <[Document.readwiseId doc := doc]> (upsertAll docs store).
Proof. by rewrite upsertAll_app. Qed.

Lemma lookup_upsertAll_notin docs (store : gmap string Document.t) key :
  key ∉ Document.readwiseId <$> docs ->
  upsertAll docs store !! key = store !! key.
Proof.
  induction docs as [|doc docs IH] using rev_ind; [done|].
  rewrite fmap_app, upsertAll_snoc. intros Hnot.
  apply not_elem_of_app in Hnot as [Hdocs Hdoc].
  rewrite lookup_insert_ne; [by apply IH|].
  intros <-. apply Hdoc. cbn. left.
Qed.

Lemma lookup_upsertAll_in docs (store store' : gmap string Document.t) key :
  key ∈ Document.readwiseId <$> docs ->
  upsertAll docs store !! key = upsertAll docs store' !! key.
Proof.
  induction docs as [|doc docs IH] using rev_ind;
    [intros Hin; by apply not_elem_of_nil in Hin|].
  rewrite fmap_app, !upsertAll_snoc. intros Hin.
  destruct (decide (Document.readwiseId doc = key)) as [->|Hne].
  - by rewrite !lookup_insert_eq.
  - rewrite !lookup_insert_ne by done. apply IH.
    apply elem_of_app in Hin as [Hin|Hin]; [done|].
    apply list_elem_of_singleton in Hin. by destruct Hne.
Qed.

(** Upserts that a later list of upserts covers leave no mark. *)
Lemma upsertAll_covered pre docs (store : gmap string Document.t) :
  (forall doc, doc ∈ pre -> Document.readwiseId doc ∈ Document.readwiseId <$> docs) ->
  upsertAll docs (upsertAll pre store) = upsertAll docs store.
Proof.
  intros Hcov. apply map_eq. intros key.
  destruct (decide (key ∈ Document.readwiseId <$> docs)) as [Hin|Hnot].
  - by apply lookup_upsertAll_in.
  - rewrite !lookup_upsertAll_notin; try done.
    intros Hpre. apply list_elem_of_fmap in Hpre as (doc & -> & Hdoc).
    by apply Hnot, Hcov.
Qed.

Lemma upsertAll_keyed docs (store : gmap string Document.t) :
  storeKeyed store -> storeKeyed (upsertAll docs store).
Proof.
  intros Hkeyed. induction docs as [|doc docs IH] using rev_ind; [done|].
  rewrite upsertAll_snoc. intros key row.
  destruct (decide (Document.readwiseId doc = key)) as [<-|Hne].
  - rewrite lookup_insert_eq. by intros [= <-].
  - rewrite lookup_insert_ne by done. apply IH.
Qed.

Lemma upsertAll_grows docs (store : gmap string Document.t) :
  dom store ⊆ dom (upsertAll docs store)
  /\ (size store <= size (upsertAll docs store))%nat.
Proof.
  assert (dom store ⊆ dom (upsertAll docs store)) as Hdom.
  { induction docs as [|doc docs IH] using rev_ind; [done|].
    rewrite upsertAll_snoc, dom_insert_L. set_solver. }
  split; [exact Hdom|]. rewrite <- !size_dom. by apply subseteq_size.
Qed.

(** X5.  Upserting a page again after part of it was upserted gives the
    table that upserting the page once gives: the same rows under the same
    keys, and so the same count.  (The upsert is keyed on [readwiseId] and
    replaces the whole row.) *)
Theorem reapplied_page_is_applied_once pre post w :
  (forall doc, doc ∈ (pre ++ post)%list -> World.upsertFault w doc = None) ->
  let partial := (for_of pre prisma_document_upsert w).2 in
  World.documents (for_of (pre ++ post) prisma_document_upsert partial).2
  = World.documents (for_of (pre ++ post) prisma_document_upsert w).2
  /\ (prisma_document_count
        (for_of (pre ++ post) prisma_document_upsert partial).2).1
     = (prisma_document_count
          (for_of (pre ++ post) prisma_document_upsert w).2).1.
Proof.
  intros Hok partial. subst partial.
  rewrite (for_of_upsert_ok pre w) by (intros d Hd; apply Hok; set_solver).
  cbn [snd]. rewrite !for_of_upsert_ok by done.
  cbn [snd fst World.documents World.set_documents prisma_document_count gets].
  assert (upsertAll (pre ++ post) (upsertAll pre (World.documents w))
          = upsertAll (pre ++ post) (World.documents w)) as ->; [|done].
  apply upsertAll_covered. intros doc Hdoc. apply list_elem_of_fmap.
  exists doc. split; [done|]. set_solver.
Qed.

Lemma reapplied_page_is_applied_once_witness :
  size
    (World.documents
       (for_of (map transformDocument [Sample.doc "d1"; Sample.doc "d2"; Sample.doc "d3"])
          prisma_document_upsert
          (for_of (map transformDocument [Sample.doc "d1"; Sample.doc "d2"])
             prisma_document_upsert (Sample.world None [] [])).2).2) = 3%nat.
Proof.
  destruct (reapplied_page_is_applied_once
    (map transformDocument [Sample.doc "d1"; Sample.doc "d2"])
    (map transformDocument [Sample.doc "d3"])
    (Sample.world None [] [])) as [Hdocs _].
  - intros doc _. reflexivity.
  - cbv zeta in Hdocs. cbn [map app] in Hdocs |- *. rewrite Hdocs.
    vm_compute. reflexivity.
Defined.

(** The documents after a step are those before with some upserts. *)
Lemma step_documents w :
  exists docs,
    World.documents (syncNextBatch w).2 = upsertAll docs (World.documents w).
Proof.
  destruct (running_dec w) as [(token & st & Htoken & Hstate & Hsyncing)|Hnot];
    cycle 1.
  { destruct (not_running_step w Hnot) as (p & -> & _). by exists []. }
  pose proof (netOnly_fetchDocuments (stepParams st) (withNewClient token w))
    as (_ & _ & Hd & _).
  destruct (fetchDocuments (stepParams st) (withNewClient token w))
    as [[page|e|] w1] eqn:Hfetch; cbn [snd World.documents withNewClient
      World.set_client] in Hd.
  - destruct (first_fault (World.upsertFault w)
                (map transformDocument (ReadwiseListResponse.results page)))
      as [Hok|(pre & d & post & e & Hdocs & Hpre & Hfault)].
    + rewrite (step_applies w _ st Htoken Hstate Hsyncing page w1 Hfetch).
      * by eexists.
      * intros doc Hdoc. apply Hok, list_elem_of_fmap. eauto.
    + rewrite (step_upsert_throws w _ st Htoken Hstate Hsyncing page w1 pre d post e)
        by done.
      by exists pre.
  - rewrite (step_fetch_throws w _ st Htoken Hstate Hsyncing e w1 Hfetch).
    exists []. exact Hd.
  - rewrite (step_pending w _ st Htoken Hstate Hsyncing w1 Hfetch).
    exists []. exact Hd.
Qed.

(** The documents after a batch archive: some of the rows of [ids] moved. *)
Lemma archiveDocuments_documents ids w :
  exists success now,
    success ⊆ ids
    /\ World.documents (archiveDocuments ids w).2
       = (fun row =>
            if decide (Document.readwiseId row ∈ success)
            then moveToArchive now row else row) <$> World.documents w.
Proof.
  assert (forall now, World.documents w
            = (fun row => if decide (Document.readwiseId row ∈ @nil string)
                          then moveToArchive now row else row)
              <$> World.documents w) as Hnil.
  { intros now. symmetry. etrans; [|apply map_fmap_id].
    apply map_fmap_ext. intros key row _. case_decide as Hin; [|done].
    by apply not_elem_of_nil in Hin. }
  unfold archiveDocuments, bind at 1, getApiToken, bind at 1,
    prisma_settings_findUnique, gets, ret at 1.
  destruct (negb _).
  { exists [], 0. split; [set_solver|]. apply Hnil. }
  unfold bind at 1, createReadwiseClient, modify, bind at 1, batchArchive.
  match goal with |- context [batchArchive_loop ids 0 ?t None [] [] ?w0] =>
    pose proof (batchArchive_loop_spec ids 0 t [] [] w0) as Hloop;
    pose proof (netOnly_batchArchive_loop ids 0 t [] [] w0) as (_ & _ & Hdocs & _);
    destruct (batchArchive_loop ids 0 t None [] [] w0) as [[r|e|] w1]
  end; cbn [snd World.documents World.set_client] in Hdocs.
  - destruct Hloop as (s & f & ns & Hs & Hf & Hperm & _).
    cbn [app] in Hs. rewrite Hs.
    assert (s ⊆ ids) as Hsub.
    { intros id Hid. rewrite Hperm. set_solver. }
    unfold bind, Date_now, gets, prisma_document_updateMany, modify,
      revalidatePath, ret.
    destruct s as [|id0 s]; cbn [length Nat.ltb Nat.leb snd World.documents
      World.set_documents].
    + exists [], 0. split; [done|]. rewrite Hdocs. apply Hnil.
    + exists (id0 :: s), (World.clock w1). split; [done|]. by rewrite Hdocs.
  - done.
  - exists [], 0. split; [set_solver|]. cbn [snd]. rewrite Hdocs. apply Hnil.
Qed.

Lemma moved_keyed (store : gmap string Document.t) (success : list string) now :
  storeKeyed store ->
  storeKeyed ((fun row =>
                 if decide (Document.readwiseId row ∈ success)
                 then moveToArchive now row else row) <$> store).
Proof.
  intros Hkeyed key row. rewrite lookup_fmap.
  destruct (store !! key) as [row0|] eqn:Hrow; [|done].
  cbn. intros [= <-]. case_decide; cbn; by apply Hkeyed.
Qed.

(** X6.  If every row is stored under its own [readwiseId], it is still so
    after a step of the sync and after a batch archive, however they end. *)
Theorem store_stays_keyed w :
  storeKeyed (World.documents w) ->
  storeKeyed (World.documents (syncNextBatch w).2)
  /\ forall ids, storeKeyed (World.documents (archiveDocuments ids w).2).
Proof.
  intros Hkeyed. split.
  - destruct (step_documents w) as (docs & ->). by apply upsertAll_keyed.
  - intros ids. destruct (archiveDocuments_documents ids w) as (s & now & _ & ->).
    by apply moved_keyed.
Qed.

Lemma store_stays_keyed_witness :
  storeKeyed
    (World.documents
       (syncNextBatch
          (Sample.withDocuments ["a"]
             (Sample.world (Some (Sample.state syncing None None None))
                [Sample.page None [Sample.doc "a"; Sample.doc "b"]] []))).2).
Proof.
  apply (store_stays_keyed
    (Sample.withDocuments ["a"]
       (Sample.world (Some (Sample.state syncing None None None))
          [Sample.page None [Sample.doc "a"; Sample.doc "b"]] []))).
  apply (upsertAll_keyed (map transformDocument (map Sample.doc ["a"]))).
  intros key row Hrow. rewrite lookup_empty in Hrow. discriminate Hrow.
Defined.

(** X7.  A step never removes a document: every key stored before is stored
    after, so the count does not go down.  A batch archive neither adds nor
    removes a row. *)
Theorem documents_never_lost w :
  dom (World.documents w) ⊆ dom (World.documents (syncNextBatch w).2)
  /\ (size (World.documents w) <= size (World.documents (syncNextBatch w).2))%nat
  /\ forall ids,
       dom (World.documents (archiveDocuments ids w).2) = dom (World.documents w).
Proof.
  destruct (step_documents w) as (docs & ->).
  destruct (upsertAll_grows docs (World.documents w)) as [Hdom Hsize].
  split; [exact Hdom|]. split; [exact Hsize|].
  intros ids. destruct (archiveDocuments_documents ids w) as (s & now & _ & ->).
  apply dom_fmap_L.
Qed.

(** ** From one step to the next *)

(** X8.  A step that applies a page with a non-empty cursor and at least one
    document leaves a row with which the next step runs, and every request
    of that next step carries the cursor of the page, with the lower bound
    the cycle started with. *)
Theorem next_step_follows_cursor w token st page w1 :
  tokenConfigured w token ->
  World.syncState w = Some st -> SyncState.status st = syncing ->
  fetchDocuments (stepParams st) (withNewClient token w) = (Ret page, w1) ->
  (forall doc, doc ∈ ReadwiseListResponse.results page ->
     World.upsertFault w (transformDocument doc) = None) ->
  pageHasMore page = true ->
  let w' := (syncNextBatch w).2 in
  running w'
  /\ exists n,
       sentRequests (World.trace (syncNextBatch w').2)
       = (repeat (listUrlOf (Js.toISOString <$> SyncState.lastSyncAt st)
                    (ReadwiseListResponse.nextPageCursor page), GET) (S n)
          ++ sentRequests (World.trace w'))%list.
Proof.
  intros Htoken Hstate Hsyncing Hfetch Hok Hmore w'. subst w'.
  pose proof (netOnly_fetchDocuments (stepParams st) (withNewClient token w))
    as (Hsettings & _). rewrite Hfetch in Hsettings.
  cbn [snd World.settings withNewClient World.set_client] in Hsettings.
  rewrite (step_applies w token st Htoken Hstate Hsyncing page w1 Hfetch Hok).
  cbn [snd].
  match goal with |- context [World.set_syncState (Some ?r) ?w0] =>
    set (row := r); set (w2 := World.set_syncState (Some row) w0) end.
  assert (tokenConfigured w2 token) as Htoken2.
  { destruct Htoken as [Htok Hne]. split; [|done].
    subst w2. cbn [World.settings World.set_syncState World.set_documents].
    by rewrite Hsettings. }
  assert (SyncState.status row = syncing) as Hrow
    by (subst row; cbn; by rewrite Hmore).
  split.
  - by exists token, row.
  - destruct (step_requests w2 token row Htoken2 eq_refl Hrow) as (n & Hn).
    exists n. rewrite Hn. subst row. cbn [appliedRow SyncState.lastSyncAt
      SyncState.lastCursor]. by rewrite Hmore.
Qed.

Lemma next_step_follows_cursor_witness :
  exists n,
    sentRequests
      (World.trace
         (syncNextBatch
            (World.set_upstream [Sample.page None [Sample.doc "d2"]]
               (syncNextBatch
                  (Sample.world (Some (Sample.state syncing None None None))
                     [Sample.page (Some "page-2") [Sample.doc "d1"]] [])).2)).2)
    = (repeat ("https://readwise.io/api/v3/list/?pageCursor=page-2", GET) (S n)
       ++ [("https://readwise.io/api/v3/list/?", GET)])%list.
Proof.
  edestruct (next_step_follows_cursor
    (Sample.world (Some (Sample.state syncing None None None))
       [Sample.page (Some "page-2") [Sample.doc "d1"]] [])
    "tok" (Sample.state syncing None None None)
    (Sample.pageOf (Some "page-2") [Sample.doc "d1"])) as [Hrun _].
  - apply sample_token.
  - reflexivity.
  - reflexivity.
  - vm_compute. reflexivity.
  - intros doc _. reflexivity.
  - reflexivity.
  - destruct Hrun as (token & st & Htoken & Hstate & Hsyncing).
    destruct (step_requests
      (World.set_upstream [Sample.page None [Sample.doc "d2"]]
         (syncNextBatch
            (Sample.world (Some (Sample.state syncing None None None))
               [Sample.page (Some "page-2") [Sample.doc "d1"]] [])).2)
      token st Htoken Hstate Hsyncing) as (n & Hn).
    exists n. rewrite Hn. vm_compute in Hstate. injection Hstate as <-.
    f_equal.
Defined.

(** The trace only grows. *)
Lemma rateLimitedFetch_rec_trace fuel url options retryCount w :
  exists later,
    World.trace (rateLimitedFetch_rec fuel url options retryCount w).2
    = (later ++ World.trace w)%list.
Proof.
  revert retryCount w. induction fuel as [|fuel IH]; intros retryCount w.
  { by exists []. }
  rewrite rateLimitedFetch_rec_S.
  assert (exists l0, World.trace (afterPacing w) = (l0 ++ World.trace w)%list)
    as (l0 & Hl0).
  { destruct (afterPacing_trace w) as [->|[ms ->]]; [by exists []|by eexists [_]]. }
  unfold bind at 1, fetch. cbv beta.
  destruct (World.upstream (afterPacing w)) as [|a rest].
  { eexists (_ :: l0). cbn [snd World.trace World.log]. by rewrite Hl0. }
  destruct (Attempt.reply a) as [e|response].
  { eexists (_ :: l0). cbn [snd World.trace World.log World.set_clock
      World.set_upstream]. by rewrite Hl0. }
  destruct (_ =? 429)%Z.
  - unfold bind, sleep, modify.
    match goal with |- context [rateLimitedFetch_rec fuel url options retryCount ?w3] =>
      destruct (IH retryCount w3) as (l & Hl) end.
    rewrite Hl. cbn [World.trace World.log World.set_clock World.set_upstream
      World.set_timerLag]. rewrite Hl0.
    eexists (l ++ _ :: _ :: l0)%list. by rewrite <- app_assoc.
  - destruct (_ && _)%bool.
    + unfold bind, sleep, modify.
      match goal with |- context [rateLimitedFetch_rec fuel url options (S retryCount) ?w3] =>
        destruct (IH (S retryCount) w3) as (l & Hl) end.
      rewrite Hl. cbn [World.trace World.log World.set_clock World.set_upstream
        World.set_timerLag]. rewrite Hl0.
      eexists (l ++ _ :: _ :: l0)%list. by rewrite <- app_assoc.
    + eexists (_ :: l0). cbn [ret snd World.trace World.log World.set_clock
        World.set_upstream]. by rewrite Hl0.
Qed.

(** The first request of a call through a client that has waited long
    enough leaves at once. *)
Lemma rateLimitedFetch_first_request url options w :
  ReadwiseClient.lastRequestTime (World.client w) + minRequestInterval
    <= World.clock w ->
  exists later,
    World.trace (rateLimitedFetch url options w).2
    = (later ++ Send (World.clock w) url options :: World.trace w)%list.
Proof.
  intros Hwaited. unfold rateLimitedFetch. rewrite rateLimitedFetch_rec_S.
  assert (World.trace (afterPacing w) = World.trace w
          /\ World.clock (afterPacing w) = World.clock w) as [Htr Hclk].
  { unfold afterPacing. destruct (_ <? _)%Z eqn:Hlt; [|done].
    apply Z.ltb_lt in Hlt. lia. }
  unfold bind at 1, fetch. cbv beta. rewrite Hclk.
  destruct (World.upstream (afterPacing w)) as [|a rest].
  { exists []. cbn [snd World.trace World.log app]. by rewrite Htr. }
  destruct (Attempt.reply a) as [e|response].
  { exists []. cbn [snd World.trace World.log World.set_clock World.set_upstream app].
    by rewrite Htr. }
  destruct (_ =? 429)%Z.
  - unfold bind, sleep, modify.
    match goal with |- context [rateLimitedFetch_rec ?f url options ?rc ?w3] =>
      destruct (rateLimitedFetch_rec_trace f url options rc w3) as (l & Hl) end.
    rewrite Hl. cbn [World.trace World.log World.set_clock World.set_upstream
      World.set_timerLag]. rewrite Htr.
    eexists (l ++ [_])%list. by rewrite <- app_assoc.
  - destruct (_ && _)%bool.
    + unfold bind, sleep, modify.
      match goal with |- context [rateLimitedFetch_rec ?f url options ?rc ?w3] =>
        destruct (rateLimitedFetch_rec_trace f url options rc w3) as (l & Hl) end.
      rewrite Hl. cbn [World.trace World.log World.set_clock World.set_upstream
        World.set_timerLag]. rewrite Htr.
      eexists (l ++ [_])%list. by rewrite <- app_assoc.
    + exists []. cbn [ret snd World.trace World.log World.set_clock
        World.set_upstream app]. by rewrite Htr.
Qed.

(** X9.  Every step makes a client of its own, with [lastRequestTime] 0: once
    the clock is past the interval, the first request of a step leaves at
    the moment the step starts, with no wait, however recently the step
    before sent its last request. *)
Theorem step_first_request_not_paced w token st :
  tokenConfigured w token ->
  World.syncState w = Some st -> SyncState.status st = syncing ->
  minRequestInterval <= World.clock w ->
  exists later,
    World.trace (syncNextBatch w).2
    = (later
       ++ Send (World.clock w)
            (listUrlOf (Js.toISOString <$> SyncState.lastSyncAt st)
               (SyncState.lastCursor st)) GET
       :: World.trace w)%list.
Proof.
  intros Htoken Hstate Hsyncing Hclock.
  rewrite (step_trace w token st Htoken Hstate Hsyncing), fetchDocuments_world.
  destruct (rateLimitedFetch_first_request (listUrl (stepParams st)) GET
              (withNewClient token w)) as (later & Hlater).
  { cbn. lia. }
  exists later. rewrite Hlater, listUrl_stepParams. reflexivity.
Qed.

Lemma step_first_request_not_paced_witness :
  exists later,
    World.trace
      (syncNextBatch
         (World.set_upstream [Sample.page None [Sample.doc "d2"]]
            (syncNextBatch
               (Sample.world (Some (Sample.state syncing None None None))
                  [Sample.page (Some "page-2") [Sample.doc "d1"]] [])).2)).2
    = (later
       ++ [Send 1700000100040 "https://readwise.io/api/v3/list/?pageCursor=page-2" GET;
           Send 1700000100000 "https://readwise.io/api/v3/list/?" GET])%list.
Proof.
  destruct (step_first_request_not_paced
    (World.set_upstream [Sample.page None [Sample.doc "d2"]]
       (syncNextBatch
          (Sample.world (Some (Sample.state syncing None None None))
             [Sample.page (Some "page-2") [Sample.doc "d1"]] [])).2)
    "tok"
    {| SyncState.status := syncing; SyncState.lastCursor := Some "page-2";
       SyncState.lastSyncAt := None; SyncState.totalSynced := 1;
       SyncState.errorMsg := None |}) as (later & Hlater).
  - split; [vm_compute; reflexivity | discriminate].
  - vm_compute. reflexivity.
  - reflexivity.
  - vm_compute. discriminate.
  - exists later. rewrite Hlater. f_equal.
Defined.

(** ** More of the client *)

(** X10.  A step ends unless the upstream stops answering: a step that
    does not end has used up every reply of the upstream, and a step ends
    when the next reply of the upstream is neither a 429 nor a 500. *)
Theorem step_ends w :
  (forall w', syncNextBatch w = (Pending, w') -> World.upstream w' = [])
  /\ (World.upstream w <> [] ->
      Forall (fun a => exists status,
                replyStatus a = Some status /\ status <> 429 /\ status <> 500)
        (World.upstream w) ->
      (syncNextBatch w).1 <> Pending).
Proof.
  pose proof (syncNextBatch_returns w) as Hret.
  split.
  - intros w' Hrun. by rewrite Hrun in Hret.
  - intros Hne Hall.
    destruct (syncNextBatch w) as [[p|e|] w'] eqn:Hrun; [done|done|].
    exfalso.
    destruct (running_dec w) as [(token & st & Htoken & Hstate & Hsyncing)|Hnot];
      cycle 1.
    { destruct (not_running_step w Hnot) as (p & Hp & _). congruence. }
    destruct (World.upstream w) as [|a rest] eqn:Hup; [done|].
    apply Forall_cons in Hall as [(status & Ha & H429 & H500) _].
    apply replyStatus_inv in Ha as (response & Hreply & <-).
    destruct (fetchDocuments (stepParams st) (withNewClient token w))
      as [[page|e|] w1] eqn:Hfetch.
    + destruct (first_fault (World.upsertFault w)
                  (map transformDocument (ReadwiseListResponse.results page)))
        as [Hok|(pre & d & post & e & Hdocs & Hpre & Hd)].
      * rewrite (step_applies w _ st Htoken Hstate Hsyncing page w1 Hfetch) in Hrun;
          [done|].
        intros doc Hdoc. apply Hok, list_elem_of_fmap. eauto.
      * by rewrite (step_upsert_throws w _ st Htoken Hstate Hsyncing page w1 pre d post e)
          in Hrun.
    + by rewrite (step_fetch_throws w _ st Htoken Hstate Hsyncing e w1 Hfetch) in Hrun.
    + unfold fetchDocuments, bind, rateLimitedFetch in Hfetch.
      cbn [withNewClient World.upstream World.set_client] in Hfetch.
      rewrite Hup in Hfetch. cbn [length] in Hfetch.
      rewrite (reply_final _ _ _ 0 (withNewClient token w) a rest response)
        in Hfetch; try done; [|by left].
      destruct (negb _); [done|]. by destruct (Response.body response).
Qed.

Lemma step_ends_witness :
  (syncNextBatch
     (Sample.world (Some (Sample.state syncing None None None))
        [Sample.respond 503 "Service Unavailable" None NotJson] [])).1
  <> Pending.
Proof.
  destruct (step_ends
    (Sample.world (Some (Sample.state syncing None None None))
       [Sample.respond 503 "Service Unavailable" None NotJson] []))
    as (_ & Hret).
  apply Hret; [discriminate|].
  repeat constructor. exists 503. repeat split; [discriminate|discriminate].
Defined.


(** X12.  [deleteDocument] succeeds exactly when the response the client
    settles on is a 2xx: a 204 is one of them, so the second test of the
    source never decides. *)
Theorem deleteDocument_outcome id w response w' :
  rateLimitedFetch (READWISE_API_BASE +:+ "/v3/delete/" +:+ id +:+ "/") DELETE w
    = (Ret response, w') ->
  deleteDocument id w
  = (if Response.ok response then Ret tt
     else Throw (Js.ErrorObj ("Failed to delete document: "
                              +:+ pretty (Response.status response) +:+ " "
                              +:+ Response.statusText response)), w')
  /\ (Response.ok response = false -> Response.status response <> 204).
Proof.
  intros Hrun. unfold deleteDocument, bind. rewrite Hrun.
  assert (Response.ok response = false -> Response.status response <> 204) as Hdead.
  { intros Hok H204. unfold Response.ok in Hok. rewrite H204 in Hok. done. }
  split; [|exact Hdead].
  destruct (Response.ok response) eqn:Hok; [done|].
  specialize (Hdead eq_refl). apply Z.eqb_neq in Hdead. by rewrite Hdead.
Qed.

Lemma deleteDocument_outcome_witness :
  exists w',
    deleteDocument "d1"
      (Sample.world None [Sample.respond 404 "Not Found" None NotJson] [])
    = (Throw (Js.ErrorObj "Failed to delete document: 404 Not Found"), w').
Proof.
  edestruct (deleteDocument_outcome "d1"
    (Sample.world None [Sample.respond 404 "Not Found" None NotJson] []))
    as [Hrun _].
  - vm_compute. reflexivity.
  - eexists. rewrite Hrun. reflexivity.
Defined.

Lemma requests_bounded url options fuel :
  forall retryCount w,
    (length (sentRequests
               (World.trace (rateLimitedFetch_rec fuel url options retryCount w).2))
     + Nat.min retryCount 3
     <= length (sentRequests (World.trace w)) + 4 + count429 (World.upstream w))%nat.
Proof.
  induction fuel as [|fuel IH]; intros retryCount w; [cbn; lia|].
  rewrite rateLimitedFetch_rec_S. unfold bind at 1, fetch. cbv beta.
  pose proof (afterPacing_sentRequests w) as Hadm.
  rewrite afterPacing_upstream.
  destruct (World.upstream w) as [|a rest] eqn:Hup.
  { cbn [snd World.trace World.log sentRequests length]. rewrite Hadm. lia. }
  destruct (Attempt.reply a) as [e|response] eqn:Hreply.
  { cbn [snd World.trace World.log World.set_clock World.set_upstream
         sentRequests length]. rewrite Hadm. lia. }
  destruct (_ =? 429)%Z eqn:H429.
  - apply Z.eqb_eq in H429. unfold bind, sleep, modify.
    match goal with |- context [rateLimitedFetch_rec fuel url options retryCount ?w3] =>
      specialize (IH retryCount w3) end.
    cbn [World.trace World.log World.set_clock World.set_upstream
         World.set_timerLag World.upstream sentRequests length] in IH.
    rewrite Hadm in IH.
    assert (count429 (a :: rest) = S (count429 rest)) as ->; [|lia].
    unfold count429. rewrite filter_cons_True; [done|].
    unfold replyStatus. by rewrite Hreply, H429.
  - assert (count429 rest <= count429 (a :: rest))%nat as Hmono.
    { unfold count429. rewrite filter_cons. case_decide; cbn; lia. }
    destruct (_ =? 500)%Z; cbn [andb]; cycle 1.
    { cbn [ret snd World.trace World.log World.set_clock World.set_upstream
           sentRequests length]. rewrite Hadm. lia. }
    destruct (retryCount <? 3)%nat eqn:Hlt.
    + apply Nat.ltb_lt in Hlt. unfold bind, sleep, modify.
      match goal with |- context [rateLimitedFetch_rec fuel url options (S retryCount) ?w3] =>
        specialize (IH (S retryCount) w3) end.
      cbn [World.trace World.log World.set_clock World.set_upstream
           World.set_timerLag World.upstream sentRequests length] in IH.
      rewrite Hadm in IH. lia.
    + cbn [ret snd World.trace World.log World.set_clock World.set_upstream
           sentRequests length]. rewrite Hadm. lia.
Qed.

(** X13.  The requests of one call, retries included, are all the request of
    the call: the same URL, method and body; there is at least one, and at
    most four plus one for each 429 the upstream still has to send. *)
Theorem retries_resend_the_request url options w :
  (exists n,
     sentRequests (World.trace (rateLimitedFetch url options w).2)
     = (repeat (url, options) (S n) ++ sentRequests (World.trace w))%list
     /\ (n <= 3 + count429 (World.upstream w))%nat).
Proof.
  destruct (rateLimitedFetch_requests url options w) as (n & Hn).
  exists n. split; [exact Hn|].
  pose proof (requests_bounded url options (S (length (World.upstream w))) 0 w) as Hb.
  unfold rateLimitedFetch in Hn. rewrite Hn in Hb.
  rewrite length_app, repeat_length in Hb. cbn [Nat.min] in Hb. lia.
Qed.

(** ** The token *)

(** [saveApiToken], by what the validation request settles on. *)
Lemma saveApiToken_run token w :
  saveApiToken token w
  = match rateLimitedFetch (READWISE_API_BASE +:+ "/v2/auth/") GET
            (withNewClient token w) with
    | (Ret response, w1) =>
        if (Response.status response =? 204)%Z then
          (Ret {| ActionResult.success := true; ActionResult.error := None |},
           World.set_settings (Some {| Settings.apiToken := Some token |}) w1)
        else
          (Ret {| ActionResult.success := false;
                  ActionResult.error := Some "Invalid API token" |}, w1)
    | (Throw _, w1) =>
        (Ret {| ActionResult.success := false;
                ActionResult.error := Some "Invalid API token" |}, w1)
    | (Pending, w1) => (Pending, w1)
    end.
Proof.
  unfold saveApiToken, bind at 1, createReadwiseClient, modify, bind at 1.
  change (World.set_client _ w) with (withNewClient token w).
  unfold validateToken, try_catch, bind at 1.
  destruct (rateLimitedFetch _ GET (withNewClient token w))
    as [[response|e|] w1]; [|reflexivity..].
  cbn [ret]. destruct (Response.status response =? 204)%Z; cbn [negb]; [|reflexivity].
  unfold bind, prisma_settings_upsert, modify, revalidatePath, ret.
  by destruct (World.settings w1).
Qed.

(** X14.  [saveApiToken] validates the token through a new client before it
    writes anything.  When the validation request settles on anything but a
    204 (another status, or a failure of [fetch]), the action writes nothing
    and answers with the error "Invalid API token".  When the action
    returns, it has touched neither the sync row nor the documents; it
    reports success exactly when the validation request settled on a 204,
    and then the token is the one stored in the settings.  A call that does
    not end has used up the replies of the upstream. *)
Theorem saveApiToken_stores_valid_tokens token w :
  let validation :=
    rateLimitedFetch (READWISE_API_BASE +:+ "/v2/auth/") GET (withNewClient token w) in
  (validation.1 <> Pending ->
   (forall response, validation.1 = Ret response -> Response.status response <> 204) ->
   saveApiToken token w
   = (Ret {| ActionResult.success := false;
             ActionResult.error := Some "Invalid API token" |}, validation.2)
   /\ World.settings validation.2 = World.settings w)
  /\ (forall r w',
        saveApiToken token w = (Ret r, w') ->
        World.syncState w' = World.syncState w
        /\ World.documents w' = World.documents w
        /\ (ActionResult.success r = true
            <-> exists response,
                  validation.1 = Ret response /\ Response.status response = 204)
        /\ (ActionResult.success r = true ->
            apiTokenOf (World.settings w') = Some token
            /\ ActionResult.error r = None)
        /\ (ActionResult.success r = false ->
            World.settings w' = World.settings w
            /\ ActionResult.error r = Some "Invalid API token"))
  /\ (forall w', saveApiToken token w = (Pending, w') -> World.upstream w' = []).
Proof.
  cbv zeta. rewrite saveApiToken_run.
  pose proof (netOnly_rateLimitedFetch (READWISE_API_BASE +:+ "/v2/auth/") GET
                (withNewClient token w)) as (Hsettings & Hstate & Hdocs & _).
  destruct (rateLimitedFetch _ GET (withNewClient token w))
    as [[response|e|] w1] eqn:Hrun;
    cbn [fst snd World.settings World.syncState World.documents withNewClient
         World.set_client] in Hsettings, Hstate, Hdocs |- *.
  - destruct (Response.status response =? 204)%Z eqn:Hstatus.
    + apply Z.eqb_eq in Hstatus.
      split; [|split; [|intros ? [=]]].
      { intros _ Hnot. by destruct (Hnot response eq_refl). }
      intros r w' [= <- <-].
      cbn [World.syncState World.documents World.settings World.set_settings
           ActionResult.success ActionResult.error apiTokenOf].
      split; [done|]. split; [done|]. split.
      { split; [intros _|done]. by exists response. }
      split; [|done]. by intros _.
    + apply Z.eqb_neq in Hstatus.
      split; [done|]. split; [|intros ? [=]].
      intros r w' [= <- <-]. cbn [ActionResult.success ActionResult.error].
      split; [done|]. split; [done|]. split.
      { split; [done|]. by intros (r & [= <-] & Hs). }
      split; [done|]. by intros _.
  - split; [done|]. split; [|intros ? [=]].
    intros r w' [= <- <-]. cbn [ActionResult.success ActionResult.error].
    split; [done|]. split; [done|]. split.
    { split; [done|]. by intros (r & Hr & _). }
    split; [done|]. by intros _.
  - split; [done|]. split; [intros ? ? [=]|]. intros w' [= <-].
    by apply rateLimitedFetch_pending in Hrun.
Qed.

(** A token the upstream accepts is stored; one it refuses with a 401 is
    not, and the token that was configured stays. *)
Lemma saveApiToken_stores_valid_tokens_witness :
  (exists w',
     saveApiToken "new"
       (Sample.world None [Sample.respond 204 "No Content" None NotJson] [])
     = (Ret {| ActionResult.success := true; ActionResult.error := None |}, w')
     /\ apiTokenOf (World.settings w') = Some "new")
  /\ exists w',
       saveApiToken "bad"
         (Sample.world None [Sample.respond 401 "Unauthorized" None NotJson] [])
       = (Ret {| ActionResult.success := false;
                 ActionResult.error := Some "Invalid API token" |}, w')
       /\ apiTokenOf (World.settings w') = Some "tok".
Proof.
  split.
  - destruct (saveApiToken_stores_valid_tokens "new"
      (Sample.world None [Sample.respond 204 "No Content" None NotJson] []))
      as (_ & Hreturned & _).
    destruct (saveApiToken "new" _) as [[[[] err]|e|] w'] eqn:Hrun;
      try (vm_compute in Hrun; discriminate Hrun).
    destruct (Hreturned _ w' eq_refl) as (_ & _ & _ & Hstored & _).
    destruct (Hstored eq_refl) as [Htoken Herr].
    cbn [ActionResult.error] in Herr. subst err. by exists w'.
  - destruct (saveApiToken_stores_valid_tokens "bad"
      (Sample.world None [Sample.respond 401 "Unauthorized" None NotJson] []))
      as (Hrefused & _).
    destruct Hrefused as [Hrun Hsettings].
    + vm_compute. discriminate.
    + intros response Hresponse. vm_compute in Hresponse.
      injection Hresponse as <-. vm_compute. discriminate.
    + eexists. split; [exact Hrun|]. rewrite Hsettings. reflexivity.
Defined.

(** X15.  [deleteApiToken] raises when there is no settings row, and changes
    nothing then.  Otherwise it clears the token and leaves the sync row,
    the documents and the network alone; afterwards [hasApiToken] answers
    false and [startSync], [syncNextBatch] and [archiveDocuments] refuse
    without a request or a write, so a sync that was running stays
    recorded as running. *)
Theorem deleteApiToken_disables_sync w ids :
  match World.settings w with
  | None => exists e, deleteApiToken w = (Throw e, w)
  | Some _ =>
      exists w',
        deleteApiToken w
        = (Ret {| ActionResult.success := true; ActionResult.error := None |}, w')
        /\ World.syncState w' = World.syncState w
        /\ World.documents w' = World.documents w
        /\ World.trace w' = World.trace w
        /\ hasApiToken w' = (Ret false, w')
        /\ getApiToken w' = (Ret None, w')
        /\ startSync w'
           = (Ret (progress p_error 0 0 false
                     (Some "No API token configured. Please add your Readwise API token in settings.")),
              w')
        /\ syncNextBatch w'
           = (Ret (progress p_error 0 0 false (Some "No API token configured")), w')
        /\ archiveDocuments ids w'
           = (Ret {| ArchiveResult.success := 0;
                     ArchiveResult.failed := Z.of_nat (length ids);
                     ArchiveResult.errors := ["No API token configured"] |}, w')
  end.
Proof.
  destruct (World.settings w) as [row|] eqn:Hrow.
  - exists (World.set_settings (Some {| Settings.apiToken := None |}) w).
    split.
    { unfold deleteApiToken, bind, prisma_settings_update. by rewrite Hrow. }
    set (w' := World.set_settings _ w).
    assert (World.settings w' = Some {| Settings.apiToken := None |}) as Hsettings
      by done.
    split; [done|]. split; [done|]. split; [done|].
    split. { unfold hasApiToken, bind, prisma_settings_findUnique, gets.
             by rewrite Hsettings. }
    split. { unfold getApiToken, bind, prisma_settings_findUnique, gets.
             by rewrite Hsettings. }
    split. { unfold startSync, bind at 1, prisma_settings_findUnique, gets.
             by rewrite Hsettings. }
    split. { apply syncNextBatch_no_token. by rewrite Hsettings. }
    unfold archiveDocuments, bind at 1, getApiToken, bind at 1,
      prisma_settings_findUnique, gets. by rewrite Hsettings.
  - exists (Js.ErrorObj "Record to update not found.").
    unfold deleteApiToken, bind, prisma_settings_update. by rewrite Hrow.
Qed.

(** ** The scheduled sync *)

(** A call that is answered has consumed a reply of the upstream. *)
Lemma rateLimitedFetch_rec_consumes fuel url options retryCount w r w' :
  rateLimitedFetch_rec fuel url options retryCount w = (r, w') ->
  r <> Pending ->
  (length (World.upstream w') < length (World.upstream w))%nat.
Proof.
  revert retryCount w. induction fuel as [|fuel IH]; intros retryCount w.
  { by intros [= <- <-]. }
  rewrite rateLimitedFetch_rec_S. unfold bind at 1, fetch. cbv beta.
  rewrite afterPacing_upstream.
  destruct (World.upstream w) as [|a rest] eqn:Hup.
  { by intros [= <- <-]. }
  destruct (Attempt.reply a) as [e|response].
  { intros [= <- <-] _.
    cbn [World.upstream World.set_clock World.set_upstream length]. lia. }
  destruct (_ =? 429)%Z.
  - unfold bind, sleep, modify. intros Hrun Hr. apply IH in Hrun; [|done].
    cbn [World.upstream World.log World.set_clock World.set_upstream
         World.set_timerLag length] in Hrun |- *. lia.
  - destruct (_ && _)%bool.
    + unfold bind, sleep, modify. intros Hrun Hr. apply IH in Hrun; [|done].
      cbn [World.upstream World.log World.set_clock World.set_upstream
           World.set_timerLag length] in Hrun |- *. lia.
    + intros [= <- <-] _.
      cbn [World.upstream World.set_clock World.set_upstream length]. lia.
Qed.

Lemma fetchDocuments_consumes params w r w' :
  fetchDocuments params w = (r, w') ->
  r <> Pending ->
  (length (World.upstream w') < length (World.upstream w))%nat.
Proof.
  unfold fetchDocuments, bind, rateLimitedFetch.
  destruct (rateLimitedFetch_rec _ _ GET 0 w) as [[response|e|] w1] eqn:Hrun.
  - apply rateLimitedFetch_rec_consumes in Hrun; [|done].
    destruct (negb _); [by intros [= <- <-]|].
    by destruct (Response.body response); intros [= <- <-].
  - apply rateLimitedFetch_rec_consumes in Hrun; [|done]. by intros [= <- <-].
  - by intros [= <- <-].
Qed.

Lemma fetchDocuments_pending params w w' :
  fetchDocuments params w = (Pending, w') -> World.upstream w' = [].
Proof.
  unfold fetchDocuments, bind.
  destruct (rateLimitedFetch _ GET w) as [[response|e|] w1] eqn:Hrun.
  - destruct (negb _); [done|]. by destruct (Response.body response).
  - done.
  - intros [= <-]. by apply rateLimitedFetch_pending in Hrun.
Qed.

Lemma fetchDocuments_inv early params w :
  0 <= early <= minRequestInterval ->
  clientInv early w -> clientInv early (fetchDocuments params w).2.
Proof.
  intros Hearly Hinv. rewrite fetchDocuments_world. unfold rateLimitedFetch.
  destruct (rateLimitedFetch_rec _ _ GET 0 w) as [r w1] eqn:Hrun.
  by destruct (rateLimitedFetch_rec_inv _ _ _ _ _ _ _ _ Hearly Hinv Hrun).
Qed.

(** The URL of the route's list requests. *)
Lemma listUrl_cron updatedAfter cursor :
  listUrl {| FetchParams.pageCursor := cursor;
             FetchParams.updatedAfter := updatedAfter;
             FetchParams.location := None;
             FetchParams.category := None;
             FetchParams.withHtmlContent := None |}
  = listUrlOf updatedAfter cursor.
Proof.
  unfold listUrl, listUrlOf, listQuery, setIfTruthy.
  cbn [FetchParams.updatedAfter FetchParams.location FetchParams.category
       FetchParams.pageCursor FetchParams.withHtmlContent Js.truthy default].
  destruct (Js.truthy updatedAfter), (Js.truthy cursor); reflexivity.
Qed.

(** The route's upserts of a page stop at the first document the store
    rejects; the ones before it are applied. *)
Lemma for_of_cron docs : forall w r w',
  for_of docs cronUpsert w = (r, w') ->
  exists applied,
    applied `prefix_of` docs
    /\ w' = World.set_documents (cronUpsertAll applied (World.documents w)) w
    /\ match r with
       | Ret _ => applied = docs
       | Throw _ => True
       | Pending => False
       end.
Proof.
  induction docs as [|doc rest IH]; intros w r w' Hrun.
  - injection Hrun as <- <-. exists []. split; [done|]. split; [by destruct w|done].
  - cbn [for_of] in Hrun.
    unfold bind at 1, cronUpsert at 1, prisma_document_upsert_where in Hrun.
    destruct (World.upsertFault w (cronCreate doc)) as [e|] eqn:Hfault.
    + injection Hrun as <- <-.
      exists []. split; [apply prefix_nil|]. split; [by destruct w|done].
    + apply IH in Hrun as (applied & Hpre & -> & Hres).
      exists (doc :: applied). split; [by apply prefix_cons|].
      split; [reflexivity|].
      destruct r as [[]|e|]; [by subst|done|done].
Qed.

Lemma cronUpsertAll_app docs1 docs2 store :
  cronUpsertAll (docs1 ++ docs2) store
  = cronUpsertAll docs2 (cronUpsertAll docs1 store).
Proof. apply foldl_app. Qed.

(** What a run of the loop leaves: the settings and the sync row as they
    were, documents that come from upserts of the route, a longer trace, and
    a client that kept its pace.  The loop comes to an end unless the
    upstream stops answering. *)
Lemma cron_loop_spec fuel updatedAfter : forall cursor total w r w',
  (length (World.upstream w) < fuel)%nat ->
  cron_loop fuel updatedAfter cursor total w = (r, w') ->
  World.settings w' = World.settings w
  /\ World.syncState w' = World.syncState w
  /\ World.upsertFault w' = World.upsertFault w
  /\ (exists docs, World.documents w' = cronUpsertAll docs (World.documents w))
  /\ (exists later, World.trace w' = (later ++ World.trace w)%list)
  /\ (r = Pending -> World.upstream w' = [])
  /\ (forall early, 0 <= early <= minRequestInterval ->
        clientInv early w -> clientInv early w').
Proof.
  induction fuel as [|fuel IH]; intros cursor total w r w' Hfuel Hrun; [lia|].
  cbn [cron_loop] in Hrun. unfold bind at 1 in Hrun.
  match type of Hrun with context [fetchDocuments ?p w] => set (params := p) in * end.
  pose proof (netOnly_fetchDocuments params w) as (Hsettings & Hstate & Hdocs & Hfault).
  pose proof (fun early => fetchDocuments_inv early params w) as Hinv.
  assert (exists later, World.trace (fetchDocuments params w).2
                        = (later ++ World.trace w)%list) as (later1 & Htrace).
  { rewrite fetchDocuments_world. apply rateLimitedFetch_rec_trace. }
  destruct (fetchDocuments params w) as [[page|e|] w1] eqn:Hfetch;
    cbn [snd] in Hsettings, Hstate, Hdocs, Hfault, Hinv, Htrace.
  - apply fetchDocuments_consumes in Hfetch; [|done].
    unfold bind at 1 in Hrun.
    change (fun doc : ReadwiseDocument.t =>
              prisma_document_upsert_where (ReadwiseDocument.id doc)
                (cronUpdate doc) (cronCreate doc)) with cronUpsert in Hrun.
    destruct (for_of (ReadwiseListResponse.results page) cronUpsert w1)
      as [r2 w2] eqn:Hfor.
    destruct (for_of_cron _ _ _ _ Hfor) as (applied & Hpre & Hw2 & Hres).
    destruct r2 as [[]|e|]; [|injection Hrun as <- <-|done].
    + subst applied w2.
      destruct (Js.truthy (ReadwiseListResponse.nextPageCursor page)).
      * apply IH in Hrun; [|cbn [World.upstream World.set_documents]; lia].
        destruct Hrun as (Hs & Hst & Hf & (docs & Hd) & (later & Ht) & Hp & Hi).
        cbn [World.settings World.syncState World.upsertFault World.documents
             World.trace World.set_documents] in Hs, Hst, Hf, Hd, Ht.
        split; [congruence|]. split; [congruence|]. split; [congruence|].
        split. { exists (ReadwiseListResponse.results page ++ docs)%list.
                 by rewrite cronUpsertAll_app, <- Hdocs. }
        split. { exists (later ++ later1)%list. by rewrite <- app_assoc, <- Htrace. }
        split; [done|]. intros early Hearly Hw. apply Hi; [done|]. by apply Hinv.
      * injection Hrun as <- <-.
        cbn [World.settings World.syncState World.upsertFault World.documents
             World.trace World.set_documents].
        split; [done|]. split; [done|]. split; [done|].
        split. { exists (ReadwiseListResponse.results page). by rewrite <- Hdocs. }
        split. { by exists later1. }
        split; [done|]. intros early Hearly Hw. by apply Hinv.
    + subst w2.
      cbn [World.settings World.syncState World.upsertFault World.documents
           World.trace World.set_documents].
      split; [done|]. split; [done|]. split; [done|].
      split. { exists applied. by rewrite <- Hdocs. }
      split. { by exists later1. }
      split; [done|]. intros early Hearly Hw. by apply Hinv.
  - injection Hrun as <- <-.
    split; [done|]. split; [done|]. split; [done|].
    split. { exists []. by rewrite Hdocs. }
    split. { by exists later1. }
    split; [done|]. intros early Hearly Hw. by apply Hinv.
  - injection Hrun as <- <-.
    split; [done|]. split; [done|]. split; [done|].
    split. { exists []. by rewrite Hdocs. }
    split. { by exists later1. }
    split; [|intros early Hearly Hw; by apply Hinv].
    intros _. by apply fetchDocuments_pending in Hfetch.
Qed.

(** A run of the route that passes its three guards. *)
Lemma cron_GET_run secret request w token :
  authorized secret request = true ->
  tokenConfigured w token ->
  (forall st, World.syncState w = Some st -> SyncState.status st <> syncing) ->
  cron_GET secret request w
  = match cron_loop (S (length (World.upstream w))) (cronSince w) None 0
            (cronStart token w) with
    | (Ret totalSynced, w1) =>
        (Ret {| NextResponse.status := 200;
                NextResponse.body :=
                  CronSuccess ("Synced " +:+ pretty totalSynced +:+ " documents")
                    (Z.of_nat (size (World.documents w1))) |},
         World.set_syncState
           (Some {| SyncState.status := idle;
                    SyncState.lastSyncAt := Some (World.clock w1);
                    SyncState.totalSynced := Z.of_nat (size (World.documents w1));
                    SyncState.lastCursor := None;
                    SyncState.errorMsg := None |}) w1)
    | (Throw thrown, w1) =>
        (Ret {| NextResponse.status := 500;
                NextResponse.body :=
                  CronError (match thrown with
                             | Js.ErrorObj message => message
                             | Js.OtherThrown => "Sync failed"
                             end) |},
         World.set_syncState
           (Some {| SyncState.status := error;
                    SyncState.errorMsg := Some (Js.errorMessage thrown);
                    SyncState.lastCursor := World.syncState w ≫= SyncState.lastCursor;
                    SyncState.lastSyncAt := World.syncState w ≫= SyncState.lastSyncAt;
                    SyncState.totalSynced :=
                      default 0 (SyncState.totalSynced <$> World.syncState w) |}) w1)
    | (Pending, w1) => (Pending, w1)
    end.
Proof.
  intros Hauth [Htok Hne] Hidle.
  unfold authorized in Hauth. apply negb_true_iff in Hauth.
  unfold cron_GET. rewrite Hauth.
  unfold try_catch at 1, bind at 1, prisma_settings_findUnique, gets at 1.
  assert (Js.truthy (Some token) = true) as Htruthy by by destruct token.
  rewrite Htok, Htruthy. cbn [negb default].
  unfold bind at 1, prisma_syncState_findUnique, gets at 1.
  pose proof (cron_loop_spec (S (length (World.upstream w))) (cronSince w) None 0
                (cronStart token w)) as Hspec.
  set (run := cron_loop _ (cronSince w) None 0 (cronStart token w)) in *.
  assert (match World.syncState w with
          | Some {| SyncState.status := syncing |} => False
          | _ => True
          end) as Hnot.
  { destruct (World.syncState w) as [[[] ? ? ? ?]|] eqn:Hstate; try done.
    by apply (Hidle _ eq_refl). }
  assert (forall r w1, run = (r, w1) ->
            World.syncState w1 = Some (cronSyncing (World.syncState w))) as Hrow.
  { intros r w1 Hrun. apply Hspec in Hrun as (_ & -> & _); [done|].
    cbn [cronStart withNewClient World.upstream World.set_syncState
         World.set_client]. lia. }
  clear Hspec.
  assert (forall (other : M NextResponse.t) (k : M NextResponse.t),
    match World.syncState w with
    | Some {| SyncState.status := syncing |} => other
    | _ => k
    end = k) as Hmatch.
  { intros other k. by destruct (World.syncState w) as [[[] ? ? ? ?]|]. }
  rewrite Hmatch. clear Hmatch Hnot.
  unfold bind at 1, createReadwiseClient, modify.
  unfold bind at 1, prisma_syncState_upsert, modify.
  unfold try_catch at 1, bind at 1.
  change (cron_loop _ _ None 0 _) with run.
  destruct run as [[totalSynced|thrown|] w1] eqn:Hrun.
  - specialize (Hrow _ _ eq_refl).
    unfold bind at 1, prisma_document_count, gets at 1.
    unfold bind at 1, Date_now, gets at 1.
    unfold bind at 1, prisma_syncState_update. rewrite Hrow. reflexivity.
  - specialize (Hrow _ _ eq_refl).
    unfold bind at 1, prisma_syncState_update. rewrite Hrow.
    unfold throw. cbn [ret].
    by destruct (World.syncState w).
  - reflexivity.
Qed.

(** The guards of the route, in order. *)
Lemma cron_GET_cases secret request w :
  (authorized secret request = false
   /\ cron_GET secret request w
      = (Ret {| NextResponse.status := 401;
                NextResponse.body := CronError "Unauthorized" |}, w))
  \/ (authorized secret request = true
      /\ Js.truthy (apiTokenOf (World.settings w)) = false
      /\ cron_GET secret request w
         = (Ret {| NextResponse.status := 400;
                   NextResponse.body := CronError "No API token configured" |}, w))
  \/ (authorized secret request = true
      /\ (exists st, World.syncState w = Some st /\ SyncState.status st = syncing)
      /\ cron_GET secret request w
         = (Ret {| NextResponse.status := 200;
                   NextResponse.body := CronMessage "Sync already in progress" |}, w))
  \/ (authorized secret request = true
      /\ (exists token, tokenConfigured w token)
      /\ (forall st, World.syncState w = Some st -> SyncState.status st <> syncing)).
Proof.
  unfold authorized, cron_GET, tokenConfigured.
  destruct (Js.truthy secret && _)%bool; [by left|]. right. cbn [negb].
  unfold try_catch, bind at 1, prisma_settings_findUnique, gets at 1.
  destruct (Js.truthy (apiTokenOf (World.settings w))) eqn:Htruthy; cbn [negb];
    [|by left]. right.
  destruct (World.syncState w) as [[status ? ? ? ?]|] eqn:Hstate.
  - destruct (decide (status = syncing)) as [->|Hstatus].
    + left. split; [done|]. split; [by eexists|].
      unfold bind, prisma_settings_findUnique, prisma_syncState_findUnique, gets.
      cbv beta. rewrite Htruthy. cbn [negb]. cbv beta. by rewrite Hstate.
    + right. split; [done|]. split.
      * destruct (apiTokenOf (World.settings w)) as [[|c rest]|]; try done.
        by exists (String c rest).
      * by intros st [= <-].
  - right. split; [done|]. split; [|done].
    destruct (apiTokenOf (World.settings w)) as [[|c rest]|]; try done.
    by exists (String c rest).
Qed.



(** The route's upserts keep the key and [createdAt] of the rows they find. *)
Lemma cronUpsertAll_keeps docs : forall (store : gmap string Document.t) key row,
  store !! key = Some row ->
  exists row',
    cronUpsertAll docs store !! key = Some row'
    /\ Document.createdAt row' = Document.createdAt row
    /\ Document.readwiseId row' = Document.readwiseId row.
Proof.
  induction docs as [|doc rest IH]; intros store key row Hrow.
  - by exists row.
  - unfold cronUpsertAll. cbn [foldl]. fold (cronUpsertAll rest).
    destruct (decide (ReadwiseDocument.id doc = key)) as [<-|Hne].
    + rewrite Hrow.
      destruct (IH (<[ReadwiseDocument.id doc := cronUpdate doc row]> store)
                  (ReadwiseDocument.id doc) (cronUpdate doc row))
        as (row' & Hrow' & Hcreated & Hid); [apply lookup_insert_eq|].
      by exists row'.
    + apply IH. by rewrite lookup_insert_ne.
Qed.

Lemma cronUpsertAll_keyed docs : forall store : gmap string Document.t,
  storeKeyed store -> storeKeyed (cronUpsertAll docs store).
Proof.
  induction docs as [|doc rest IH]; intros store Hkeyed; [done|].
  unfold cronUpsertAll. cbn [foldl]. fold (cronUpsertAll rest).
  apply IH. intros key row.
  destruct (decide (ReadwiseDocument.id doc = key)) as [<-|Hne].
  - rewrite lookup_insert_eq. intros [= <-].
    destruct (store !! ReadwiseDocument.id doc) as [row0|] eqn:Hrow0; [|done].
    cbn [cronUpdate Document.readwiseId]. by apply Hkeyed.
  - rewrite lookup_insert_ne by done. apply Hkeyed.
Qed.

(** X17.  A scheduled run, however it ends, loses no document: every row
    that was stored is still stored under its key, with the [readwiseId] and
    the [createdAt] it had; the settings are as they were; and if every row
    was stored under its [readwiseId], it is still so. *)
Theorem cron_keeps_rows secret request w key row :
  World.documents w !! key = Some row ->
  World.settings (cron_GET secret request w).2 = World.settings w
  /\ (storeKeyed (World.documents w) ->
      storeKeyed (World.documents (cron_GET secret request w).2))
  /\ exists row',
       World.documents (cron_GET secret request w).2 !! key = Some row'
       /\ Document.createdAt row' = Document.createdAt row
       /\ Document.readwiseId row' = Document.readwiseId row.
Proof.
  intros Hrow.
  destruct (cron_GET_cases secret request w)
    as [[_ ->]|[(_ & _ & ->)|[(_ & _ & ->)|(Hauth & [token Htoken] & Hidle)]]];
    [split; [done|split; [done|by exists row]]..|].
  rewrite (cron_GET_run secret request w token Hauth Htoken Hidle).
  destruct (cron_loop _ (cronSince w) None 0 (cronStart token w))
    as [r w1] eqn:Hrun.
  apply cron_loop_spec in Hrun as (Hsettings & _ & _ & (docs & Hdocs) & _);
    [|cbn [cronStart withNewClient World.upstream World.set_syncState
           World.set_client]; lia].
  cbn [cronStart withNewClient World.settings World.documents
       World.set_syncState World.set_client] in Hsettings, Hdocs.
  destruct (cronUpsertAll_keeps docs _ _ _ Hrow) as (row' & Hrow' & Hkeeps).
  rewrite <- Hdocs in Hrow'.
  assert (storeKeyed (World.documents w) -> storeKeyed (World.documents w1))
    as Hkeyed.
  { intros Hkeyed. rewrite Hdocs. by apply cronUpsertAll_keyed. }
  destruct r as [total|e|]; cbn [snd World.settings World.documents
                                 World.set_syncState];
    (split; [done|split; [done|by exists row']]).
Qed.

Lemma cron_keeps_rows_witness :
  let w := Sample.withDocuments ["a"]
             (Sample.world None [Sample.page None [Sample.doc "a"]] []) in
  exists row',
    World.documents (cron_GET None {| NextRequest.authorization := None |} w).2
      !! "a" = Some row'
    /\ Document.createdAt row' = Js.DateOfString "2024-01-01T10:00:00Z".
Proof.
  cbv zeta.
  destruct (cron_keeps_rows None {| NextRequest.authorization := None |}
              (Sample.withDocuments ["a"]
                 (Sample.world None [Sample.page None [Sample.doc "a"]] []))
              "a" (transformDocument (Sample.doc "a")) eq_refl)
    as (_ & _ & row' & Hrow' & Hcreated & _).
  exists row'. split; [exact Hrow'|exact Hcreated].
Defined.

(** The requests of the loop are list requests with the lower bound of the
    loop, and the first of them asks for the cursor the loop starts with. *)
Lemma cron_loop_requests fuel updatedAfter : forall cursor total w,
  exists reqs,
    sentRequests (World.trace (cron_loop fuel updatedAfter cursor total w).2)
    = (reqs ++ sentRequests (World.trace w))%list
    /\ Forall (listRequestSince updatedAfter) reqs
    /\ (fuel <> O ->
        exists later, reqs = (later ++ [(listUrlOf updatedAfter cursor, GET)])%list).
Proof.
  induction fuel as [|fuel IH]; intros cursor total w.
  { exists []. by split. }
  cbn [cron_loop]. unfold bind at 1.
  match goal with |- context [fetchDocuments ?p w] => set (params := p) end.
  destruct (rateLimitedFetch_requests (listUrl params) GET w) as (n & Hsent).
  rewrite <- fetchDocuments_world in Hsent. unfold params in Hsent at 2.
  rewrite listUrl_cron in Hsent.
  assert (Forall (listRequestSince updatedAfter)
            (repeat (listUrlOf updatedAfter cursor, GET) (S n))) as Hall.
  { generalize (S n). intros m.
    induction m as [|m IHm]; constructor; [by exists cursor|done]. }
  assert (exists later,
            repeat (listUrlOf updatedAfter cursor, GET) (S n)
            = (later ++ [(listUrlOf updatedAfter cursor, GET)])%list) as Hlast.
  { exists (repeat (listUrlOf updatedAfter cursor, GET) n).
    change [(listUrlOf updatedAfter cursor, GET)]
      with (repeat (listUrlOf updatedAfter cursor, GET) 1).
    rewrite <- repeat_app. f_equal. lia. }
  destruct (fetchDocuments params w) as [[page|e|] w1] eqn:Hfetch; cbn [snd] in Hsent;
    [|by eexists..].
  unfold bind at 1.
  change (fun doc : ReadwiseDocument.t =>
            prisma_document_upsert_where (ReadwiseDocument.id doc)
              (cronUpdate doc) (cronCreate doc)) with cronUpsert.
  destruct (for_of (ReadwiseListResponse.results page) cronUpsert w1)
    as [r2 w2] eqn:Hfor.
  destruct (for_of_cron _ _ _ _ Hfor) as (applied & _ & -> & Hres).
  destruct r2 as [[]|e|]; [|by eexists|done].
  destruct (Js.truthy (ReadwiseListResponse.nextPageCursor page)); [|by eexists].
  match goal with |- context [cron_loop fuel updatedAfter ?c ?t ?w0] =>
    destruct (IH c t w0) as (reqs & Hreqs & Hforall & _) end.
  cbn [World.trace World.set_documents] in Hreqs.
  exists (reqs ++ repeat (listUrlOf updatedAfter cursor, GET) (S n))%list.
  split; [by rewrite Hreqs, Hsent, app_assoc|].
  split; [by apply Forall_app|].
  intros _. destruct Hlast as (later & ->). exists (reqs ++ later)%list.
  by rewrite app_assoc.
Qed.

(** X18.  Every request of a scheduled run is a list request with the
    [lastSyncAt] the run found as lower bound, on every page; the first one
    asks for the first page, whatever cursor the row holds. *)
Theorem cron_requests secret request w token :
  authorized secret request = true ->
  tokenConfigured w token ->
  (forall st, World.syncState w = Some st -> SyncState.status st <> syncing) ->
  exists later,
    sentRequests (World.trace (cron_GET secret request w).2)
    = (later ++ (listUrlOf (cronSince w) None, GET)
             :: sentRequests (World.trace w))%list
    /\ Forall (listRequestSince (cronSince w)) later.
Proof.
  intros Hauth Htoken Hidle.
  rewrite (cron_GET_run secret request w token Hauth Htoken Hidle).
  destruct (cron_loop_requests (S (length (World.upstream w))) (cronSince w)
              None 0 (cronStart token w)) as (reqs & Hreqs & Hall & Hfirst).
  destruct Hfirst as (later & ->); [done|].
  apply Forall_app in Hall as [Hall _].
  exists later. split; [|done].
  rewrite <- app_assoc in Hreqs.
  by destruct (cron_loop _ (cronSince w) None 0 (cronStart token w))
    as [[total|e|] w1].
Qed.

Lemma cron_requests_witness :
  let w := Sample.world
             (Some (Sample.state error (Some "page-9") (Some 1700000000000)
                      (Some "Failed to fetch documents: 502 Bad Gateway")))
             [Sample.page (Some "page-2") []; Sample.page None [Sample.doc "a"]]
             [] in
  exists later,
    sentRequests
      (World.trace (cron_GET None {| NextRequest.authorization := None |} w).2)
    = (later ++ (listUrlOf (cronSince w) None, GET)
             :: sentRequests (World.trace w))%list
    /\ Forall (listRequestSince (cronSince w)) later.
Proof.
  cbv zeta.
  apply (cron_requests None {| NextRequest.authorization := None |} _ "tok").
  - reflexivity.
  - apply sample_token.
  - intros st [= <-]. discriminate.
Defined.

(** X19.  A scheduled run uses one client for all its pages: started with an
    empty trace and with timers that fire at most [early] ms early as
    [Date.now()] counts, it leaves its requests, retries included, at least
    [minRequestInterval - early] ms apart, and every wait of its rate limit
    is for a remainder of the interval.  With timers that are never early
    the requests are [minRequestInterval] apart. *)
Theorem cron_requests_spaced early secret request w :
  0 <= early <= minRequestInterval ->
  timersEarlyBy early w ->
  World.trace w = [] ->
  0 <= World.clock w ->
  let w' := (cron_GET secret request w).2 in
  spaced (minRequestInterval - early) (sendTimes (World.trace w'))
  /\ Forall (fun ms => exists d, ms = Js.Finite d
                                 /\ 0 < d <= minRequestInterval + backstep early)
       (sleepsAt RateLimit (World.trace w')).
Proof.
  intros Hearly Hlags Htrace Hclock. cbv zeta.
  destruct (cron_GET_cases secret request w)
    as [[_ ->]|[(_ & _ & ->)|[(_ & _ & ->)|(Hauth & [token Htoken] & Hidle)]]];
    [cbn [snd]; rewrite Htrace; by split..|].
  rewrite (cron_GET_run secret request w token Hauth Htoken Hidle).
  assert (clientInv early (cronStart token w)) as Hinv.
  { apply (clientInv_new early token w); [lia|done..]. }
  destruct (cron_loop _ (cronSince w) None 0 (cronStart token w))
    as [r w1] eqn:Hrun.
  apply cron_loop_spec in Hrun as (_ & _ & _ & _ & _ & _ & Hinv1);
    [|cbn [cronStart withNewClient World.upstream World.set_syncState
           World.set_client]; lia].
  destruct (Hinv1 early Hearly Hinv) as (_ & _ & Hspaced & _ & Hsleeps).
  by destruct r as [total|e|].
Qed.

(** Three pages with a timer that fires a millisecond early: the requests
    are 2999 ms apart or more. *)
Lemma cron_requests_spaced_witness :
  let w' :=
    (cron_GET None {| NextRequest.authorization := None |}
       (World.set_timerLag [-1; 2]
          (Sample.world None
             [Sample.page (Some "page-2") [Sample.doc "a"];
              Sample.respond 500 "Internal Server Error" None NotJson;
              Sample.page None [Sample.doc "b"]] []))).2 in
  spaced (minRequestInterval - 1) (sendTimes (World.trace w'))
  /\ Forall (fun ms => exists d, ms = Js.Finite d
                                 /\ 0 < d <= minRequestInterval + backstep 1)
       (sleepsAt RateLimit (World.trace w')).
Proof.
  apply (cron_requests_spaced 1 None {| NextRequest.authorization := None |}
           (World.set_timerLag [-1; 2]
              (Sample.world None
                 [Sample.page (Some "page-2") [Sample.doc "a"];
                  Sample.respond 500 "Internal Server Error" None NotJson;
                  Sample.page None [Sample.doc "b"]] []))).
  - vm_compute. split; discriminate.
  - repeat constructor; vm_compute; discriminate.
  - reflexivity.
  - vm_compute. discriminate.
Defined.

(** ** Archiving a source *)

Lemma findMany_spec (where_ : Document.t -> bool) w row :
  row ∈ filter (fun row => where_ row = true)
        (snd <$> map_to_list (World.documents w))
  <-> where_ row = true /\ exists key, World.documents w !! key = Some row.
Proof.
  rewrite list_elem_of_filter, list_elem_of_fmap. split.
  - intros [Hw ([key r] & -> & Hin)]. split; [done|]. exists key.
    by apply elem_of_map_to_list.
  - intros [Hw (key & Hrow)]. split; [done|]. exists (key, row).
    split; [done|]. by apply elem_of_map_to_list.
Qed.

(** The requests of a batch, however it ends, archive IDs of the batch. *)
Lemma batchArchive_loop_requests ids : forall i total success failed w,
  exists reqs,
    sentRequests
      (World.trace (batchArchive_loop ids i total None success failed w).2)
    = (reqs ++ sentRequests (World.trace w))%list
    /\ Forall (archiveRequestOf ids) reqs.
Proof.
  induction ids as [|id rest IH]; intros i total success failed w.
  - by exists [].
  - cbn [batchArchive_loop]. unfold bind at 1, try_catch, bind at 1.
    destruct (archiveDocument_run id w) as (n & Hsent & _).
    assert (Forall (archiveRequestOf (id :: rest))
              (repeat (archiveRequest id) (S n))) as Hmine.
    { generalize (S n). intros m.
      induction m as [|m IHm]; constructor; [|done].
      exists id. split; [apply list_elem_of_here|done]. }
    assert (forall reqs, Forall (archiveRequestOf rest) reqs ->
              Forall (archiveRequestOf (id :: rest)) reqs) as Hrest.
    { intros reqs Hall. eapply Forall_impl; [exact Hall|].
      intros req (id' & Hin & ->).
      exists id'. split; [by apply list_elem_of_further|done]. }
    destruct (archiveDocument id w) as [[[]|e|] w1]; cbn [fst snd] in Hsent.
    + unfold ret at 1, bind at 1, ret at 1.
      destruct (IH (S i) total (success ++ [id])%list failed w1)
        as (reqs & Hreqs & Hall).
      exists (reqs ++ repeat (archiveRequest id) (S n))%list.
      split; [by rewrite Hreqs, Hsent, app_assoc|].
      apply Forall_app. split; [by apply Hrest|done].
    + unfold ret at 1, bind at 1, ret at 1.
      destruct (IH (S i) total success
                  (failed ++ [(id, Js.errorMessage e)])%list w1)
        as (reqs & Hreqs & Hall).
      exists (reqs ++ repeat (archiveRequest id) (S n))%list.
      split; [by rewrite Hreqs, Hsent, app_assoc|].
      apply Forall_app. split; [by apply Hrest|done].
    + by exists (repeat (archiveRequest id) (S n)).
Qed.

Lemma archiveDocuments_requests ids w :
  exists reqs,
    sentRequests (World.trace (archiveDocuments ids w).2)
    = (reqs ++ sentRequests (World.trace w))%list
    /\ Forall (archiveRequestOf ids) reqs.
Proof.
  unfold archiveDocuments, bind at 1, getApiToken, bind at 1,
    prisma_settings_findUnique, gets, ret at 1.
  destruct (negb _); [by exists []|].
  unfold bind at 1, createReadwiseClient, modify, bind at 1, batchArchive.
  match goal with |- context [batchArchive_loop ids 0 ?t None [] [] ?w0] =>
    destruct (batchArchive_loop_requests ids 0 t [] [] w0) as (reqs & Hreqs & Hall);
    destruct (batchArchive_loop ids 0 t None [] [] w0) as [[r|e|] w1]
  end; cbn [snd World.trace World.set_client] in Hreqs; [|by exists reqs..].
  exists reqs. split; [|done].
  unfold bind, Date_now, gets, prisma_document_updateMany, modify,
    revalidatePath, ret.
  by destruct (0 <? _)%nat.
Qed.

(** The IDs collected are those of the rows of the source that are not
    archived yet, each once when the store is keyed. *)
Lemma sourceIds_spec siteName w id :
  id ∈ sourceIds siteName w
  <-> exists key row,
        World.documents w !! key = Some row
        /\ fromSource siteName row = true /\ Document.readwiseId row = id.
Proof.
  unfold sourceIds. rewrite list_elem_of_fmap. split.
  - intros (row & -> & Hrow). apply findMany_spec in Hrow as [Hfrom [key Hkey]].
    by exists key, row.
  - intros (key & row & Hkey & Hfrom & <-). exists row. split; [done|].
    apply findMany_spec. split; [done|]. by exists key.
Qed.

(** X20.  [archiveDocumentsFromSource] touches only rows of that source
    that are in "new", "later" or "shortlist": when every row is stored
    under its [readwiseId], each row is afterwards as it was or, if it is
    such a row, moved to the archive; no row is added or removed; and every
    request sent archives the ID of such a row.  With no such row nothing
    is sent or written, token or not. *)
Theorem archive_source_scope siteName w :
  storeKeyed (World.documents w) ->
  let w' := (archiveDocumentsFromSource siteName w).2 in
  (forall key row,
     World.documents w !! key = Some row ->
     World.documents w' !! key = Some row
     \/ (fromSource siteName row = true
         /\ exists now, World.documents w' !! key = Some (moveToArchive now row)))
  /\ (forall key, World.documents w !! key = None ->
                  World.documents w' !! key = None)
  /\ (exists reqs,
        sentRequests (World.trace w') = (reqs ++ sentRequests (World.trace w))%list
        /\ Forall (fun req =>
                     exists key row,
                       World.documents w !! key = Some row
                       /\ fromSource siteName row = true
                       /\ req = archiveRequest key) reqs)
  /\ ((forall key row, World.documents w !! key = Some row ->
                       fromSource siteName row = false) ->
      archiveDocumentsFromSource siteName w
      = (Ret {| ArchiveResult.success := 0; ArchiveResult.failed := 0;
                ArchiveResult.errors := [] |}, w)).
Proof.
  intros Hkeyed. cbv zeta.
  assert (forall id, id ∈ sourceIds siteName w ->
            exists row, World.documents w !! id = Some row
                        /\ fromSource siteName row = true) as Hids.
  { intros id Hid. apply sourceIds_spec in Hid as (key & row & Hrow & Hfrom & <-).
    exists row. split; [|done]. by rewrite (Hkeyed key row Hrow). }
  unfold archiveDocumentsFromSource, bind at 1 2 3 4 5,
    prisma_document_findMany, gets.
  change (map Document.readwiseId _) with (sourceIds siteName w).
  destruct (length _ =? 0)%nat eqn:Hnone.
  { cbn [ret snd]. split; [by left|]. split; [done|]. split; [by exists []|done]. }
  split; [|split; [|split]].
  - intros key row Hrow.
    destruct (archiveDocuments_documents (sourceIds siteName w) w)
      as (success & now & Hsub & ->).
    rewrite lookup_fmap, Hrow. cbn. case_decide as Hin; [|by left].
    right. split; [|by exists now].
    destruct (Hids _ (Hsub _ Hin)) as (row' & Hrow' & Hfrom).
    rewrite (Hkeyed key row Hrow) in Hrow'. by simplify_eq.
  - intros key Hkey.
    destruct (archiveDocuments_documents (sourceIds siteName w) w)
      as (success & now & Hsub & ->).
    by rewrite lookup_fmap, Hkey.
  - destruct (archiveDocuments_requests (sourceIds siteName w) w)
      as (reqs & Hreqs & Hall).
    exists reqs. split; [done|]. eapply Forall_impl; [exact Hall|].
    intros req (id & Hid & ->). destruct (Hids id Hid) as (row & Hrow & Hfrom).
    by exists id, row.
  - intros Hno. exfalso. apply Nat.eqb_neq in Hnone. apply Hnone.
    destruct (filter _ _) as [|row rest] eqn:Hrows; [done|].
    assert (row ∈ filter (fun row => fromSource siteName row = true)
                    (snd <$> map_to_list (World.documents w))) as Hrow.
    { rewrite Hrows. apply list_elem_of_here. }
    apply findMany_spec in Hrow as [Hfrom (key & Hkey)].
    by rewrite (Hno key row Hkey) in Hfrom.
Qed.

Lemma archive_source_scope_witness :
  let w := World.set_documents
             (upsertAll (map transformDocument
                           [fromSite "blog" "a"; Sample.doc "b"; fromSite "blog" "c"]) ∅)
             (Sample.world None
                [Sample.respond 200 "OK" None JsonOther;
                 Sample.respond 404 "Not Found" None NotJson] []) in
  World.documents (archiveDocumentsFromSource "blog" w).2 !! "b"
  = Some (transformDocument (Sample.doc "b")).
Proof.
  cbv zeta.
  destruct (archive_source_scope "blog"
    (World.set_documents
       (upsertAll (map transformDocument
                     [fromSite "blog" "a"; Sample.doc "b"; fromSite "blog" "c"]) ∅)
       (Sample.world None
          [Sample.respond 200 "OK" None JsonOther;
           Sample.respond 404 "Not Found" None NotJson] [])))
    as (Hrows & _).
  - apply (upsertAll_keyed
             (map transformDocument
                [fromSite "blog" "a"; Sample.doc "b"; fromSite "blog" "c"])).
    intros key row Hrow. rewrite lookup_empty in Hrow. discriminate Hrow.
  - destruct (Hrows "b" (transformDocument (Sample.doc "b")) eq_refl)
      as [Hsame|[Hfrom _]]; [exact Hsame|].
    vm_compute in Hfrom. discriminate Hfrom.
Defined.

Lemma sourceIds_NoDup siteName w :
  storeKeyed (World.documents w) -> NoDup (sourceIds siteName w).
Proof.
  intros Hkeyed. unfold sourceIds.
  assert (map Document.readwiseId
            (filter (fun row => fromSource siteName row = true)
               (snd <$> map_to_list (World.documents w)))
          = (filter (fun kv => fromSource siteName kv.2 = true)
               (map_to_list (World.documents w))).*1) as ->.
  { pose proof (fun key row => proj1 (elem_of_map_to_list (World.documents w) key row))
      as Hin.
    induction (map_to_list (World.documents w)) as [|[key row] rest IH]; [done|].
    cbn [fmap list_fmap snd]. rewrite !filter_cons. cbn [snd].
    assert (Document.readwiseId row = key) as Hkey.
    { apply Hkeyed, Hin, list_elem_of_here. }
    destruct (decide (fromSource siteName row = true)).
    - cbn [map fmap list_fmap fst]. rewrite Hkey. f_equal. apply IH.
      intros k r Hr. by apply Hin, list_elem_of_further.
    - apply IH. intros k r Hr. by apply Hin, list_elem_of_further. }
  assert (forall l : list (string * Document.t), NoDup l.*1 ->
            NoDup (filter (fun kv => fromSource siteName kv.2 = true) l).*1) as Hsub.
  { intros l. induction l as [|[key row] rest IH]; [done|].
    cbn [fmap list_fmap fst]. rewrite NoDup_cons. intros [Hnotin Hnodup].
    rewrite filter_cons. destruct (decide _); [|by apply IH].
    cbn [fmap list_fmap fst]. apply NoDup_cons. split; [|by apply IH].
    intros Hin. apply Hnotin.
    apply list_elem_of_fmap in Hin as ([k r] & -> & Hin).
    apply list_elem_of_filter in Hin as [_ Hin].
    apply list_elem_of_fmap. by exists (k, r). }
  apply Hsub, NoDup_fst_map_to_list.
Qed.

(** The result of a batch archive accounts for every ID it is given. *)
Lemma archiveDocuments_outcome ids w :
  match archiveDocuments ids w with
  | (Ret r, _) =>
      ArchiveResult.success r + ArchiveResult.failed r = Z.of_nat (length ids)
      /\ 0 <= ArchiveResult.success r /\ 0 <= ArchiveResult.failed r
  | (Throw _, _) => True
  | (Pending, w') => World.upstream w' = []
  end.
Proof.
  unfold archiveDocuments, bind at 1, getApiToken, bind at 1,
    prisma_settings_findUnique, gets, ret at 1.
  destruct (negb _).
  { cbn [ret ArchiveResult.success ArchiveResult.failed]. lia. }
  unfold bind at 1, createReadwiseClient, modify, bind at 1, batchArchive.
  match goal with |- context [batchArchive_loop ids 0 ?t None [] [] ?w0] =>
    pose proof (batchArchive_loop_spec ids 0 t [] [] w0) as Hloop;
    destruct (batchArchive_loop ids 0 t None [] [] w0) as [[r|e|] w1]
  end; [|done|done].
  destruct Hloop as (s & f & ns & Hs & Hf & Hperm & _).
  cbn [app] in Hs, Hf.
  unfold bind, Date_now, gets, prisma_document_updateMany, modify,
    revalidatePath, ret.
  assert (length ids = (length s + length f)%nat) as Hlen.
  { by rewrite Hperm, length_app, length_fmap. }
  rewrite Hs, Hf.
  destruct (0 <? length s)%nat;
    cbn [ArchiveResult.success ArchiveResult.failed]; lia.
Qed.

(** X21.  When every row is stored under its [readwiseId], the IDs
    [archiveDocumentsFromSource] hands to the batch archive are those of the
    rows of the source that are not archived, each once.  When the action
    returns, its two counts add up to the number of those rows; a call that
    does not end has used up the replies of the upstream. *)
Theorem archive_source_accounts siteName w :
  storeKeyed (World.documents w) ->
  NoDup (sourceIds siteName w)
  /\ (forall id,
        id ∈ sourceIds siteName w
        <-> exists row, World.documents w !! id = Some row
                        /\ fromSource siteName row = true)
  /\ (forall r w',
        archiveDocumentsFromSource siteName w = (Ret r, w') ->
        ArchiveResult.success r + ArchiveResult.failed r
        = Z.of_nat (length (sourceIds siteName w))
        /\ 0 <= ArchiveResult.success r /\ 0 <= ArchiveResult.failed r)
  /\ (forall w',
        archiveDocumentsFromSource siteName w = (Pending, w') ->
        World.upstream w' = []).
Proof.
  intros Hkeyed. split; [by apply sourceIds_NoDup|]. split.
  { intros id. rewrite sourceIds_spec. split.
    + intros (key & row & Hrow & Hfrom & <-). exists row.
      by rewrite (Hkeyed key row Hrow).
    + intros (row & Hrow & Hfrom). exists id, row.
      by rewrite (Hkeyed id row Hrow). }
  assert (match archiveDocumentsFromSource siteName w with
          | (Ret r, _) =>
              ArchiveResult.success r + ArchiveResult.failed r
              = Z.of_nat (length (sourceIds siteName w))
              /\ 0 <= ArchiveResult.success r /\ 0 <= ArchiveResult.failed r
          | (Throw _, _) => True
          | (Pending, w') => World.upstream w' = []
          end) as Hrun.
  { unfold archiveDocumentsFromSource, bind at 1, prisma_document_findMany, gets.
    change (map Document.readwiseId _) with (sourceIds siteName w).
    destruct (length _ =? 0)%nat eqn:Hnone.
    + apply Nat.eqb_eq in Hnone. unfold sourceIds. rewrite length_map, Hnone.
      cbn [ret ArchiveResult.success ArchiveResult.failed]. lia.
    + apply archiveDocuments_outcome. }
  split.
  - intros r w' Hres. by rewrite Hres in Hrun.
  - intros w' Hres. by rewrite Hres in Hrun.
Qed.

Lemma archive_source_accounts_witness :
  let w := World.set_documents
             (upsertAll (map transformDocument
                           [fromSite "blog" "a"; Sample.doc "b"; fromSite "blog" "c"]) ∅)
             (Sample.world None
                [Sample.respond 200 "OK" None JsonOther;
                 Sample.respond 404 "Not Found" None NotJson] []) in
  exists r w',
    archiveDocumentsFromSource "blog" w = (Ret r, w')
    /\ ArchiveResult.success r + ArchiveResult.failed r = 2.
Proof.
  cbv zeta.
  destruct (archive_source_accounts "blog"
    (World.set_documents
       (upsertAll (map transformDocument
                     [fromSite "blog" "a"; Sample.doc "b"; fromSite "blog" "c"]) ∅)
       (Sample.world None
          [Sample.respond 200 "OK" None JsonOther;
           Sample.respond 404 "Not Found" None NotJson] [])))
    as (_ & _ & Hrun & _).
  - apply (upsertAll_keyed
             (map transformDocument
                [fromSite "blog" "a"; Sample.doc "b"; fromSite "blog" "c"])).
    intros key row Hrow. rewrite lookup_empty in Hrow. discriminate Hrow.
  - destruct (archiveDocumentsFromSource "blog" _) as [[r|e|] w1] eqn:Hres;
      [|vm_compute in Hres; discriminate Hres..].
    exists r, w1. split; [reflexivity|].
    destruct (Hrun r w1 eq_refl) as (Hsum & _). rewrite Hsum.
    vm_compute. reflexivity.
Defined.
